(** * Wallet ledger and tournament registration: a model of the server's
      registration, ledger and award handlers.

    The handlers are embedded as computations in a small state-and-exception
    monad over the four MongoDB collections they touch.  Monetary amounts are
    JavaScript numbers in the source.  The state of the handlers holds them
    as integers: it stands for the states in which every amount is a whole
    number small enough for the arithmetic of doubles to be exact on it.
    What the balance-changing handlers compute on arbitrary doubles, where
    sums and differences are rounded, is given apart, on the kernel's
    floats, in the part on balances as JavaScript numbers; that the two
    agree on whole numbers below 2^53 is proved there.  Strings are
    ASCII strings; an id is an ObjectId as MongoDB prints it. *)

From Stdlib Require Import ZArith String Ascii List Lia Bool DecimalString.
From Stdlib Require Import Floats Zpower.
From stdpp Require Import gmap strings list sorting.

Local Open Scope string_scope.
Local Open Scope Z_scope.

(** ** JavaScript values found in request bodies *)

Module Js.

Inductive jsval :=
| JUndefined
| JNull
| JBool (b : bool)
| JNum (n : Z)
| JStr (s : string).

#[global] Instance jsval_eq_dec : EqDecision jsval.
Proof. solve_decision. Defined.

(** [!v] is [negb (truthy v)]. *)
Definition truthy (v : jsval) : bool :=
  match v with
  | JUndefined | JNull => false
  | JBool b => b
  | JNum n => negb (Z.eqb n 0)
  | JStr s => negb (String.eqb s "")
  end.

(** White space removed by [String.prototype.trim], restricted to ASCII. *)
Definition is_space (c : ascii) : bool :=
  let n := nat_of_ascii c in
  Nat.eqb n 32 || (Nat.leb 9 n && Nat.leb n 13).

Fixpoint trim_start (s : string) : string :=
  match s with
  | EmptyString => EmptyString
  | String c s' => if is_space c then trim_start s' else s
  end.

Fixpoint trim_end (s : string) : string :=
  match s with
  | EmptyString => EmptyString
  | String c s' =>
      match trim_end s' with
      | EmptyString => if is_space c then EmptyString else String c EmptyString
      | t => String c t
      end
  end.

Definition trim (s : string) : string := trim_end (trim_start s).

(** The class [\d] of a regular expression without the unicode flag. *)
Definition is_digit (c : ascii) : bool :=
  let n := nat_of_ascii c in Nat.leb 48 n && Nat.leb n 57.

Fixpoint all_digits (s : string) : bool :=
  match s with
  | EmptyString => true
  | String c s' => is_digit c && all_digits s'
  end.

(** [/^\d+$/.test(s)] *)
Definition digits_only (s : string) : bool :=
  negb (String.eqb s "") && all_digits s.

(** Template-literal rendering of an integer of magnitude below 10^21 (from
    there on JavaScript prints an exponent). *)
Definition show_Z (z : Z) : string := NilZero.string_of_int (Z.to_int z).

End Js.
Import Js.

(** ** Documents of the four collections *)

Record User := mkUser {
  fullname : string;
  email : string;
  mobile : string;
  age : option Z;
  state : string;
  winningAmount : Z;
  depositAmount : Z
}.

Inductive Status := upcoming | active | completed.
Inductive Mode := clash_squad | battle_royal | lone_wolf.
Inductive TeamSize := ts_1vs1 | ts_2v2 | ts_4v4 | ts_6v6.

#[global] Instance Status_eq_dec : EqDecision Status.
Proof. solve_decision. Defined.
#[global] Instance TeamSize_eq_dec : EqDecision TeamSize.
Proof. solve_decision. Defined.

Record Tournament := mkTournament {
  tournamentId : string;
  t_map : string;
  mode : Mode;
  teamSize : option TeamSize;
  entryFee : Z;
  maxSlots : Z;
  registeredPlayers : Z;
  startTime : Z;
  status : Status;
  registeredUsers : list string
}.

Record Metadata := mkMetadata {
  md_tournamentId : option string;
  md_paymentId : option string;
  md_razorpayOrderId : option string;
  md_razorpayPaymentId : option string
}.

Definition no_metadata : Metadata := mkMetadata None None None None.

Record Transaction := mkTransaction {
  tx_id : nat;
  tx_userId : string;
  tx_type : string;
  tx_amount : Z;
  tx_description : string;
  tx_reference : string;
  tx_referenceType : string;
  tx_metadata : Metadata;
  tx_status : string
}.

Record UserSnapshot := mkUserSnapshot {
  us_fullname : string;
  us_email : string;
  us_mobile : string;
  us_age : option Z;
  us_state : string
}.

Record TournamentSnapshot := mkTournamentSnapshot {
  tsn_tournamentId : string;
  tsn_mode : Mode;
  tsn_teamSize : option TeamSize;
  tsn_map : string;
  tsn_startTime : Z
}.

Record Registration := mkRegistration {
  reg_id : nat;
  reg_userId : string;
  reg_tournamentId : string;
  reg_tournamentIdString : string;
  reg_status : string;
  reg_entryFee : Z;
  reg_paymentMethod : string;
  reg_freeFireId : string;
  reg_termsAccepted : bool;
  reg_teamSelection : jsval;
  reg_userSnapshot : UserSnapshot;
  reg_tournamentSnapshot : TournamentSnapshot
}.

Record Db := mkDb {
  users : gmap string User;
  tournaments : gmap string Tournament;
  transactions : list Transaction;
  registrations : list Registration
}.

(** ** Responses, errors and the console *)

Inductive AwardResult :=
| AwardFailed (userId : string) (error : string)
| AwardOk (userId : string) (amount newWinningBalance newTotalBalance : Z).

Inductive Body :=
| Message (m : string)
| InsufficientBalance (required available : Z)
| Registered (deductedFromDeposit deductedFromWinning newBalance : Z)
             (registrationId : nat) (teamAssigned : jsval)
| TransactionLogged (t : Transaction) (newBalance : Z)
| WinningsProcessed (tournament : string) (results : list AwardResult).

Record Response := mkResponse { statusCode : Z; body : Body }.

Inductive Error :=
| MongoDuplicateKey   (* error.code === 11000 *)
| ValidationError
| DbFailure
| TypeError.

Definition code_11000 (e : Error) : bool :=
  match e with MongoDuplicateKey => true | _ => false end.

Inductive LogEntry :=
| LogInfo (text : string)
| LogError (context : string) (e : Error).

Record World := mkWorld {
  db : Db;
  nextId : nat;
  console : list LogEntry
}.

(** ** The handler monad: state, early replies and exceptions *)

Inductive Outcome (A : Type) :=
| Val (a : A)
| Reply (r : Response)
| Throw (e : Error).
Arguments Val {A} a.
Arguments Reply {A} r.
Arguments Throw {A} e.

Definition M (A : Type) : Type := World -> Outcome A * World.

Definition ret {A} (a : A) : M A := fun w => (Val a, w).

Definition bind {A B} (m : M A) (k : A -> M B) : M B :=
  fun w =>
    match m w with
    | (Val a, w') => k a w'
    | (Reply r, w') => (Reply r, w')
    | (Throw e, w') => (Throw e, w')
    end.

Notation "'let*' x ':=' m 'in' k" := (bind m (fun x => k))
  (at level 10, x name, m at level 100, k at level 200).

Definition reply {A} (code : Z) (b : Body) : M A :=
  fun w => (Reply (mkResponse code b), w).

Definition throw {A} (e : Error) : M A := fun w => (Throw e, w).

(** [if (c) return res.status(code).json(b);] *)
Definition return_if (c : bool) (code : Z) (b : Body) : M unit :=
  if c then reply code b else ret tt.

Definition try_catch {A} (m : M A) (handler : Error -> M A) : M A :=
  fun w =>
    match m w with
    | (Throw e, w') => handler e w'
    | r => r
    end.

Definition console_log (text : string) : M unit :=
  fun w => (Val tt, mkWorld (db w) (nextId w) (console w ++ [LogInfo text])).

Definition console_error (context : string) (e : Error) : M unit :=
  fun w => (Val tt, mkWorld (db w) (nextId w) (console w ++ [LogError context e])).

(** [new Model(...)] draws a fresh [_id]. *)
Definition fresh_id : M nat :=
  fun w => (Val (nextId w), mkWorld (db w) (S (nextId w)) (console w)).

Definition get_db : M Db := fun w => (Val (db w), w).

Definition put_db (d : Db) : M unit :=
  fun w => (Val tt, mkWorld d (nextId w) (console w)).

(** ** Database operations

    Every awaited database call may reject: for reasons outside the model
    (connection loss, time-out) or, for a lookup by id, because Mongoose
    refuses a string that is no ObjectId.  The oracle [Faults] says which
    calls do.  A request that carries a string that is no ObjectId is
    described only by the oracles that refuse the lookup of that string
    ([cast_faults] is the one of a database that answers every call).
    Unique-index violations and schema validation are modelled explicitly. *)

Inductive DbOp :=
| TournamentFindById (id : string)
| UserFindById (id : string)
| UserSave (id : string)
| TransactionFindOne (userId reference referenceType : string)
| TransactionSave (userId reference referenceType : string)
| RegistrationSave (userId tournament : string)
| TournamentSave (id : string).

Definition Faults : Type := DbOp -> bool.

Definition no_faults : Faults := fun _ => false.

Definition set_users (d : Db) (us : gmap string User) : Db :=
  mkDb us (tournaments d) (transactions d) (registrations d).

Definition set_tournaments (d : Db) (ts : gmap string Tournament) : Db :=
  mkDb (users d) ts (transactions d) (registrations d).

Definition set_transactions (d : Db) (l : list Transaction) : Db :=
  mkDb (users d) (tournaments d) l (registrations d).

Definition set_registrations (d : Db) (l : list Registration) : Db :=
  mkDb (users d) (tournaments d) (transactions d) l.

Definition member (x : string) (l : list string) : bool :=
  existsb (String.eqb x) l.

(** The unique index [{ userId: 1, reference: 1, referenceType: 1 }]. *)
Definition tx_has_key (userId reference referenceType : string) (t : Transaction) : bool :=
  String.eqb (tx_userId t) userId
  && String.eqb (tx_reference t) reference
  && String.eqb (tx_referenceType t) referenceType.

(** Schema validation run by [transaction.save()]. *)
Definition validate_transaction (t : Transaction) : bool :=
  negb (String.eqb (tx_userId t) "")
  && member (tx_type t) ["deposit"; "winning"; "entry_fee"; "withdrawal"]
  && negb (String.eqb (tx_description t) "")
  && negb (String.eqb (tx_reference t) "")
  && member (tx_referenceType t) ["payment_id"; "tournament_id"; "withdrawal_id"]
  && member (tx_status t) ["completed"; "pending"; "failed"].

Definition multi_member (ts : option TeamSize) : bool :=
  match ts with
  | Some ts_2v2 | Some ts_4v4 | Some ts_6v6 => true
  | _ => false
  end.

(** [['team_a', 'team_b'].includes(v)] *)
Definition is_team (v : jsval) : bool :=
  match v with
  | JStr s => member s ["team_a"; "team_b"]
  | _ => false
  end.

(** Schema validation run by [registration.save()]: required paths, the
    [teamSelection] enum and its validator. *)
Definition validate_registration (r : Registration) : bool :=
  negb (String.eqb (reg_userId r) "")
  && negb (String.eqb (reg_tournamentId r) "")
  && negb (String.eqb (reg_tournamentIdString r) "")
  && negb (String.eqb (reg_freeFireId r) "")
  && (is_team (reg_teamSelection r) || bool_decide (reg_teamSelection r = JNull))
  && (if multi_member (tsn_teamSize (reg_tournamentSnapshot r))
      then negb (bool_decide (reg_teamSelection r = JNull)) else true).

(** The unique indexes [{ userId: 1, tournamentId: 1 }] and
    [{ tournamentId: 1, freeFireId: 1 }]. *)
Definition reg_conflict (r r' : Registration) : bool :=
  String.eqb (reg_tournamentId r') (reg_tournamentId r)
  && (String.eqb (reg_userId r') (reg_userId r)
      || String.eqb (reg_freeFireId r') (reg_freeFireId r)).

Section Operations.

Variable F : Faults.

Definition db_call {A} (op : DbOp) (action : M A) : M A :=
  if F op then throw DbFailure else action.

Definition Tournament_findById (id : string) : M (option Tournament) :=
  db_call (TournamentFindById id)
    (let* d := get_db in ret (tournaments d !! id)).

Definition User_findById (id : string) : M (option User) :=
  db_call (UserFindById id)
    (let* d := get_db in ret (users d !! id)).

(** [user.save()] of a loaded document: the stored document takes the values
    of the in-memory one. *)
Definition User_save (id : string) (u : User) : M unit :=
  db_call (UserSave id)
    (let* d := get_db in
     match users d !! id with
     | Some _ => put_db (set_users d (<[id := u]> (users d)))
     | None => throw DbFailure
     end).

(** [tournament.save()] after [registeredUsers.push(userId)] and
    [registeredPlayers += 1]: Mongoose sends the change set, a [$push] of the
    user and a [$set] of the counter computed in memory. *)
Definition Tournament_save (id : string) (players : Z) (pushed : string) : M unit :=
  db_call (TournamentSave id)
    (let* d := get_db in
     match tournaments d !! id with
     | Some t =>
         let t' := mkTournament (tournamentId t) (t_map t) (mode t) (teamSize t)
                     (entryFee t) (maxSlots t) players (startTime t) (status t)
                     (registeredUsers t ++ [pushed]) in
         put_db (set_tournaments d (<[id := t']> (tournaments d)))
     | None => throw DbFailure
     end).

Definition Transaction_findOne (userId reference referenceType : string)
  : M (option Transaction) :=
  db_call (TransactionFindOne userId reference referenceType)
    (let* d := get_db in
     ret (find (tx_has_key userId reference referenceType) (transactions d))).

Definition Transaction_save (t : Transaction) : M unit :=
  db_call (TransactionSave (tx_userId t) (tx_reference t) (tx_referenceType t))
    (if negb (validate_transaction t) then throw ValidationError
     else
       let* d := get_db in
       if existsb (tx_has_key (tx_userId t) (tx_reference t) (tx_referenceType t))
            (transactions d)
       then throw MongoDuplicateKey
       else put_db (set_transactions d (transactions d ++ [t]))).

Definition Registration_save (r : Registration) : M unit :=
  db_call (RegistrationSave (reg_userId r) (reg_tournamentId r))
    (if negb (validate_registration r) then throw ValidationError
     else
       let* d := get_db in
       if existsb (reg_conflict r) (registrations d)
       then throw MongoDuplicateKey
       else put_db (set_registrations d (registrations d ++ [r]))).

(** ** The ledger: [logTransaction] *)

Definition logTransaction (userId type : string) (amount : Z)
    (description reference referenceType : string) (metadata : Metadata)
  : M Transaction :=
  try_catch
    (let* existingTransaction := Transaction_findOne userId reference referenceType in
     match existingTransaction with
     | Some t =>
         let* _ := console_log ("Transaction already exists: " ++ reference) in
         ret t
     | None =>
         let* id := fresh_id in
         let transaction :=
           mkTransaction id userId type amount description reference
             referenceType metadata "completed" in
         let* _ := Transaction_save transaction in
         let* _ := console_log ("Transaction logged: " ++ type ++ " - "
                                ++ show_Z amount ++ " - " ++ reference) in
         ret transaction
     end)
    (fun error =>
       let* _ := console_error "Error logging transaction:" error in
       throw error).

End Operations.

(** ** Fee deduction: deposit first, then winnings

    The arithmetic of the registration handler between the balance check and
    [user.save()], on the two balances and the entry fee, for amounts that
    are whole numbers; [deductEntryFee] is the same on doubles. *)

Record Split := mkSplit {
  deductedFromDeposit : Z;
  deductedFromWinning : Z;
  newDeposit : Z;
  newWinning : Z
}.

Inductive SplitResult :=
| SplitInsufficient (totalBalance : Z)
| SplitError
| SplitOk (s : Split).

Definition computeSplit (d w f : Z) : SplitResult :=
  let totalBalance := d + w in
  if totalBalance <? f then SplitInsufficient totalBalance
  else
    let '(fromDeposit, d', remainingFee) :=
      if f <=? d then (f, d - f, 0) else (d, 0, f - d) in
    if 0 <? remainingFee then
      if remainingFee <=? w
      then SplitOk (mkSplit fromDeposit remainingFee d' (w - remainingFee))
      else SplitError
    else SplitOk (mkSplit fromDeposit 0 d' w).

Definition with_balances (u : User) (deposit winning : Z) : User :=
  mkUser (fullname u) (email u) (mobile u) (age u) (state u) winning deposit.

(** ** POST /tournaments/:id/register *)

Record RegisterRequest := mkRegisterRequest {
  rq_userId : string;          (* req.user.userId *)
  rq_id : string;              (* req.params.id *)
  rq_freeFireId : jsval;
  rq_termsAccepted : jsval;
  rq_teamSelection : jsval
}.

Definition requiresTeamSelection (t : Tournament) : bool :=
  multi_member (teamSize t).

(** [v.trim()]: a [TypeError] unless [v] is a string. *)
Definition js_trim (v : jsval) : M string :=
  match v with
  | JStr s => ret (trim s)
  | _ => throw TypeError
  end.

Definition is_upcoming (s : Status) : bool :=
  match s with upcoming => true | _ => false end.

Definition is_completed (s : Status) : bool :=
  match s with completed => true | _ => false end.

Definition new_registration (id : nat) (rq : RegisterRequest) (t : Tournament)
    (u : User) (ffid : string) : Registration :=
  mkRegistration id (rq_userId rq) (rq_id rq) (tournamentId t) "registered"
    (entryFee t) "wallet" ffid true
    (if requiresTeamSelection t then rq_teamSelection rq else JNull)
    (mkUserSnapshot (fullname u) (email u) (mobile u) (age u) (state u))
    (mkTournamentSnapshot (tournamentId t) (mode t) (teamSize t) (t_map t)
       (startTime t)).

Section Handlers.

Variable F : Faults.

(** What the handler has in hand when it reaches its first write. *)
Record Admission := mkAdmission {
  adm_tournament : Tournament;
  adm_user : User;
  adm_split : Split;
  adm_freeFireId : string
}.

(** Lines up to the fee split: loads, guards and validation, no write. *)
Definition register_read (rq : RegisterRequest) : M Admission :=
  let* tournament := Tournament_findById F (rq_id rq) in
  match tournament with
  | None => reply 404 (Message "Tournament not found")
  | Some t =>
    let* _ := return_if (negb (is_upcoming (status t)))
                400 (Message "Tournament registration is closed") in
    let* _ := return_if (maxSlots t <=? registeredPlayers t)
                400 (Message "Tournament is full") in
    let* _ := return_if (member (rq_userId rq) (registeredUsers t))
                400 (Message "Already registered for this tournament") in
    let* _ := return_if (negb (truthy (rq_freeFireId rq)))
                400 (Message "Free Fire ID is required") in
    let* ffid := js_trim (rq_freeFireId rq) in
    let* _ := return_if (String.eqb ffid "")
                400 (Message "Free Fire ID is required") in
    let* _ := return_if (negb (truthy (rq_termsAccepted rq)))
                400 (Message "You must accept the terms and conditions") in
    let* _ := return_if (negb (digits_only ffid))
                400 (Message "Free Fire ID must contain only numbers") in
    let* _ := return_if (requiresTeamSelection t
                         && (negb (truthy (rq_teamSelection rq))
                             || negb (is_team (rq_teamSelection rq))))
                400 (Message "Valid team selection is required for this tournament type") in
    let* user := User_findById F (rq_userId rq) in
    match user with
    | None => reply 404 (Message "User not found")
    | Some u =>
      match computeSplit (depositAmount u) (winningAmount u) (entryFee t) with
      | SplitInsufficient totalBalance =>
          reply 400 (InsufficientBalance (entryFee t) totalBalance)
      | SplitError => reply 400 (Message "Balance calculation error")
      | SplitOk s => ret (mkAdmission t u s ffid)
      end
    end
  end.

(** The block "Log the entry fee transaction": a failure of the ledger is
    logged and swallowed. *)
Definition logEntryFee (rq : RegisterRequest) (t : Tournament) : M unit :=
  try_catch
    (let* _ := logTransaction F (rq_userId rq) "entry_fee" (- entryFee t)
                 ("Entry fee for tournament: " ++ tournamentId t)
                 (rq_id rq) "tournament_id"
                 (mkMetadata (Some (rq_id rq)) None None None) in
     ret tt)
    (fun transactionError =>
       console_error "Error logging entry fee transaction:" transactionError).

(** From [user.save()] to the success reply. *)
Definition register_write (rq : RegisterRequest) (a : Admission) : M Response :=
  let t := adm_tournament a in
  let s := adm_split a in
  let user := with_balances (adm_user a) (newDeposit s) (newWinning s) in
  let* _ := User_save F (rq_userId rq) user in
  let* _ := logEntryFee rq t in
  let* id := fresh_id in
  let registration := new_registration id rq t (adm_user a) (adm_freeFireId a) in
  let* _ := Registration_save F registration in
  let* _ := Tournament_save F (rq_id rq) (registeredPlayers t + 1) (rq_userId rq) in
  reply 200
    (Registered (deductedFromDeposit s) (deductedFromWinning s)
       (depositAmount user + winningAmount user) id
       (if requiresTeamSelection t then rq_teamSelection rq else JNull)).

(** The outer [try { ... } catch (error) { ... }] of a route handler. *)
Definition route (context : string) (on_error : Error -> Response)
    (m : M Response) : World -> Response * World :=
  fun w =>
    match m w with
    | (Val r, w') => (r, w')
    | (Reply r, w') => (r, w')
    | (Throw e, w') =>
        (on_error e,
         mkWorld (db w') (nextId w') (console w' ++ [LogError context e]))
    end.

Definition register_on_error (e : Error) : Response :=
  if code_11000 e
  then mkResponse 400 (Message "You are already registered for this tournament")
  else mkResponse 500 (Message "Server error").

Definition register (rq : RegisterRequest) : World -> Response * World :=
  route "Tournament registration error:" register_on_error
    (let* a := register_read rq in register_write rq a).

(** ** POST /admin/award-winnings *)

Record Winner := mkWinner {
  w_userId : string;
  w_amount : Z;
  w_position : Z
}.

Record AwardRequest := mkAwardRequest {
  aw_role : string;            (* req.user.role *)
  aw_tournamentId : string;
  aw_winners : list Winner
}.

Definition award_reference (tournament userId : string) (position : Z) : string :=
  tournament ++ "_" ++ userId ++ "_" ++ show_Z position.

(** One iteration of [for (const winner of winners)]. *)
Definition awardWinner (tid : string) (t : Tournament) (winner : Winner)
  : M AwardResult :=
  let userId := w_userId winner in
  let amount := w_amount winner in
  let position := w_position winner in
  let* user := User_findById F userId in
  match user with
  | None => ret (AwardFailed userId "User not found")
  | Some u =>
    let u' := with_balances u (depositAmount u) (winningAmount u + amount) in
    let* _ := User_save F userId u' in
    try_catch
      (let* _ := logTransaction F userId "winning" amount
                   ("Tournament winnings - " ++ tournamentId t ++ " (Position "
                    ++ show_Z position ++ ")")
                   (award_reference tid userId position) "tournament_id"
                   (mkMetadata (Some tid) None None None) in
       ret (AwardOk userId amount (winningAmount u')
              (depositAmount u' + winningAmount u')))
      (fun transactionError =>
         let* _ := console_error "Error logging winning transaction:" transactionError in
         ret (AwardFailed userId "Failed to log transaction"))
  end.

Fixpoint awardLoop (tid : string) (t : Tournament) (winners : list Winner)
    (results : list AwardResult) : M (list AwardResult) :=
  match winners with
  | [] => ret results
  | winner :: rest =>
      let* r := awardWinner tid t winner in
      awardLoop tid t rest (results ++ [r])
  end.

Definition server_error (e : Error) : Response :=
  mkResponse 500 (Message "Server error").

Definition awardWinnings (rq : AwardRequest) : World -> Response * World :=
  route "Error awarding winnings:" server_error
    (let* _ := return_if (negb (String.eqb (aw_role rq) "admin"))
                 403 (Message "Admin access required") in
     let* _ := return_if (String.eqb (aw_tournamentId rq) "")
                 400 (Message "Invalid request data") in
     let* tournament := Tournament_findById F (aw_tournamentId rq) in
     match tournament with
     | None => reply 404 (Message "Tournament not found")
     | Some t =>
       let* _ := return_if (negb (is_completed (status t)))
                   400 (Message "Tournament is not completed") in
       let* results := awardLoop (aw_tournamentId rq) t (aw_winners rq) [] in
       reply 200 (WinningsProcessed (aw_tournamentId rq) results)
     end).

(** ** POST /admin/transactions *)

Record AdminTxRequest := mkAdminTxRequest {
  at_role : string;
  at_userId : string;
  at_type : string;
  at_amount : Z;
  at_description : string;
  at_reference : string;
  at_referenceType : string;
  at_metadata : Metadata
}.

Definition is_debit (type : string) : bool :=
  String.eqb type "entry_fee" || String.eqb type "withdrawal".

(** The balance update of the manual transaction, for amounts that are
    whole numbers ([adminBalances] is the same on doubles); [None] is the
    insufficient-balance reply. *)
Definition adminBalanceUpdate (u : User) (type : string) (amount : Z) : option User :=
  if String.eqb type "deposit"
  then Some (with_balances u (depositAmount u + amount) (winningAmount u))
  else if String.eqb type "winning"
  then Some (with_balances u (depositAmount u) (winningAmount u + amount))
  else if is_debit type
  then
    let totalBalance := depositAmount u + winningAmount u in
    if totalBalance <? Z.abs amount then None
    else
      let remainingAmount := Z.abs amount in
      if remainingAmount <=? depositAmount u
      then Some (with_balances u (depositAmount u - remainingAmount) (winningAmount u))
      else Some (with_balances u 0
                   (winningAmount u - (remainingAmount - depositAmount u)))
  else Some u.

Definition admin_on_error (e : Error) : Response :=
  if code_11000 e
  then mkResponse 400 (Message "Transaction with this reference already exists")
  else mkResponse 500 (Message "Server error").

Definition adminTransaction (rq : AdminTxRequest) : World -> Response * World :=
  route "Error logging manual transaction:" admin_on_error
    (let* _ := return_if (negb (String.eqb (at_role rq) "admin"))
                 403 (Message "Admin access required") in
     let* _ := return_if (String.eqb (at_userId rq) "" || String.eqb (at_type rq) ""
                          || (at_amount rq =? 0) || String.eqb (at_description rq) ""
                          || String.eqb (at_reference rq) ""
                          || String.eqb (at_referenceType rq) "")
                 400 (Message "Missing required fields") in
     let* _ := return_if (negb (member (at_type rq)
                                  ["deposit"; "winning"; "entry_fee"; "withdrawal"]))
                 400 (Message "Invalid transaction type") in
     let* user := User_findById F (at_userId rq) in
     match user with
     | None => reply 404 (Message "User not found")
     | Some u =>
       match adminBalanceUpdate u (at_type rq) (at_amount rq) with
       | None => reply 400 (Message "Insufficient balance")
       | Some u' =>
         let* _ := User_save F (at_userId rq) u' in
         let* transaction :=
           logTransaction F (at_userId rq) (at_type rq)
             (if is_debit (at_type rq) then - Z.abs (at_amount rq) else at_amount rq)
             (at_description rq) (at_reference rq) (at_referenceType rq)
             (at_metadata rq) in
         reply 201 (TransactionLogged transaction
                      (depositAmount u' + winningAmount u'))
       end
     end).

End Handlers.

(** ** Interleaving and sequencing of registration calls

    A handler runs without interruption between two awaits, so a call that is
    waiting on its first write has finished [register_read], and another call
    may run its own [register_read] before the first one resumes. *)

Definition resume {A} (o : Outcome A) (k : A -> M Response) : M Response :=
  match o with
  | Val a => k a
  | Reply r => fun w => (Reply r, w)
  | Throw e => fun w => (Throw e, w)
  end.

(** Two calls in flight: both reach their first write, then each completes. *)
Definition register_interleaved (F : Faults) (rq1 rq2 : RegisterRequest)
  : World -> Response * Response * World :=
  fun w =>
    let '(o1, w1) := register_read F rq1 w in
    let '(o2, w2) := register_read F rq2 w1 in
    let '(r1, w3) := route "Tournament registration error:" register_on_error
                       (resume o1 (register_write F rq1)) w2 in
    let '(r2, w4) := route "Tournament registration error:" register_on_error
                       (resume o2 (register_write F rq2)) w3 in
    (r1, r2, w4).

(** Calls served one after the other, each completing before the next starts. *)
Fixpoint register_all (F : Faults) (rqs : list RegisterRequest) (w : World)
  : list Response * World :=
  match rqs with
  | [] => ([], w)
  | rq :: rest =>
      let '(r, w1) := register F rq w in
      let '(rs, w2) := register_all F rest w1 in
      (r :: rs, w2)
  end.

(** ** Predicates used in the statements *)

(** The request fields pass the handler's validation for tournament [t]. *)
Definition valid_input (t : Tournament) (rq : RegisterRequest) : bool :=
  match rq_freeFireId rq with
  | JStr s => digits_only (trim s)
  | _ => false
  end
  && truthy (rq_termsAccepted rq)
  && (negb (requiresTeamSelection t) || is_team (rq_teamSelection rq)).

(** The trimmed Free Fire id of a request ([""] when it is not a string). *)
Definition freeFireId_of (rq : RegisterRequest) : string :=
  match rq_freeFireId rq with
  | JStr s => trim s
  | _ => ""
  end.

(** The capacity guard accepts the user and the input is valid. *)
Definition guards_pass (t : Tournament) (rq : RegisterRequest) : bool :=
  is_upcoming (status t)
  && (registeredPlayers t <? maxSlots t)
  && negb (member (rq_userId rq) (registeredUsers t))
  && valid_input t rq.

(** Steps 1 and 2 of a registration call succeed in world [w]: both loads
    answer, with tournament [t] and user [u], and the guards pass. *)
Definition accepts (F : Faults) (w : World) (rq : RegisterRequest)
    (t : Tournament) (u : User) : Prop :=
  F (TournamentFindById (rq_id rq)) = false
  /\ F (UserFindById (rq_userId rq)) = false
  /\ tournaments (db w) !! rq_id rq = Some t
  /\ users (db w) !! rq_userId rq = Some u
  /\ guards_pass t rq = true.

(** Why [registration.save()] rejects, if it does. *)
Definition registration_save_error (F : Faults) (d : Db) (r : Registration)
  : option Error :=
  if F (RegistrationSave (reg_userId r) (reg_tournamentId r)) then Some DbFailure
  else if negb (validate_registration r) then Some ValidationError
  else if existsb (reg_conflict r) (registrations d) then Some MongoDuplicateKey
  else None.

Definition nonneg_balances (d : Db) : Prop :=
  map_Forall (fun _ u => 0 <= depositAmount u /\ 0 <= winningAmount u) (users d).

Definition tx_key (t : Transaction) : string * string * string :=
  (tx_userId t, tx_reference t, tx_referenceType t).

(** The unique index of the ledger holds. *)
Definition ledger_unique (l : list Transaction) : Prop := NoDup (map tx_key l).

Definition entries_with_key (userId reference referenceType : string)
    (l : list Transaction) : list Transaction :=
  List.filter (tx_has_key userId reference referenceType) l.


Definition tournament_after_registration (t : Tournament) (userId : string)
  : Tournament :=
  mkTournament (tournamentId t) (t_map t) (mode t) (teamSize t) (entryFee t)
    (maxSlots t) (registeredPlayers t + 1) (startTime t) (status t)
    (registeredUsers t ++ [userId]).

Definition full_reply : Response := mkResponse 400 (Message "Tournament is full").
Definition closed_reply : Response :=
  mkResponse 400 (Message "Tournament registration is closed").
Definition already_reply : Response :=
  mkResponse 400 (Message "Already registered for this tournament").

(** ** Concrete scenarios used by the examples *)

Module Scenario.

Definition alice_id : string := "64b7f0000000000000000001".
Definition bob_id : string := "64b7f0000000000000000002".
Definition solo_id : string := "64c8a0000000000000000001".

(** Alice holds 30 in deposit and 20 in winnings, Bob 100 in deposit. *)
Definition alice : User := mkUser "Alice" "alice@example.com" "" None "" 20 30.
Definition bob : User := mkUser "Bob" "bob@example.com" "" None "" 0 100.

(** An upcoming solo tournament with an entry fee of 40 and two slots. *)
Definition solo : Tournament :=
  mkTournament "FF-SOLO-1" "bermuda" lone_wolf (Some ts_1vs1) 40 2 0 0 upcoming [].

Definition some_users : gmap string User :=
  <[alice_id := alice]> (<[bob_id := bob]> ∅).

Definition world0 : World :=
  mkWorld (mkDb some_users (<[solo_id := solo]> ∅) [] []) 0 [].

Definition alice_request : RegisterRequest :=
  mkRegisterRequest alice_id solo_id (JStr "123456") (JBool true) JUndefined.

Definition bob_request : RegisterRequest :=
  mkRegisterRequest bob_id solo_id (JStr "777") (JBool true) JUndefined.

End Scenario.


(** The world right after the [user.save()] of a registration that deducts
    split [s] from user [u]. *)
Definition after_deduction (w : World) (rq : RegisterRequest) (u : User) (s : Split)
  : World :=
  mkWorld
    (set_users (db w)
       (<[rq_userId rq := with_balances u (newDeposit s) (newWinning s)]>
          (users (db w))))
    (nextId w) (console w).

Module RollbackScenario.
Import Scenario.

(** Bob is registered in the solo tournament under Free Fire id 123456. *)
Definition bob_registration : Registration :=
  mkRegistration 7 bob_id solo_id "FF-SOLO-1" "registered" 40 "wallet" "123456"
    true JNull
    (mkUserSnapshot "Bob" "bob@example.com" "" None "")
    (mkTournamentSnapshot "FF-SOLO-1" lone_wolf (Some ts_1vs1) "bermuda" 0).

Definition solo_with_bob : Tournament :=
  mkTournament "FF-SOLO-1" "bermuda" lone_wolf (Some ts_1vs1) 40 2 1 0 upcoming
    [bob_id].

Definition rollback_world : World :=
  mkWorld (mkDb some_users (<[solo_id := solo_with_bob]> ∅) [] [bob_registration])
    8 [].

(** Alice registers under the same Free Fire id. *)
Definition rollback_request : RegisterRequest := alice_request.

End RollbackScenario.

Module SoloScenario.
Import Scenario.

(** Alice picks a team for a solo tournament. *)
Definition team_request : RegisterRequest :=
  mkRegisterRequest alice_id solo_id (JStr "123456") (JBool true) (JStr "team_a").

(** She picks a team, enters the id "0" and sends the string "no" as
    acceptance of the terms. *)
Definition loose_request : RegisterRequest :=
  mkRegisterRequest alice_id solo_id (JStr "0") (JStr "no") (JStr "team_a").

End SoloScenario.

Module LedgerFaultScenario.
Import Scenario.

(** The ledger collection rejects the insertion of Alice's entry-fee entry. *)
Definition ledger_faults : Faults :=
  fun op =>
    match op with
    | TransactionSave _ _ _ => true
    | _ => false
    end.

End LedgerFaultScenario.





Module AwardScenario.
Import Scenario.

Definition finals_id : string := "64c8a0000000000000000009".
Definition ghost_id : string := "64b7f00000000000000000ff".

Definition finals : Tournament :=
  mkTournament "FF-FINALS" "kalahari" battle_royal None 10 48 2 0 completed
    [alice_id; bob_id].

Definition award_world : World :=
  mkWorld (mkDb some_users (<[finals_id := finals]> ∅) [] []) 0 [].

(** Three winners; the second one names a user that does not exist. *)
Definition award_request : AwardRequest :=
  mkAwardRequest "admin" finals_id
    [mkWinner alice_id 50 1; mkWinner ghost_id 30 2; mkWinner bob_id 20 3].

(** A single winner with a negative amount. *)
Definition negative_request : AwardRequest :=
  mkAwardRequest "admin" finals_id [mkWinner alice_id (-50) 1].

End AwardScenario.


(** A request that the guards of tournament [t] (stored under [id]) admit and
    that its user can pay for. *)
Definition eligible (w : World) (id : string) (t : Tournament)
    (rq : RegisterRequest) : Prop :=
  rq_id rq = id
  /\ rq_userId rq <> ""
  /\ valid_input t rq = true
  /\ member (rq_userId rq) (registeredUsers t) = false
  /\ exists u, users (db w) !! rq_userId rq = Some u
               /\ entryFee t <= depositAmount u + winningAmount u.

(** No stored registration for tournament [id] belongs to a user of [rqs] or
    carries a Free Fire id of [rqs]. *)
Definition no_prior_registration (w : World) (id : string)
    (rqs : list RegisterRequest) : Prop :=
  forall r, In r (registrations (db w)) -> reg_tournamentId r = id ->
    forall rq, In rq rqs ->
      reg_userId r <> rq_userId rq /\ reg_freeFireId r <> freeFireId_of rq.

Module LastSeatScenario.
Import Scenario.

Definition duel_id : string := "64c8a0000000000000000002".

(** An upcoming solo tournament with a single slot. *)
Definition duel : Tournament :=
  mkTournament "FF-SOLO-2" "bermuda" lone_wolf (Some ts_1vs1) 40 1 0 0 upcoming [].

Definition duel_world : World :=
  mkWorld (mkDb some_users (<[duel_id := duel]> ∅) [] []) 0 [].

Definition duel_alice : RegisterRequest :=
  mkRegisterRequest alice_id duel_id (JStr "123456") (JBool true) JUndefined.

Definition duel_bob : RegisterRequest :=
  mkRegisterRequest bob_id duel_id (JStr "777") (JBool true) JUndefined.

End LastSeatScenario.


(** ** Invariants of the stored data *)

(** The occupancy counter of a tournament agrees with its list of users,
    which has no repetition, and does not exceed the capacity. *)
Definition occupancy_ok (t : Tournament) : Prop :=
  registeredPlayers t = Z.of_nat (length (registeredUsers t))
  /\ NoDup (registeredUsers t)
  /\ registeredPlayers t <= maxSlots t.

Definition occupancy_invariant (d : Db) : Prop :=
  map_Forall (fun _ t => occupancy_ok t) (tournaments d).

(** The two unique indexes of the registration collection hold. *)
Definition registrations_unique (l : list Registration) : Prop :=
  NoDup (map (fun r => (reg_userId r, reg_tournamentId r)) l)
  /\ NoDup (map (fun r => (reg_tournamentId r, reg_freeFireId r)) l).

(** The ledger call of a registration, as the handler writes it. *)
Definition entry_fee_append (F : Faults) (rq : RegisterRequest) (t : Tournament)
  : M Transaction :=
  logTransaction F (rq_userId rq) "entry_fee" (- entryFee t)
    ("Entry fee for tournament: " ++ tournamentId t) (rq_id rq) "tournament_id"
    (mkMetadata (Some (rq_id rq)) None None None).


(** ** Relations between user collections *)

(** [u'] is [u] with another winning balance. *)
Definition same_but_winning (u u' : User) : Prop :=
  u' = with_balances u (depositAmount u) (winningAmount u').

(** The same users, each differing at most in its winning balance. *)
Definition users_same_but_winning (m m' : gmap string User) : Prop :=
  forall x,
    match m !! x, m' !! x with
    | Some u, Some u' => same_but_winning u u'
    | None, None => True
    | _, _ => False
    end.


(** ** Handlers that read, and tournament administration

    These handlers answer with a payload of their own on success and with a
    message otherwise.  Dates ([registrationDate], [createdAt]) are outside
    the model. *)

Inductive Answer (A : Type) :=
| Ok (a : A)                (* res.json(a) *)
| Refused (r : Response).   (* res.status(code).json({ message }) *)
Arguments Ok {A} a.
Arguments Refused {A} r.

(** The outer [try { ... } catch (error) { ... }] of such a handler. *)
Definition answer {A} (context : string) (on_error : Error -> Response) (m : M A)
  : World -> Answer A * World :=
  fun w =>
    match m w with
    | (Val a, w') => (Ok a, w')
    | (Reply r, w') => (Refused r, w')
    | (Throw e, w') =>
        (Refused (on_error e),
         mkWorld (db w') (nextId w') (console w' ++ [LogError context e]))
    end.

(** The awaited calls of these handlers that the registration, award and
    manual-transaction handlers do not make.  [DbFailure] stands for any
    rejection of such a call. *)
Inductive QueryOp :=
| TournamentFind
| TournamentFindByIdAndDelete (id : string)
| RegistrationFindOne (userId tournament : string)
| TournamentSaveRoom (id : string)
| OrdersCreate
| PaymentsFetch (paymentId : string).

Definition QueryFaults : Type := QueryOp -> bool.

Definition no_query_faults : QueryFaults := fun _ => false.

Definition query_call {A} (G : QueryFaults) (op : QueryOp) (action : M A) : M A :=
  if G op then throw DbFailure else action.

(** *** ObjectIds

    The [_id] of a document is an ObjectId.  MongoDB prints it as 24
    hexadecimal digits, in lower case; the collections of this model are
    keyed by that string, and a request that names a stored document names
    it by that string.  Mongoose casts every id it is given before the query
    leaves: a string of 24 hexadecimal digits is taken (upper-case digits
    for their lower-case ones), any other string is refused with a
    CastError, which the handlers' [catch] answers like any other error.
    (Older versions of the driver also take any string of 12 characters, as
    the 12 bytes of an id; the statements leave such strings out.) *)

Fixpoint all_chars (p : ascii -> bool) (s : string) : bool :=
  match s with
  | EmptyString => true
  | String c s' => p c && all_chars p s'
  end.

Definition is_lower_hex_digit (c : ascii) : bool :=
  let n := nat_of_ascii c in
  is_digit c || (Nat.leb 97 n && Nat.leb n 102).

Definition is_hex_digit (c : ascii) : bool :=
  let n := nat_of_ascii c in
  is_lower_hex_digit c || (Nat.leb 65 n && Nat.leb n 70).

(** The strings that Mongoose casts to an ObjectId. *)
Definition castable_id (s : string) : bool :=
  Nat.eqb (String.length s) 24 && all_chars is_hex_digit s.

(** An ObjectId as MongoDB prints it. *)
Definition is_object_id (s : string) : bool :=
  Nat.eqb (String.length s) 24 && all_chars is_lower_hex_digit s.

Definition lower_hex_digit (c : ascii) : ascii :=
  let n := nat_of_ascii c in
  if Nat.leb 65 n && Nat.leb n 70 then ascii_of_nat (n + 32) else c.

(** The string under which the ObjectId cast from [s] is printed. *)
Fixpoint printed_id (s : string) : string :=
  match s with
  | EmptyString => EmptyString
  | String c s' => String (lower_hex_digit c) (printed_id s')
  end.


(** *** DELETE /admin/tournaments/:id *)

Definition deleteTournament (G : QueryFaults) (role id : string)
  : World -> Response * World :=
  route "Tournament deletion error:" server_error
    (let* _ := return_if (negb (String.eqb role "admin"))
                 403 (Message "Admin access required") in
     let* _ := query_call G (TournamentFindByIdAndDelete id)
                 (if castable_id id
                  then let* d := get_db in
                       put_db (set_tournaments d
                                 (delete (printed_id id) (tournaments d)))
                  else throw DbFailure) in
     reply 200 (Message "Tournament deleted successfully")).

(** *** GET /user/registration/:tournamentId *)

Record RegistrationView := mkRegistrationView {
  rv_id : nat;
  rv_freeFireId : string;
  rv_teamSelection : jsval;
  rv_status : string;
  rv_entryFee : Z
}.

Definition registration_of (userId tournament : string) (r : Registration) : bool :=
  String.eqb (reg_userId r) userId && String.eqb (reg_tournamentId r) tournament.

Definition userRegistration (G : QueryFaults) (userId tournament : string)
  : World -> Answer RegistrationView * World :=
  answer "Error fetching user registration:" server_error
    (let* registration :=
       query_call G (RegistrationFindOne userId tournament)
         (let* d := get_db in
          ret (find (registration_of userId tournament) (registrations d))) in
     match registration with
     | None => reply 404 (Message "Registration not found")
     | Some r =>
         ret (mkRegistrationView (reg_id r) (reg_freeFireId r) (reg_teamSelection r)
                (reg_status r) (reg_entryFee r))
     end).

(** *** GET /profile *)

Definition profile (F : Faults) (userId : string) : World -> Answer User * World :=
  answer "Profile fetch error:" server_error
    (let* user := User_findById F userId in
     match user with
     | None => reply 404 (Message "User not found")
     | Some u => ret u
     end).

(** *** GET /tournaments and GET /my-tournaments *)

(** [status: { $in: ['upcoming', 'active'] }] *)
Definition is_open (s : Status) : bool :=
  match s with
  | upcoming | active => true
  | completed => false
  end.

(** [.sort({ startTime: 1 })] on documents, each with its [_id]. *)
Definition by_startTime : relation (string * Tournament) :=
  fun a b => startTime (snd a) <= startTime (snd b).

#[global] Instance by_startTime_dec : RelDecision by_startTime.
Proof. intros a b. unfold by_startTime. apply _. Defined.

(** [Tournament.find(query).sort({ startTime: 1 })]; MongoDB does not fix the
    order of documents with equal start times, the model fixes one. *)
Definition find_sorted (query : string * Tournament -> bool) (d : Db)
  : list (string * Tournament) :=
  merge_sort by_startTime (List.filter query (map_to_list (tournaments d))).

Definition listTournaments (G : QueryFaults)
  : World -> Answer (list (string * Tournament)) * World :=
  answer "Tournament fetch error:" server_error
    (query_call G TournamentFind
       (let* d := get_db in
        ret (take 20 (find_sorted (fun x => is_open (status (snd x))) d)))).

Definition myTournaments (G : QueryFaults) (userId : string)
  : World -> Answer (list (string * Tournament)) * World :=
  answer "My tournaments fetch error:" server_error
    (query_call G TournamentFind
       (let* d := get_db in
        ret (find_sorted
               (fun x => member userId (registeredUsers (snd x))
                         && is_open (status (snd x))) d))).


(** *** POST /create-payment-order and POST /verify-payment

    The keyed hash
    [crypto.createHmac('sha256', key).update(text).digest('hex')] and the
    payment gateway are not part of the program: the hash is a function the
    handlers are given, the gateway is the function that answers an order
    and the table of the payments it has captured.  The table gives the
    amount of a payment in rupees, a whole number like every amount in the
    state of the handlers; the gateway reports it in paisa, a hundred times
    that, and the handler divides by 100. *)

(** [s.split(sep)] for a separator of one character. *)
Fixpoint split_on (sep : ascii) (s : string) : list string :=
  match s with
  | EmptyString => [EmptyString]
  | String c s' =>
      if Ascii.eqb c sep then EmptyString :: split_on sep s'
      else match split_on sep s' with
           | [] => [String c EmptyString]
           | part :: parts => String c part :: parts
           end
  end.

(** [s.slice(-n)] *)
Definition slice_last (n : nat) (s : string) : string :=
  substring (String.length s - n) n s.

(** A variable of [process.env] used as a condition. *)
Definition configured (v : option string) : bool :=
  match v with
  | Some s => negb (String.eqb s "")
  | None => false
  end.

Record OrderOptions := mkOrderOptions {
  oo_amount : Z;
  oo_currency : string;
  oo_receipt : string;
  oo_payment_capture : Z
}.

Record Order := mkOrder {
  order_id : string;
  order_amount : Z;
  order_currency : string;
  order_receipt : string
}.

(** [`rcpt_${Date.now().toString().slice(-6)}_${userId.slice(-4)}`] *)
Definition new_receipt (now : Z) (userId : string) : string :=
  "rcpt_" ++ slice_last 6 (show_Z now) ++ "_" ++ slice_last 4 userId.

Record VerifyRequest := mkVerifyRequest {
  vp_userId : string;              (* req.user.userId *)
  razorpay_order_id : string;
  razorpay_payment_id : string;
  razorpay_signature : string;
  vp_receipt : jsval
}.

Record PaymentView := mkPaymentView {
  pv_amount : Z;
  pv_newBalance : Z
}.

Definition order_creation_error (e : Error) : Response :=
  mkResponse 500 (Message "Failed to create payment order").

Definition payment_error (e : Error) : Response :=
  mkResponse 500 (Message "Payment verification failed").

Section Payments.

Variable createHmac_sha256_hex : string -> string -> string.
Variable RAZORPAY_KEY_ID RAZORPAY_KEY_SECRET : option string.
Variable orders_create : OrderOptions -> option Order.
Variable payments : gmap string Z.
Variable F : Faults.
Variable G : QueryFaults.

Definition createPaymentOrder (now : Z) (userId : string) (amount : Z)
  : World -> Answer Order * World :=
  answer "Payment order creation error:" order_creation_error
    (let* _ := return_if ((amount =? 0) || (amount <? 10) || (amount >? 10000))
                 400 (Message "Invalid amount. Must be between ₹10 and ₹10,000") in
     let* _ := return_if (negb (configured RAZORPAY_KEY_ID)
                          || negb (configured RAZORPAY_KEY_SECRET))
                 500 (Message "Payment service not configured") in
     let options := mkOrderOptions (amount * 100) "INR" (new_receipt now userId) 1 in
     query_call G OrdersCreate
       (match orders_create options with
        | Some order => ret order
        | None => throw DbFailure
        end)).

(** [(await razorpay.payments.fetch(id)).amount], in paisa *)
Definition payments_fetch (paymentId : string) : M Z :=
  query_call G (PaymentsFetch paymentId)
    (match payments !! paymentId with
     | Some rupees => ret (100 * rupees)
     | None => throw DbFailure
     end).

Definition logDeposit (rq : VerifyRequest) (amount : Z) : M unit :=
  try_catch
    (let* _ := logTransaction F (vp_userId rq) "deposit" amount
                 "Wallet deposit via Razorpay"
                 (razorpay_payment_id rq) "payment_id"
                 (mkMetadata None (Some (razorpay_payment_id rq))
                    (Some (razorpay_order_id rq)) None) in
     ret tt)
    (fun transactionError =>
       console_error "Error logging deposit transaction:" transactionError).

Definition verifyPayment (rq : VerifyRequest) : World -> Answer PaymentView * World :=
  answer "Payment verification error:" payment_error
    (let sign := razorpay_order_id rq ++ "|" ++ razorpay_payment_id rq in
     let* expectedSign :=
       match RAZORPAY_KEY_SECRET with
       | Some key => ret (createHmac_sha256_hex key sign)
       | None => throw TypeError
       end in
     let* _ := return_if (negb (String.eqb (razorpay_signature rq) expectedSign))
                 400 (Message "Payment verification failed") in
     let* receiptParts :=
       match vp_receipt rq with
       | JStr receipt => ret (split_on "_" receipt)
       | _ => throw TypeError
       end in
     let* _ := return_if (negb (Nat.eqb (length receiptParts) 3))
                 400 (Message "Invalid receipt format") in
     let* paisa := payments_fetch (razorpay_payment_id rq) in
     let amount := paisa / 100 in
     let* user := User_findById F (vp_userId rq) in
     match user with
     | None => reply 404 (Message "User not found")
     | Some u =>
       let u' := with_balances u (depositAmount u + amount) (winningAmount u) in
       let* _ := User_save F (vp_userId rq) u' in
       let* _ := logDeposit rq amount in
       ret (mkPaymentView amount (depositAmount u' + winningAmount u'))
     end).

End Payments.

(** *** PUT /admin/tournaments/:tournamentId/room-details and
        GET /tournaments/:tournamentId/room

    The fields of a tournament document that only these handlers use are
    kept in a table of their own, under the [_id] of the tournament; a
    tournament without an entry has the defaults of the schema. *)

Record Prizes := mkPrizes {
  top5 : list Z;
  top10 : list Z;
  perKill : option Z
}.

Record Lobby := mkLobby {
  roomId : string;
  roomPassword : string;
  customUrl : string;
  roomNotes : string;
  prizes : Prizes
}.

Definition default_lobby : Lobby := mkLobby "" "" "" "" (mkPrizes [] [] None).

Definition lobby_of (L : gmap string Lobby) (id : string) : Lobby :=
  default default_lobby (L !! id).

Definition set_roomId (l : Lobby) (v : string) : Lobby :=
  mkLobby v (roomPassword l) (customUrl l) (roomNotes l) (prizes l).
Definition set_roomPassword (l : Lobby) (v : string) : Lobby :=
  mkLobby (roomId l) v (customUrl l) (roomNotes l) (prizes l).
Definition set_customUrl (l : Lobby) (v : string) : Lobby :=
  mkLobby (roomId l) (roomPassword l) v (roomNotes l) (prizes l).
Definition set_roomNotes (l : Lobby) (v : string) : Lobby :=
  mkLobby (roomId l) (roomPassword l) (customUrl l) v (prizes l).

(** The character class [.] of a regular expression, restricted to ASCII. *)
Definition is_line_terminator (c : ascii) : bool :=
  let n := nat_of_ascii c in Nat.eqb n 10 || Nat.eqb n 13.

Definition starts_with_any (s : string) : bool :=
  match s with
  | String c _ => negb (is_line_terminator c)
  | EmptyString => false
  end.

Fixpoint strip_prefix (p s : string) : option string :=
  match p, s with
  | EmptyString, _ => Some s
  | String a p', String b s' => if Ascii.eqb a b then strip_prefix p' s' else None
  | String _ _, EmptyString => None
  end.

(** [s.match(/^https?:\/\/.+/)] as a condition. *)
Definition url_like (s : string) : bool :=
  match strip_prefix "http://" s, strip_prefix "https://" s with
  | Some rest, _ | None, Some rest => starts_with_any rest
  | None, None => false
  end.

(** The cast of a value assigned to a path of type [String]. *)
Definition cast_string (v : jsval) : string :=
  match v with
  | JStr s => s
  | JNum n => show_Z n
  | JBool true => "true"
  | JBool false => "false"
  | JUndefined | JNull => ""
  end.

Record RoomDetailsRequest := mkRoomDetailsRequest {
  rd_roomId : jsval;
  rd_roomPassword : jsval;
  rd_customUrl : jsval;
  rd_roomNotes : jsval
}.

Record RoomDetails := mkRoomDetails {
  rdv_tournamentId : string;
  rdv_roomId : string;
  rdv_roomPassword : string;
  rdv_customUrl : string;
  rdv_roomNotes : string
}.

Record RoomView := mkRoomView {
  room_tournamentId : string;
  room_roomId : string;
  room_roomPassword : string;
  room_prizes : Prizes;
  room_status : Status;
  room_startTime : Z
}.

Definition validation_or_server_error (e : Error) : Response :=
  match e with
  | ValidationError => mkResponse 400 (Message "Validation error")
  | _ => mkResponse 500 (Message "Server error")
  end.

(** A field that has to be a string with something else in it than white
    space, when it is given. *)
Definition trimmed_field (v : jsval) (message : string) (set : string -> Lobby)
    (l : Lobby) : M Lobby :=
  match v with
  | JUndefined => ret l
  | JStr s =>
      if Nat.eqb (String.length (trim s)) 0
      then reply 400 (Message message)
      else ret (set (trim s))
  | _ => reply 400 (Message message)
  end.

(** [typeof v !== 'string' || !v.match(/^https?:\/\/.+/)] *)
Definition not_a_url (v : jsval) : bool :=
  match v with
  | JStr s => negb (url_like s)
  | _ => true
  end.

Definition customUrl_field (v : jsval) (l : Lobby) : M Lobby :=
  match v with
  | JUndefined => ret l
  | _ =>
      let* _ := return_if (truthy v && not_a_url v)
                  400 (Message "Custom URL must be a valid HTTP/HTTPS URL") in
      ret (set_customUrl l (if truthy v then cast_string v else ""))
  end.

Definition roomNotes_field (v : jsval) (l : Lobby) : M Lobby :=
  match v with
  | JUndefined => ret l
  | _ => ret (set_roomNotes l (if truthy v then cast_string v else ""))
  end.

(** [tournament.save()] of a document of which only room fields changed. *)
Definition Tournament_save_room (G : QueryFaults) (id : string) : M unit :=
  query_call G (TournamentSaveRoom id)
    (let* d := get_db in
     match tournaments d !! id with
     | Some _ => ret tt
     | None => throw DbFailure
     end).

Definition updateRoomDetails (F : Faults) (G : QueryFaults) (role id : string)
    (rq : RoomDetailsRequest) (L : gmap string Lobby) (w : World)
  : Answer RoomDetails * (World * gmap string Lobby) :=
  match
    answer "Error updating tournament room details:" validation_or_server_error
      (let* _ := return_if (negb (String.eqb role "admin"))
                   403 (Message "Admin access required") in
       let* tournament := Tournament_findById F id in
       match tournament with
       | None => reply 404 (Message "Tournament not found")
       | Some t =>
           let l := lobby_of L id in
           let* l := trimmed_field (rd_roomId rq)
                       "Room ID must be a non-empty string" (set_roomId l) l in
           let* l := trimmed_field (rd_roomPassword rq)
                       "Room password must be a non-empty string"
                       (set_roomPassword l) l in
           let* l := customUrl_field (rd_customUrl rq) l in
           let* l := roomNotes_field (rd_roomNotes rq) l in
           let* _ := Tournament_save_room G id in
           ret (t, l)
       end) w
  with
  | (Ok (t, l), w') =>
      (Ok (mkRoomDetails (tournamentId t) (roomId l) (roomPassword l) (customUrl l)
             (roomNotes l)),
       (w', <[id := l]> L))
  | (Refused r, w') => (Refused r, (w', L))
  end.

(** [['active', 'completed'].includes(status)] *)
Definition room_open (s : Status) : bool :=
  match s with
  | active | completed => true
  | upcoming => false
  end.

Definition roomAccess (F : Faults) (L : gmap string Lobby) (userId id : string)
  : World -> Answer RoomView * World :=
  answer "Error fetching room details:" server_error
    (let* tournament := Tournament_findById F id in
     match tournament with
     | None => reply 404 (Message "Tournament not found")
     | Some t =>
       let* _ := return_if (negb (member userId (registeredUsers t)))
                   403 (Message "You are not registered for this tournament") in
       let* _ := return_if (negb (room_open (status t)))
                   400 (Message "Room details are not available yet") in
       let l := lobby_of L id in
       ret (mkRoomView (tournamentId t) (roomId l) (roomPassword l) (prizes l)
              (status t) (startTime t))
     end).


(** ** Statements about the payment handlers *)

Fixpoint count_of (c : ascii) (s : string) : nat :=
  match s with
  | EmptyString => 0
  | String a s' => (if Ascii.eqb a c then 1 else 0) + count_of c s'
  end.

(** The signature of the request is the keyed hash of its order id and
    payment id. *)
Definition signed (hmac : string -> string -> string) (key : string)
    (rq : VerifyRequest) : Prop :=
  razorpay_signature rq
  = hmac key (razorpay_order_id rq ++ "|" ++ razorpay_payment_id rq).

(** The receipt is a string of three parts separated by underscores. *)
Definition receipt_ok (v : jsval) : bool :=
  match v with
  | JStr receipt => Nat.eqb (length (split_on "_" receipt)) 3
  | _ => false
  end.

Definition with_receipt (rq : VerifyRequest) (v : jsval) : VerifyRequest :=
  mkVerifyRequest (vp_userId rq) (razorpay_order_id rq) (razorpay_payment_id rq)
    (razorpay_signature rq) v.

(** The world after the credit of a verified payment has been saved. *)
Definition after_credit (w : World) (rq : VerifyRequest) (u : User) (amount : Z)
  : World :=
  mkWorld
    (set_users (db w)
       (<[vp_userId rq := with_balances u (depositAmount u + amount) (winningAmount u)]>
          (users (db w))))
    (nextId w) (console w).

Module PaymentScenario.
Import Scenario.

(** A stand-in for the keyed hash. *)
Definition tag (key text : string) : string := key ++ "/" ++ text.

Definition captured : gmap string Z := <["pay_1" := 50]> ∅.

(** Alice sends the verification of a payment of 50 rupees. *)
Definition alice_payment : VerifyRequest :=
  mkVerifyRequest alice_id "order_1" "pay_1" "secret/order_1|pay_1"
    (JStr "rcpt_123456_0001").

(** The gateway gives an order the number 7 and returns what it was sent. *)
Definition echo (o : OrderOptions) : option Order :=
  Some (mkOrder "order_7" (oo_amount o) (oo_currency o) (oo_receipt o)).

End PaymentScenario.


(** ** Statements about the room handlers *)

(** What the checks of one trimmed field come to: the message of the
    refusal, or the room fields with the value set when there is one. *)
Definition checked_trimmed (v : jsval) (message : string) (set : string -> Lobby)
    (l : Lobby) : string + Lobby :=
  match v with
  | JUndefined => inr l
  | JStr s => if Nat.eqb (String.length (trim s)) 0 then inl message else inr (set (trim s))
  | _ => inl message
  end.

Definition checked_customUrl (v : jsval) (l : Lobby) : string + Lobby :=
  match v with
  | JUndefined => inr l
  | _ =>
      if truthy v && not_a_url v
      then inl "Custom URL must be a valid HTTP/HTTPS URL"
      else inr (set_customUrl l (if truthy v then cast_string v else ""))
  end.

Definition checked_roomNotes (v : jsval) (l : Lobby) : Lobby :=
  match v with
  | JUndefined => l
  | _ => set_roomNotes l (if truthy v then cast_string v else "")
  end.

(** The four fields in the order of the handler. *)
Definition room_fields (rq : RoomDetailsRequest) (l : Lobby) : string + Lobby :=
  match checked_trimmed (rd_roomId rq) "Room ID must be a non-empty string"
          (set_roomId l) l with
  | inl message => inl message
  | inr l1 =>
    match checked_trimmed (rd_roomPassword rq) "Room password must be a non-empty string"
            (set_roomPassword l1) l1 with
    | inl message => inl message
    | inr l2 =>
      match checked_customUrl (rd_customUrl rq) l2 with
      | inl message => inl message
      | inr l3 => inr (checked_roomNotes (rd_roomNotes rq) l3)
      end
    end
  end.

Definition room_details (t : Tournament) (l : Lobby) : RoomDetails :=
  mkRoomDetails (tournamentId t) (roomId l) (roomPassword l) (customUrl l) (roomNotes l).

Module RoomScenario.
Import Scenario.

(** Saving a tournament fails. *)
Definition tournament_save_faults : Faults :=
  fun op => match op with TournamentSave _ => true | _ => false end.

(** The finals are being played; Alice is in. *)
Definition live_id : string := "64c8a000000000000000000a".

Definition live : Tournament :=
  mkTournament "FF-LIVE-1" "bermuda" lone_wolf (Some ts_1vs1) 40 2 1 0 active
    [alice_id].

Definition live_world : World :=
  mkWorld (mkDb some_users (<[live_id := live]> ∅) [] []) 0 [].

Definition room_request : RoomDetailsRequest :=
  mkRoomDetailsRequest (JStr " 4711 ") (JStr "pw ") JUndefined JUndefined.

End RoomScenario.


(** * Balances as JavaScript numbers

    The handlers above hold amounts as integers.  In the source an amount is
    a JavaScript number, a double: sums and differences are rounded, and a
    comparison with NaN is false.  This part gives the arithmetic that the
    three balance-changing handlers do on the two balances of a user
    document, on doubles, statement by statement.  A double is a primitive
    float of the kernel; [x <=? y] is [x <= y] and [y >= x], [x <? y] is
    [x < y] and [y > x].  Mongoose does not store NaN: where a balance
    would come out as NaN the save fails, and no statement below is about
    such a case. *)

Module Number.

(** [x >= 0] *)
Definition nonneg (x : float) : bool := (0 <=? x)%float.

(** The same on the specification of a double: zero, a positive finite
    number or plus infinity. *)
Definition SF_nonneg (x : spec_float) : Prop :=
  match x with
  | S754_zero _ => True
  | S754_infinity s | S754_finite s _ _ => s = false
  | S754_nan => False
  end.


Definition SF_finite (x : spec_float) : Prop :=
  match x with
  | S754_zero _ | S754_finite _ _ _ => True
  | _ => False
  end.

End Number.
Import Number.

(** [user.depositAmount] and [user.winningAmount] *)
Record Balances := mkBalances {
  deposit : float;
  winning : float
}.

(** What lines 996-1032 of the registration handler do with the loaded user
    document: return one of two replies, or take the fee and save. *)
Inductive Deduction :=
| InsufficientFunds (required available : float)
    (* 400 Insufficient balance *)
| CalculationError
    (* 400 Balance calculation error *)
| Deducted (deductedFromDeposit deductedFromWinning : float) (saved : Balances).
    (* await user.save() *)

Definition deductEntryFee (entryFee : float) (user : Balances) : Deduction :=
  let totalBalance := (deposit user + winning user)%float in
  if (totalBalance <? entryFee)%float then InsufficientFunds entryFee totalBalance
  else
    let remainingFee := entryFee in
    let '(deductedFromDeposit, depositAmount, remainingFee) :=
      if (remainingFee <=? deposit user)%float
      then (remainingFee, (deposit user - remainingFee)%float, 0%float)
      else (deposit user, 0%float, (remainingFee - deposit user)%float) in
    if (0 <? remainingFee)%float
    then
      if (remainingFee <=? winning user)%float
      then Deducted deductedFromDeposit remainingFee
             (mkBalances depositAmount (winning user - remainingFee)%float)
      else CalculationError
    else Deducted deductedFromDeposit 0%float (mkBalances depositAmount (winning user)).

(** The balances that are stored when the handler has passed line 1032 or
    has returned before it. *)
Definition balances_after_deduction (entryFee : float) (user : Balances) : Balances :=
  match deductEntryFee entryFee user with
  | Deducted _ _ saved => saved
  | _ => user
  end.

(** Line 1519 of the award handler: [user.winningAmount += amount]. *)
Definition creditWinnings (amount : float) (user : Balances) : Balances :=
  mkBalances (deposit user) (winning user + amount)%float.

(** Lines 1430-1450 of the manual transaction; [None] is the
    insufficient-balance reply. *)
Definition adminBalances (type : string) (amount : float) (user : Balances)
  : option Balances :=
  if String.eqb type "deposit"
  then Some (mkBalances (deposit user + amount)%float (winning user))
  else if String.eqb type "winning"
  then Some (mkBalances (deposit user) (winning user + amount)%float)
  else if is_debit type
  then
    let totalBalance := (deposit user + winning user)%float in
    if (totalBalance <? PrimFloat.abs amount)%float then None
    else
      let remainingAmount := PrimFloat.abs amount in
      if (remainingAmount <=? deposit user)%float
      then Some (mkBalances (deposit user - remainingAmount)%float (winning user))
      else Some (mkBalances 0%float
                   (winning user - (remainingAmount - deposit user))%float)
  else Some user.

Definition nonneg_pair (user : Balances) : Prop :=
  nonneg (deposit user) = true /\ nonneg (winning user) = true.

Definition finite_pair (user : Balances) : Prop :=
  is_finite (deposit user) = true /\ is_finite (winning user) = true.

Module Decimals.

(** The numbers that JavaScript reads from [10.1], [20.1], [0.07], [0.6]. *)
Definition ten_point_one : float := (101 / 10)%float.
Definition twenty_point_one : float := (201 / 10)%float.

End Decimals.

(** ** Whole numbers as doubles *)

(** The double of an integer: exact below 2^53 in magnitude. *)
Definition whole (z : Z) : float :=
  if z <? 0 then (- of_uint63 (Uint63.of_Z (- z)))%float
  else of_uint63 (Uint63.of_Z z).

(** The canonical representation of [p] < 2^53 with sign [s]: a mantissa of
    53 binary digits. *)
Definition canon (s : bool) (p : positive) : spec_float :=
  let e := Z.pos (Pos.size p) - 53 in
  S754_finite s (fst (shl_align p 0 e)) e.

Definition SFwhole (z : Z) : spec_float :=
  match z with
  | 0 => S754_zero false
  | Z.pos p => canon false p
  | Z.neg p => canon true p
  end.

(** The balances of a user of the handlers' state, as doubles. *)
Definition balances_of (u : User) : Balances :=
  mkBalances (whole (depositAmount u)) (whole (winningAmount u)).

(** The outcome of the integer deduction, as doubles. *)
Definition deduction_of (f : Z) (r : SplitResult) : Deduction :=
  match r with
  | SplitInsufficient totalBalance => InsufficientFunds (whole f) (whole totalBalance)
  | SplitError => CalculationError
  | SplitOk s =>
      Deducted (whole (deductedFromDeposit s)) (whole (deductedFromWinning s))
        (mkBalances (whole (newDeposit s)) (whole (newWinning s)))
  end.


Module MalformedScenario.
Import Scenario AwardScenario.


End MalformedScenario.

Module ListingScenario.

(** Tournament number [n] of a season: the later its number, the earlier it
    starts; every seventh one is over, the others are open. *)
Definition season_id (n : nat) : string :=
  "64c8a0000000000000000" ++ show_Z (100 + Z.of_nat n).

Definition season_tournament (n : nat) : Tournament :=
  mkTournament ("FF-S-" ++ show_Z (Z.of_nat n)) "bermuda" lone_wolf (Some ts_1vs1)
    40 2 0 (1000 - Z.of_nat n)
    (if Nat.eqb (n mod 7) 0 then completed
     else if Nat.even n then active else upcoming)
    [].

Definition season (count : nat) : gmap string Tournament :=
  list_to_map (map (fun n => (season_id n, season_tournament n)) (seq 0 count)).

(** A season of 30 tournaments, 25 of them open. *)
Definition season_world : World :=
  mkWorld (mkDb ∅ (season 30) [] []) 0 [].

End ListingScenario.


(** * Properties *)

Ltac unmonad :=
  repeat (progress unfold bind, ret, reply, throw, return_if, db_call, get_db,
            put_db, try_catch, console_log, console_error, fresh_id, js_trim in * ).

Ltac split_andb :=
  repeat match goal with
         | H : _ && _ = true |- _ => apply andb_prop in H; destruct H
         | H : negb _ = true |- _ => apply negb_true_iff in H
         | H : negb _ = false |- _ => apply negb_false_iff in H
         end.

(** ** The monad and the split of a handler at its first write *)

Lemma bind_resume {A} (m : M A) (k : A -> M Response) (w : World) :
  bind m k w = let '(o, w1) := m w in resume o k w1.
Proof. unfold bind, resume. destruct (m w) as [[a | r | e] w1]; reflexivity. Qed.

Lemma bind_val {A B} (m : M A) (k : A -> M B) w a w' :
  m w = (Val a, w') -> bind m k w = k a w'.
Proof. unfold bind. intros ->. reflexivity. Qed.

Lemma bind_throw {A B} (m : M A) (k : A -> M B) w e w' :
  m w = (Throw e, w') -> bind m k w = (Throw e, w').
Proof. unfold bind. intros ->. reflexivity. Qed.

Lemma register_split F rq w :
  register F rq w =
    let '(o, w1) := register_read F rq w in
    route "Tournament registration error:" register_on_error
      (resume o (register_write F rq)) w1.
Proof.
  unfold register, route. rewrite bind_resume.
  destruct (register_read F rq w) as [o w1]. reflexivity.
Qed.

(** ** Deduction arithmetic *)

Lemma computeSplit_ok d w f :
  f <= d + w ->
  computeSplit d w f =
    SplitOk (mkSplit (Z.min d f) (f - Z.min d f) (d - Z.min d f)
               (w - (f - Z.min d f))).
Proof.
  intros H. unfold computeSplit.
  destruct (Z.ltb_spec (d + w) f); [lia|].
  destruct (Z.leb_spec f d).
  - rewrite Z.min_r by lia. simpl. do 2 f_equal; lia.
  - rewrite Z.min_l by lia.
    destruct (Z.ltb_spec 0 (f - d)); [|lia].
    destruct (Z.leb_spec (f - d) w); [|lia].
    do 2 f_equal; lia.
Qed.

Lemma computeSplit_insufficient d w f :
  d + w < f -> computeSplit d w f = SplitInsufficient (d + w).
Proof.
  intros H. unfold computeSplit. destruct (Z.ltb_spec (d + w) f); [reflexivity|lia].
Qed.

Lemma computeSplit_ok_inv d w f s :
  computeSplit d w f = SplitOk s ->
  f <= d + w
  /\ s = mkSplit (Z.min d f) (f - Z.min d f) (d - Z.min d f) (w - (f - Z.min d f)).
Proof.
  intros H. destruct (Z.lt_ge_cases (d + w) f) as [Hlt | Hge].
  - rewrite computeSplit_insufficient in H by assumption. discriminate.
  - split; [assumption|]. rewrite computeSplit_ok in H by assumption. congruence.
Qed.

(** ** The read phase of a registration *)

Lemma register_read_pure F rq w : snd (register_read F rq w) = w.
Proof.
  unfold register_read, Tournament_findById, User_findById. unmonad.
  repeat (case_match; simpl in *; try congruence; simplify_eq; try reflexivity).
Qed.

Lemma valid_input_freeFireId t rq :
  valid_input t rq = true ->
  exists s, rq_freeFireId rq = JStr s /\ digits_only (trim s) = true
            /\ freeFireId_of rq = trim s.
Proof.
  unfold valid_input, freeFireId_of. intros H. split_andb.
  destruct (rq_freeFireId rq); try discriminate. eauto.
Qed.

Lemma digits_only_nonempty s : digits_only s = true -> String.eqb s "" = false.
Proof. unfold digits_only. intros H. split_andb. assumption. Qed.

Lemma trim_nonempty_truthy s : String.eqb (trim s) "" = false -> truthy (JStr s) = true.
Proof. destruct s; [discriminate|reflexivity]. Qed.

Lemma is_team_truthy v : is_team v = true -> truthy v = true.
Proof.
  destruct v as [| | |n|s]; try discriminate. destruct s; [discriminate|reflexivity].
Qed.

Lemma register_read_accepts F w rq t u :
  accepts F w rq t u ->
  register_read F rq w =
    (match computeSplit (depositAmount u) (winningAmount u) (entryFee t) with
     | SplitInsufficient totalBalance =>
         Reply (mkResponse 400 (InsufficientBalance (entryFee t) totalBalance))
     | SplitError => Reply (mkResponse 400 (Message "Balance calculation error"))
     | SplitOk s => Val (mkAdmission t u s (freeFireId_of rq))
     end, w).
Proof.
  intros (HF1 & HF2 & Ht & Hu & Hg).
  unfold guards_pass in Hg. split_andb.
  destruct (valid_input_freeFireId _ _ ltac:(eassumption)) as (s & Hs & Hd & Hffid).
  pose proof (digits_only_nonempty _ Hd) as Hne.
  pose proof (trim_nonempty_truthy _ Hne) as Htr.
  match goal with Hv : valid_input _ _ = true |- _ => unfold valid_input in Hv end.
  split_andb.
  unfold register_read, Tournament_findById, User_findById. unmonad.
  rewrite HF1, Ht. simpl.
  match goal with Hup : is_upcoming _ = true |- _ => rewrite Hup end. simpl.
  match goal with Hlt : (_ <? _) = true |- _ =>
    apply Z.ltb_lt in Hlt;
    destruct (Z.leb_spec (maxSlots t) (registeredPlayers t)); [lia|] end. simpl.
  match goal with Hm : member _ _ = false |- _ => rewrite Hm end. simpl.
  rewrite Hs, Htr. simpl. rewrite Hne. simpl.
  match goal with Hta : truthy (rq_termsAccepted rq) = true |- _ => rewrite Hta end.
  simpl. rewrite Hd. simpl.
  assert (Hteam : requiresTeamSelection t
                  && (negb (truthy (rq_teamSelection rq))
                      || negb (is_team (rq_teamSelection rq))) = false).
  { destruct (requiresTeamSelection t); [|reflexivity]. simpl in *.
    match goal with Hi : is_team _ = true |- _ =>
      rewrite Hi, (is_team_truthy _ Hi) end. reflexivity. }
  rewrite Hteam. simpl. rewrite HF2, Hu. simpl. rewrite Hffid.
  destruct (computeSplit _ _ _); reflexivity.
Qed.

Lemma register_read_reply F rq w r w' :
  register_read F rq w = (Reply r, w') -> statusCode r <> 200.
Proof.
  unfold register_read, Tournament_findById, User_findById. unmonad.
  intros H.
  repeat (case_match; simpl in *; try congruence; simplify_eq; try discriminate).
Qed.

Lemma register_read_val F rq w a w' :
  register_read F rq w = (Val a, w') ->
  w' = w
  /\ accepts F w rq (adm_tournament a) (adm_user a)
  /\ computeSplit (depositAmount (adm_user a)) (winningAmount (adm_user a))
       (entryFee (adm_tournament a)) = SplitOk (adm_split a)
  /\ adm_freeFireId a = freeFireId_of rq.
Proof.
  intros H.
  pose proof (register_read_pure F rq w) as Hp. rewrite H in Hp. simpl in Hp.
  split; [assumption|]. subst w'.
  revert H. unfold register_read, Tournament_findById, User_findById. unmonad.
  intros H.
  repeat (case_match; simpl in *; try congruence; simplify_eq; try discriminate).
  unfold accepts, guards_pass, valid_input, freeFireId_of. simpl.
  repeat match goal with
         | H : negb _ = false |- _ => apply negb_false_iff in H
         | H : _ && _ = false |- _ => apply andb_false_iff in H
         | H : _ || _ = false |- _ => apply orb_false_iff in H; destruct H
         end.
  assert (Hlt : (registeredPlayers t <? maxSlots t) = true).
  { match goal with H : (_ <=? _) = false |- _ => apply Z.leb_gt in H end.
    apply Z.ltb_lt. assumption. }
  assert (Hteam : negb (requiresTeamSelection t) || is_team (rq_teamSelection rq) = true).
  { match goal with Hor : _ \/ _ |- _ => destruct Hor as [Hreq | Hsel] end.
    - rewrite Hreq. reflexivity.
    - repeat match goal with
         | H : _ || _ = false |- _ => apply orb_false_iff in H; destruct H
         | H : negb _ = false |- _ => apply negb_false_iff in H
         end.
      match goal with H : is_team _ = true |- _ => rewrite H end.
      apply orb_true_r. }
  rewrite Hlt, Hteam.
  repeat match goal with
         | H : is_upcoming _ = _ |- _ => rewrite H
         | H : member _ _ = _ |- _ => rewrite H
         | H : rq_freeFireId _ = _ |- _ => rewrite H
         | H : truthy (rq_termsAccepted _) = _ |- _ => rewrite H
         | H : digits_only _ = _ |- _ => rewrite H
         end.
  simpl.
  repeat split; try reflexivity; try assumption.
Qed.

(** ** The ledger *)

Lemma find_none_existsb {A} (p : A -> bool) (l : list A) :
  find p l = None -> existsb p l = false.
Proof.
  induction l as [|x l IH]; simpl; [reflexivity|].
  destruct (p x); [discriminate|]. exact IH.
Qed.

(** [logTransaction], case by case. *)
Lemma logTransaction_eq F userId type amount description reference referenceType
    metadata w :
  logTransaction F userId type amount description reference referenceType metadata w =
    if F (TransactionFindOne userId reference referenceType)
    then (Throw DbFailure,
          mkWorld (db w) (nextId w)
            (console w ++ [LogError "Error logging transaction:" DbFailure]))
    else
      match find (tx_has_key userId reference referenceType) (transactions (db w)) with
      | Some t =>
          (Val t,
           mkWorld (db w) (nextId w)
             (console w ++ [LogInfo ("Transaction already exists: " ++ reference)]))
      | None =>
          let transaction :=
            mkTransaction (nextId w) userId type amount description reference
              referenceType metadata "completed" in
          if F (TransactionSave userId reference referenceType)
          then (Throw DbFailure,
                mkWorld (db w) (S (nextId w))
                  (console w ++ [LogError "Error logging transaction:" DbFailure]))
          else if validate_transaction transaction
          then (Val transaction,
                mkWorld (set_transactions (db w) (transactions (db w) ++ [transaction]))
                  (S (nextId w))
                  (console w ++ [LogInfo ("Transaction logged: " ++ type ++ " - "
                                          ++ show_Z amount ++ " - " ++ reference)]))
          else (Throw ValidationError,
                mkWorld (db w) (S (nextId w))
                  (console w ++ [LogError "Error logging transaction:" ValidationError]))
      end.
Proof.
  unfold logTransaction, Transaction_findOne, Transaction_save. unmonad. simpl.
  destruct (F (TransactionFindOne userId reference referenceType)); [reflexivity|].
  simpl.
  destruct (find _ _) eqn:Hfind; [reflexivity|]. simpl.
  destruct (F (TransactionSave userId reference referenceType)); [reflexivity|].
  destruct (validate_transaction _); simpl; [|reflexivity].
  rewrite (find_none_existsb _ _ Hfind). reflexivity.
Qed.

(** The ledger block of a registration never fails the call and touches
    neither users, tournaments nor registrations. *)
Lemma logEntryFee_frame F rq t w :
  exists w',
    logEntryFee F rq t w = (Val tt, w')
    /\ users (db w') = users (db w)
    /\ tournaments (db w') = tournaments (db w)
    /\ registrations (db w') = registrations (db w).
Proof.
  unfold logEntryFee, try_catch, bind. rewrite logTransaction_eq.
  destruct (F (TransactionFindOne _ _ _)); simpl;
    [eexists; repeat split; reflexivity|].
  destruct (find _ _); simpl; [eexists; repeat split; reflexivity|].
  destruct (F (TransactionSave _ _ _)); simpl;
    [eexists; repeat split; reflexivity|].
  destruct (validate_transaction _); simpl; eexists; repeat split; reflexivity.
Qed.

(** ** The write phase of a registration *)

Lemma registration_save_error_registrations F d d' r :
  registrations d = registrations d' ->
  registration_save_error F d r = registration_save_error F d' r.
Proof. unfold registration_save_error. intros ->. reflexivity. Qed.

(** The outcome of [registration.save()] does not depend on the [_id]. *)
Lemma registration_save_error_id F d rq t u ffid rid rid' :
  registration_save_error F d (new_registration rid rq t u ffid) =
  registration_save_error F d (new_registration rid' rq t u ffid).
Proof. reflexivity. Qed.

Lemma Registration_save_eq F r w :
  Registration_save F r w =
    match registration_save_error F (db w) r with
    | Some e => (Throw e, w)
    | None =>
        (Val tt,
         mkWorld (set_registrations (db w) (registrations (db w) ++ [r]))
           (nextId w) (console w))
    end.
Proof.
  unfold Registration_save, registration_save_error. unmonad.
  destruct (F _); [reflexivity|].
  destruct (validate_registration r); simpl; [|reflexivity].
  destruct (existsb _ _); reflexivity.
Qed.

Lemma register_write_eq F rq a w u0 :
  F (UserSave (rq_userId rq)) = false ->
  users (db w) !! rq_userId rq = Some u0 ->
  tournaments (db w) !! rq_id rq = Some (adm_tournament a) ->
  let t := adm_tournament a in
  let s := adm_split a in
  let u' := with_balances (adm_user a) (newDeposit s) (newWinning s) in
  let w1 := mkWorld (set_users (db w) (<[rq_userId rq := u']> (users (db w))))
              (nextId w) (console w) in
  exists w2,
    logEntryFee F rq t w1 = (Val tt, w2)
    /\ users (db w2) = <[rq_userId rq := u']> (users (db w))
    /\ tournaments (db w2) = tournaments (db w)
    /\ registrations (db w2) = registrations (db w)
    /\ let rid := nextId w2 in
       let r := new_registration rid rq t (adm_user a) (adm_freeFireId a) in
       match registration_save_error F (db w) r with
       | Some e =>
           register_write F rq a w = (Throw e, mkWorld (db w2) (S rid) (console w2))
       | None =>
           let d3 := set_registrations (db w2) (registrations (db w) ++ [r]) in
           if F (TournamentSave (rq_id rq))
           then register_write F rq a w
                = (Throw DbFailure, mkWorld d3 (S rid) (console w2))
           else register_write F rq a w
                = (Reply (mkResponse 200
                            (Registered (deductedFromDeposit s) (deductedFromWinning s)
                               (newDeposit s + newWinning s) rid
                               (if requiresTeamSelection t
                                then rq_teamSelection rq else JNull))),
                   mkWorld
                     (set_tournaments d3
                        (<[rq_id rq := tournament_after_registration t (rq_userId rq)]>
                           (tournaments (db w))))
                     (S rid) (console w2))
       end.
Proof.
  intros HF Hu Ht t s u' w1.
  destruct (logEntryFee_frame F rq t w1) as (w2 & Hlog & Hus & Hts & Hrs).
  exists w2. simpl in Hus, Hts, Hrs.
  split; [exact Hlog|]. split; [exact Hus|]. split; [exact Hts|].
  split; [exact Hrs|].
  intros rid r.
  assert (Hstep : forall k : unit -> M Response,
             bind (User_save F (rq_userId rq) u')
               (fun _ => bind (logEntryFee F rq t) k) w = k tt w2).
  { intros k. unfold bind at 1, User_save, db_call. rewrite HF. unmonad.
    rewrite Hu. fold w1. simpl.
    change (logEntryFee F rq t
             {| db := set_users (db w) (<[rq_userId rq:=u']> (users (db w)));
                nextId := nextId w; console := console w |})
      with (logEntryFee F rq t w1).
    rewrite Hlog. reflexivity. }
  unfold register_write. fold t s u'. rewrite Hstep.
  rewrite (bind_val _ _ _ _ _ (eq_refl : fresh_id w2 = (Val rid, _))).
  pose proof (Registration_save_eq F r (mkWorld (db w2) (S rid) (console w2))) as Hsave.
  simpl in Hsave.
  rewrite (registration_save_error_registrations F _ (db w) r Hrs) in Hsave.
  fold r. destruct (registration_save_error F (db w) r) as [e|].
  { rewrite (bind_throw _ _ _ _ _ Hsave). reflexivity. }
  rewrite (bind_val _ _ _ _ _ Hsave). rewrite Hrs.
  unfold Tournament_save, db_call.
  destruct (F (TournamentSave (rq_id rq))).
  { reflexivity. }
  unmonad. simpl. rewrite Hts, Ht. reflexivity.
Qed.

(** ** A whole registration call *)

Lemma register_on_error_code e : statusCode (register_on_error e) <> 200.
Proof. unfold register_on_error. destruct (code_11000 e); simpl; lia. Qed.

Lemma register_user_save_fault F w rq t u s :
  accepts F w rq t u ->
  computeSplit (depositAmount u) (winningAmount u) (entryFee t) = SplitOk s ->
  F (UserSave (rq_userId rq)) = true ->
  register F rq w =
    (mkResponse 500 (Message "Server error"),
     mkWorld (db w) (nextId w)
       (console w ++ [LogError "Tournament registration error:" DbFailure])).
Proof.
  intros Hadm Hsplit HF.
  rewrite register_split, (register_read_accepts _ _ _ _ _ Hadm), Hsplit.
  unfold route, resume, register_write. simpl.
  unfold bind at 1, User_save, db_call. rewrite HF. reflexivity.
Qed.

(** A call admitted by the read phase, whose [user.save()] answers. *)
Lemma register_accepted F w rq t u s :
  accepts F w rq t u ->
  computeSplit (depositAmount u) (winningAmount u) (entryFee t) = SplitOk s ->
  F (UserSave (rq_userId rq)) = false ->
  let u' := with_balances u (newDeposit s) (newWinning s) in
  let w1 := mkWorld (set_users (db w) (<[rq_userId rq := u']> (users (db w))))
              (nextId w) (console w) in
  exists w2,
    logEntryFee F rq t w1 = (Val tt, w2)
    /\ users (db w2) = <[rq_userId rq := u']> (users (db w))
    /\ tournaments (db w2) = tournaments (db w)
    /\ registrations (db w2) = registrations (db w)
    /\ let rid := nextId w2 in
       let r := new_registration rid rq t u (freeFireId_of rq) in
       match registration_save_error F (db w) r with
       | Some e =>
           register F rq w =
             (register_on_error e,
              mkWorld (db w2) (S rid)
                (console w2 ++ [LogError "Tournament registration error:" e]))
       | None =>
           let d3 := set_registrations (db w2) (registrations (db w) ++ [r]) in
           if F (TournamentSave (rq_id rq))
           then register F rq w =
                  (mkResponse 500 (Message "Server error"),
                   mkWorld d3 (S rid)
                     (console w2
                      ++ [LogError "Tournament registration error:" DbFailure]))
           else register F rq w =
                  (mkResponse 200
                     (Registered (deductedFromDeposit s) (deductedFromWinning s)
                        (newDeposit s + newWinning s) rid
                        (if requiresTeamSelection t
                         then rq_teamSelection rq else JNull)),
                   mkWorld
                     (set_tournaments d3
                        (<[rq_id rq := tournament_after_registration t (rq_userId rq)]>
                           (tournaments (db w))))
                     (S rid) (console w2))
       end.
Proof.
  intros Hadm Hsplit HF u' w1.
  pose proof Hadm as (_ & _ & Ht & Hu & _).
  destruct (register_write_eq F rq (mkAdmission t u s (freeFireId_of rq)) w u HF Hu Ht)
    as (w2 & Hlog & Hus & Hts & Hrs & Hw).
  simpl in *. exists w2. repeat (split; [assumption|]).
  rewrite register_split, (register_read_accepts _ _ _ _ _ Hadm), Hsplit.
  unfold route, resume.
  destruct (registration_save_error F (db w) _) as [e|].
  - rewrite Hw. reflexivity.
  - destruct (F (TournamentSave (rq_id rq))); rewrite Hw; reflexivity.
Qed.

(** What is known of a call that replied 200. *)
Lemma register_success_inv F rq w r w' :
  register F rq w = (r, w') ->
  statusCode r = 200 ->
  exists t u s rid,
    accepts F w rq t u
    /\ computeSplit (depositAmount u) (winningAmount u) (entryFee t) = SplitOk s
    /\ r = mkResponse 200
             (Registered (deductedFromDeposit s) (deductedFromWinning s)
                (newDeposit s + newWinning s) rid
                (if requiresTeamSelection t then rq_teamSelection rq else JNull))
    /\ users (db w')
       = <[rq_userId rq := with_balances u (newDeposit s) (newWinning s)]> (users (db w))
    /\ tournaments (db w')
       = <[rq_id rq := tournament_after_registration t (rq_userId rq)]>
           (tournaments (db w))
    /\ registrations (db w')
       = (registrations (db w)
          ++ [new_registration rid rq t u (freeFireId_of rq)])%list.
Proof.
  intros Hreg Hcode.
  pose proof (register_split F rq w) as Hsplit. rewrite Hreg in Hsplit.
  destruct (register_read F rq w) as [[a | r0 | e] w1] eqn:Hread.
  - apply register_read_val in Hread as (-> & Hadm & Hs & Hffid).
    destruct a as [t u s ffid]. simpl in *. subst ffid.
    destruct (F (UserSave (rq_userId rq))) eqn:HF.
    + rewrite (register_user_save_fault _ _ _ _ _ _ Hadm Hs HF) in Hreg.
      inversion Hreg; subst. discriminate.
    + destruct (register_accepted _ _ _ _ _ _ Hadm Hs HF)
        as (w2 & Hlog & Hus & Hts & Hrs & Hw).
      simpl in Hw. exists t, u, s, (nextId w2).
      destruct (registration_save_error _ _ _) as [e|].
      * rewrite Hw in Hreg. inversion Hreg; subst.
        exfalso. exact (register_on_error_code e Hcode).
      * destruct (F (TournamentSave (rq_id rq))).
        -- rewrite Hw in Hreg. inversion Hreg; subst. discriminate.
        -- rewrite Hw in Hreg. inversion Hreg; subst.
           split; [exact Hadm|]. split; [exact Hs|]. split; [reflexivity|].
           simpl. rewrite Hus. repeat split; reflexivity.
  - unfold route, resume in Hsplit. inversion Hsplit; subst.
    exfalso. exact (register_read_reply _ _ _ _ _ Hread Hcode).
  - unfold route, resume in Hsplit. inversion Hsplit; subst.
    exfalso. exact (register_on_error_code e Hcode).
Qed.

(** A call that does not reply 200 after a failed read phase changes nothing. *)
Lemma register_read_rejects F rq w :
  (forall a w1, register_read F rq w <> (Val a, w1)) ->
  statusCode (fst (register F rq w)) <> 200 /\ db (snd (register F rq w)) = db w.
Proof.
  intros Hno. rewrite register_split.
  pose proof (register_read_pure F rq w) as Hp.
  destruct (register_read F rq w) as [[a | r0 | e] w1] eqn:Hread; simpl in Hp; subst w1.
  - exfalso. exact (Hno _ _ eq_refl).
  - unfold route, resume. simpl. split; [|reflexivity].
    exact (register_read_reply _ _ _ _ _ Hread).
  - unfold route, resume. simpl. split; [|reflexivity].
    apply register_on_error_code.
Qed.


(** ** Facts about doubles

    The kernel's floats come with the specification of their operations on
    [spec_float]; the facts below are proved there and carried over. *)

(** *** Signs of rounded sums and differences *)


Lemma SF_nonneg_spec x : SFleb (S754_zero false) x = true <-> SF_nonneg x.
Proof.
  destruct x as [s | s | | s m e]; cbn;
    try destruct s; cbn; split; intros H;
    try discriminate; try contradiction; try reflexivity; try exact I.
Qed.

Lemma shr_1_nonneg mrs : 0 <= shr_m mrs -> 0 <= shr_m (shr_1 mrs).
Proof.
  destruct mrs as [m r s]. simpl. intros H.
  destruct m as [|p|p]; [simpl; lia | | lia].
  destruct p; simpl; lia.
Qed.

Lemma iter_pos_shr_1_nonneg n mrs :
  0 <= shr_m mrs -> 0 <= shr_m (SpecFloat.iter_pos shr_1 n mrs).
Proof.
  revert mrs. induction n as [n IH | n IH |]; intros mrs H; simpl.
  - apply IH, IH, shr_1_nonneg, H.
  - apply IH, IH, H.
  - apply shr_1_nonneg, H.
Qed.

Lemma shr_fexp_nonneg m e l :
  0 <= m -> 0 <= shr_m (fst (shr_fexp prec emax m e l)).
Proof.
  intros H. unfold shr_fexp, shr.
  assert (H0 : 0 <= shr_m (shr_record_of_loc m l)).
  { destruct l as [|[ | | ]]; exact H. }
  destruct (fexp prec emax (Zdigits2 m + e) - e); simpl;
    [exact H0 | apply iter_pos_shr_1_nonneg, H0 | exact H0].
Qed.

Lemma round_nearest_even_nonneg m l : 0 <= m -> 0 <= round_nearest_even m l.
Proof.
  intros H. destruct l as [|[ | | ]]; simpl; try lia.
  destruct (Z.even m); lia.
Qed.

Lemma binary_round_aux_nonneg m e l :
  0 <= m -> SF_nonneg (binary_round_aux prec emax false m e l).
Proof.
  intros H. unfold binary_round_aux.
  pose proof (shr_fexp_nonneg m e l H) as H1.
  destruct (shr_fexp prec emax m e l) as [mrs' e'].
  pose proof (shr_fexp_nonneg
                (round_nearest_even (shr_m mrs') (loc_of_shr_record mrs')) e' loc_Exact
                (round_nearest_even_nonneg _ _ H1)) as H2.
  destruct (shr_fexp prec emax _ e' loc_Exact) as [mrs'' e''].
  simpl in H2. destruct (shr_m mrs'') as [|p|p]; [exact I | | lia].
  destruct (e'' <=? emax - prec); reflexivity.
Qed.

Lemma binary_normalize_nonneg m e : 0 <= m -> SF_nonneg (binary_normalize prec emax m e false).
Proof.
  intros H. destruct m as [|p|p]; [exact I | | lia].
  unfold binary_normalize, binary_round.
  destruct (shl_align p e _) as [mz ez]. apply binary_round_aux_nonneg. lia.
Qed.

(** The sum of two numbers that are not negative is not negative. *)
Lemma SFadd_nonneg x y : SF_nonneg x -> SF_nonneg y -> SF_nonneg (SF64add x y).
Proof.
  destruct x as [sx | sx | | sx mx ex], y as [sy | sy | | sy my ey]; simpl;
    try contradiction; try (intros; subst; simpl; auto; fail).
  - intros _ _. destruct sx, sy; exact I.
  - intros -> ->. apply binary_normalize_nonneg. simpl. lia.
Qed.

Lemma digits2_pos_size m : digits2_pos m = Pos.size m.
Proof. induction m; simpl; congruence. Qed.

Lemma shl_align_value m e ez :
  ez <= e -> Z.pos (fst (shl_align m e ez)) = Z.pos m * 2 ^ (e - ez).
Proof.
  intros H. unfold shl_align.
  destruct (ez - e) as [|d|d] eqn:E; [| lia |].
  - replace (e - ez) with 0 by lia. simpl. lia.
  - simpl. change (Pos.iter xO m d) with (shift_pos d m).
    replace (e - ez) with (Z.pos d) by lia.
    rewrite shift_pos_correct, Z.pow_pos_fold. lia.
Qed.

Lemma canonical_bounds m e :
  canonical_mantissa prec emax m e = true ->
  Z.pos m < 2 ^ 53
  /\ -1074 <= e
  /\ (-1074 < e -> 2 ^ 52 <= Z.pos m).
Proof.
  unfold canonical_mantissa, fexp, SpecFloat.emin, prec, emax.
  rewrite digits2_pos_size. intros H. apply Z.eqb_eq in H.
  pose proof (Pos.size_gt m) as Hgt. pose proof (Pos.size_le m) as Hle.
  assert (Hgt' : Z.pos m < 2 ^ Z.pos (Pos.size m)).
  { apply Pos2Z.pos_lt_pos in Hgt. rewrite Pos2Z.inj_pow in Hgt. exact Hgt. }
  assert (Hle' : 2 ^ Z.pos (Pos.size m) <= 2 * Z.pos m).
  { apply Pos2Z.pos_le_pos in Hle. rewrite Pos2Z.inj_pow in Hle. exact Hle. }
  split; [|split].
  - apply Z.lt_le_trans with (1 := Hgt'). apply Z.pow_le_mono_r; lia.
  - lia.
  - intros He. assert (Hsize : Z.pos (Pos.size m) = 53) by lia.
    rewrite Hsize in Hle'. change (2 ^ 53) with (2 * 2 ^ 52) in Hle'. lia.
Qed.

(** For two positive doubles, the order of the comparison is the order of
    the mantissas brought to the smaller exponent. *)
Lemma compare_aligned mx ex my ey :
  bounded prec emax mx ex = true ->
  bounded prec emax my ey = true ->
  SFleb (S754_finite false my ey) (S754_finite false mx ex) = true ->
  Z.pos (fst (shl_align my ey (Z.min ex ey)))
  <= Z.pos (fst (shl_align mx ex (Z.min ex ey))).
Proof.
  unfold bounded. intros Hx Hy.
  apply andb_prop in Hx as [Hx _]. apply andb_prop in Hy as [Hy _].
  apply canonical_bounds in Hx as (Hx1 & Hx2 & Hx3).
  apply canonical_bounds in Hy as (Hy1 & Hy2 & Hy3).
  unfold SFleb, SFcompare.
  rewrite !shl_align_value by lia.
  destruct (Z.compare_spec ey ex) as [-> | Hlt | Hgt].
  - rewrite Z.min_id, Z.sub_diag. change (Pos.compare_cont Eq my mx) with (my ?= mx)%positive.
    destruct (Pos.compare_spec my mx); intros Hc; try discriminate; lia.
  - intros _. rewrite Z.min_r by lia. rewrite Z.sub_diag, Z.mul_1_r.
    assert (Hpow : 2 ^ 1 <= 2 ^ (ex - ey)) by (apply Z.pow_le_mono_r; lia).
    specialize (Hx3 ltac:(lia)). change (2 ^ 53) with (2 ^ 52 * 2 ^ 1) in Hy1. nia.
  - discriminate.
Qed.

(** Taking a number from a finite number that is not negative and not
    smaller leaves a number that is not negative. *)
Lemma SFsub_nonneg x y :
  valid_binary x = true -> valid_binary y = true ->
  SF_finite x -> SF_nonneg x -> SFleb y x = true ->
  SF_nonneg (SF64sub x y).
Proof.
  destruct x as [sx | sx | | sx mx ex], y as [sy | sy | | sy my ey];
    cbn -[SFleb shl_align];
    intros Vx Vy Fx Nx Hle; try contradiction; try discriminate.
  - destruct sx, sy; exact I.
  - destruct sy; [reflexivity | discriminate].
  - destruct sy; [reflexivity | discriminate].
  - exact Nx.
  - destruct sy; [reflexivity | subst sx; discriminate].
  - subst sx. destruct sy.
    + apply binary_normalize_nonneg. cbn. lia.
    + apply binary_normalize_nonneg. cbn [cond_Zopp].
      pose proof (compare_aligned mx ex my ey Vx Vy Hle). lia.
Qed.

(** *** A difference that is positive stays positive when rounded *)



Lemma size_bounds p :
  2 ^ (Z.pos (Pos.size p) - 1) <= Z.pos p < 2 ^ Z.pos (Pos.size p).
Proof.
  pose proof (Pos.size_gt p) as Hgt. pose proof (Pos.size_le p) as Hle.
  apply Pos2Z.pos_lt_pos in Hgt. rewrite Pos2Z.inj_pow in Hgt.
  apply Pos2Z.pos_le_pos in Hle. rewrite Pos2Z.inj_pow in Hle.
  split; [|exact Hgt].
  replace (Z.pos (Pos.size p)) with (1 + (Z.pos (Pos.size p) - 1)) in Hle by lia.
  rewrite Z.pow_add_r in Hle by lia. lia.
Qed.







(** ** The order of numbers *)


Lemma SFcompare_nan x y :
  SFcompare x y = None <-> x = S754_nan \/ y = S754_nan.
Proof.
  destruct x as [sx | sx | | sx mx ex], y as [sy | sy | | sy my ey]; cbn;
    split; intros H; try discriminate; auto;
    destruct H as [H | H]; discriminate.
Qed.

(** ** Primitive floats *)

Lemma is_nan_spec x : is_nan x = true <-> Prim2SF x = S754_nan.
Proof.
  unfold is_nan. rewrite FloatAxioms.eqb_spec. unfold SFeqb.
  destruct (SFcompare (Prim2SF x) (Prim2SF x)) as [c|] eqn:E.
  - assert (Prim2SF x <> S754_nan).
    { intros H. rewrite H in E. discriminate. }
    destruct (Prim2SF x) as [s | s | | s m e]; cbn in E.
    + injection E as <-. split; [discriminate | congruence].
    + destruct s; injection E as <-; split; (discriminate || congruence).
    + congruence.
    + destruct s; rewrite Z.compare_refl in E;
        change (Pos.compare_cont Eq m m) with (m ?= m)%positive in E;
        rewrite Pos.compare_refl in E; injection E as <-;
        split; (discriminate || congruence).
  - apply SFcompare_nan in E. split; [tauto | reflexivity].
Qed.

Lemma nonneg_spec x : nonneg x = true <-> SF_nonneg (Prim2SF x).
Proof. unfold nonneg. rewrite FloatAxioms.leb_spec. apply SF_nonneg_spec. Qed.

(** [x + y] is not negative when [x] and [y] are not. *)
Lemma add_nonneg x y :
  nonneg x = true -> nonneg y = true -> nonneg (x + y)%float = true.
Proof.
  rewrite !nonneg_spec, FloatAxioms.add_spec. apply SFadd_nonneg.
Qed.

Lemma is_finite_spec x : is_finite x = true -> SF_finite (Prim2SF x).
Proof.
  unfold is_finite, is_infinity. rewrite negb_true_iff, orb_false_iff.
  intros [Hnan Hinf].
  assert (Hn : Prim2SF x <> S754_nan).
  { intros H. apply is_nan_spec in H. congruence. }
  rewrite FloatAxioms.eqb_spec, FloatAxioms.abs_spec in Hinf.
  destruct (Prim2SF x) as [s | s | | s m e]; cbn in *; try exact I; congruence.
Qed.

(** [x - y] is not negative when [x] is finite, not negative and [y <= x]. *)
Lemma sub_nonneg x y :
  is_finite x = true -> nonneg x = true -> (y <=? x)%float = true ->
  nonneg (x - y)%float = true.
Proof.
  rewrite !nonneg_spec, FloatAxioms.sub_spec, FloatAxioms.leb_spec. intros Hf Hn Hle.
  apply SFsub_nonneg; auto using Prim2SF_valid, is_finite_spec.
Qed.






(** A finite number taken from itself leaves zero. *)
Lemma sub_diag x : is_finite x = true -> (x - x)%float = 0%float.
Proof.
  intros Hf. apply is_finite_spec in Hf. apply Prim2SF_inj.
  rewrite FloatAxioms.sub_spec.
  destruct (Prim2SF x) as [s | s | | s m e]; try contradiction.
  - destruct s; reflexivity.
  - cbn -[shl_align]. rewrite Z.sub_diag. reflexivity.
Qed.

(** Taking zero from a number leaves the number. *)
Lemma sub_0_r x : (x - 0)%float = x.
Proof.
  apply Prim2SF_inj. rewrite FloatAxioms.sub_spec.
  change (Prim2SF 0) with (S754_zero false).
  destruct (Prim2SF x) as [[ | ] | s | | s m e]; reflexivity.
Qed.





(** ** Deduction policy *)

(** *** The deduction on doubles *)

Lemma deductEntryFee_eq f user :
  deductEntryFee f user =
    if (deposit user + winning user <? f)%float
    then InsufficientFunds f (deposit user + winning user)
    else if (f <=? deposit user)%float
    then Deducted f 0 (mkBalances (deposit user - f) (winning user))
    else if (0 <? f - deposit user)%float
    then if (f - deposit user <=? winning user)%float
         then Deducted (deposit user) (f - deposit user)
                (mkBalances 0 (winning user - (f - deposit user)))
         else CalculationError
    else Deducted (deposit user) 0 (mkBalances 0 (winning user)).
Proof.
  unfold deductEntryFee. cbv zeta.
  destruct (deposit user + winning user <? f)%float; [reflexivity|].
  destruct (f <=? deposit user)%float; [|reflexivity].
  change (0 <? 0)%float with false. reflexivity.
Qed.




(** *** Balances that are not negative, on doubles *)

Lemma deduction_keeps_nonneg f user :
  nonneg_pair user -> finite_pair user ->
  nonneg_pair (balances_after_deduction f user).
Proof.
  intros [Hd Hw] [Fd Fw]. unfold balances_after_deduction.
  rewrite deductEntryFee_eq.
  destruct (deposit user + winning user <? f)%float; [split; assumption|].
  destruct (f <=? deposit user)%float eqn:Hcover.
  { split; [apply sub_nonneg; assumption | exact Hw]. }
  destruct (0 <? f - deposit user)%float; [|split; [reflexivity | exact Hw]].
  destruct (f - deposit user <=? winning user)%float eqn:Hrest;
    [|split; assumption].
  split; [reflexivity | apply sub_nonneg; assumption].
Qed.

Lemma credit_keeps_nonneg amount user :
  nonneg amount = true -> nonneg_pair user -> nonneg_pair (creditWinnings amount user).
Proof.
  intros Ha [Hd Hw]. split; [exact Hd | apply add_nonneg; assumption].
Qed.

Lemma adminBalances_keeps_nonneg type amount user user' :
  adminBalances type amount user = Some user' ->
  nonneg_pair user -> finite_pair user ->
  (is_debit type = false -> nonneg amount = true) ->
  (is_debit type = true ->
   (PrimFloat.abs amount <=? deposit user)%float = true
   \/ (PrimFloat.abs amount - deposit user <=? winning user)%float = true) ->
  nonneg_pair user'.
Proof.
  unfold adminBalances. intros H [Hd Hw] [Fd Fw] Hcredit Hdebit.
  destruct (String.eqb type "deposit") eqn:E1.
  { apply String.eqb_eq in E1. subst type. injection H as <-.
    split; [apply add_nonneg; auto | exact Hw]. }
  destruct (String.eqb type "winning") eqn:E2.
  { apply String.eqb_eq in E2. subst type. injection H as <-.
    split; [exact Hd | apply add_nonneg; auto]. }
  destruct (is_debit type); [|injection H as <-; split; assumption].
  destruct (deposit user + winning user <? PrimFloat.abs amount)%float; [discriminate|].
  cbv zeta in H.
  destruct (PrimFloat.abs amount <=? deposit user)%float eqn:Hcover; injection H as <-.
  - split; [apply sub_nonneg; auto | exact Hw].
  - destruct (Hdebit eq_refl) as [Hfirst | Hrest]; [discriminate|].
    split; [reflexivity | apply sub_nonneg; auto].
Qed.


(** ** Whole numbers are exact *)

Lemma size_unique q j :
  2 ^ (j - 1) <= Z.pos q < 2 ^ j -> Z.pos (Pos.size q) = j.
Proof.
  intros [Hlo Hhi]. pose proof (size_bounds q) as [Slo Shi].
  assert (Hj : 0 <= j).
  { destruct (Z.lt_ge_cases j 0) as [Hneg|]; [|assumption].
    rewrite (Z.pow_neg_r 2 j Hneg) in Hhi. lia. }
  destruct (Z.lt_trichotomy (Z.pos (Pos.size q)) j) as [Hlt | [Heq | Hgt]];
    [|exact Heq|].
  - assert (2 ^ Z.pos (Pos.size q) <= 2 ^ (j - 1)) by (apply Z.pow_le_mono_r; lia). lia.
  - assert (2 ^ j <= 2 ^ (Z.pos (Pos.size q) - 1)) by (apply Z.pow_le_mono_r; lia). lia.
Qed.

Lemma size_scaled p k M :
  0 <= k -> Z.pos M = Z.pos p * 2 ^ k ->
  Z.pos (Pos.size M) = Z.pos (Pos.size p) + k.
Proof.
  intros Hk HM. apply size_unique. pose proof (size_bounds p) as [Slo Shi].
  rewrite HM.
  replace (Z.pos (Pos.size p) + k - 1) with (Z.pos (Pos.size p) - 1 + k) by lia.
  rewrite !Z.pow_add_r by lia.
  assert (0 < 2 ^ k) by (apply Z.pow_pos_nonneg; lia). nia.
Qed.

Lemma size_whole p : Z.pos p < 2 ^ 53 -> Z.pos (Pos.size p) <= 53.
Proof.
  intros Hp. pose proof (size_bounds p) as [Slo _].
  destruct (Z.le_gt_cases (Z.pos (Pos.size p)) 53) as [|Hgt]; [assumption|].
  assert (2 ^ 53 <= 2 ^ (Z.pos (Pos.size p) - 1)) by (apply Z.pow_le_mono_r; lia). lia.
Qed.

Lemma iter_pos_shr_1_exact n q :
  SpecFloat.iter_pos shr_1 n
    {| shr_m := Z.pos (Pos.iter xO q n); shr_r := false; shr_s := false |}
  = {| shr_m := Z.pos q; shr_r := false; shr_s := false |}.
Proof.
  revert q. induction n as [n IH | n IH |]; intros q; cbn [SpecFloat.iter_pos Pos.iter].
  - cbn [shr_1 orb]. rewrite !IH. reflexivity.
  - rewrite !IH. reflexivity.
  - reflexivity.
Qed.

Lemma iter_xO_value n q : Z.pos (Pos.iter xO q n) = Z.pos q * 2 ^ Z.pos n.
Proof.
  change (Pos.iter xO q n) with (shift_pos n q).
  rewrite shift_pos_correct, Zpower_pos_nat, Zpower_nat_Z, positive_nat_Z. lia.
Qed.

(** A mantissa of 53 digits with [j] zeros appended rounds to itself. *)
Lemma binary_round_aux_exact s c mz t j :
  Z.pos (Pos.size c) = 53 -> -1074 <= t <= 971 -> 0 <= j ->
  Z.pos mz = Z.pos c * 2 ^ j ->
  binary_round_aux prec emax s (Z.pos mz) (t - j) loc_Exact = S754_finite s c t.
Proof.
  intros Hc Ht Hj Hmz.
  pose proof (size_scaled c j mz Hj Hmz) as Hsize.
  unfold binary_round_aux.
  assert (Hfirst : shr_fexp prec emax (Z.pos mz) (t - j) loc_Exact
                   = ({| shr_m := Z.pos c; shr_r := false; shr_s := false |}, t)).
  { unfold shr_fexp, Zdigits2, fexp, SpecFloat.emin, shr_record_of_loc.
    rewrite digits2_pos_size, Hsize, Hc.
    replace (Z.max (53 + j + (t - j) - prec) (3 - emax - prec) - (t - j)) with j
      by (unfold prec, emax; lia).
    destruct j as [ | q | q]; [| |lia].
    - unfold shr. replace mz with c by lia. f_equal. lia.
    - unfold shr. rewrite <- iter_xO_value in Hmz.
      injection Hmz as ->. rewrite iter_pos_shr_1_exact. f_equal. lia. }
  rewrite Hfirst. cbn [shr_m loc_of_shr_record round_nearest_even].
  assert (Hsecond : shr_fexp prec emax (Z.pos c) t loc_Exact
                    = ({| shr_m := Z.pos c; shr_r := false; shr_s := false |}, t)).
  { unfold shr_fexp, Zdigits2, fexp, SpecFloat.emin, shr_record_of_loc.
    rewrite digits2_pos_size, Hc.
    replace (Z.max (53 + t - prec) (3 - emax - prec) - t) with 0
      by (unfold prec, emax; lia).
    reflexivity. }
  rewrite Hsecond. cbn [shr_m].
  replace (t <=? emax - prec) with true; [reflexivity|].
  symmetry. apply Z.leb_le. unfold prec, emax. lia.
Qed.

Lemma canon_value s p :
  Z.pos p < 2 ^ 53 ->
  exists c t,
    canon s p = S754_finite s c t
    /\ t = Z.pos (Pos.size p) - 53
    /\ -52 <= t <= 0
    /\ Z.pos c = Z.pos p * 2 ^ (- t)
    /\ Z.pos (Pos.size c) = 53.
Proof.
  intros Hp. pose proof (size_whole p Hp) as Hn.
  assert (1 <= Z.pos (Pos.size p)) by lia.
  exists (fst (shl_align p 0 (Z.pos (Pos.size p) - 53))), (Z.pos (Pos.size p) - 53).
  split; [reflexivity|]. split; [reflexivity|]. split; [lia|].
  assert (Hv : Z.pos (fst (shl_align p 0 (Z.pos (Pos.size p) - 53)))
               = Z.pos p * 2 ^ (- (Z.pos (Pos.size p) - 53))).
  { rewrite shl_align_value by lia. f_equal. }
  split; [exact Hv|].
  rewrite (size_scaled p (- (Z.pos (Pos.size p) - 53)) _ ltac:(lia) Hv). lia.
Qed.

(** Rounding a whole number given with trailing zeros. *)
Lemma binary_round_whole s p M e :
  Z.pos p < 2 ^ 53 -> e <= 0 -> Z.pos M = Z.pos p * 2 ^ (- e) ->
  binary_round prec emax s M e = canon s p.
Proof.
  intros Hp He HM.
  destruct (canon_value s p Hp) as (c & t & -> & Ht & Hrange & Hc & Hsize).
  pose proof (size_scaled p (- e) M ltac:(lia) HM) as HsizeM.
  unfold binary_round. rewrite digits2_pos_size, HsizeM.
  replace (fexp prec emax (Z.pos (Pos.size p) + - e + e)) with t
    by (unfold fexp, SpecFloat.emin, prec, emax; lia).
  destruct (shl_align M e t) as [mz ez] eqn:Hal.
  assert (Hj : exists j, 0 <= j /\ ez = t - j /\ Z.pos mz = Z.pos c * 2 ^ j).
  { unfold shl_align in Hal. destruct (t - e) as [ | d | d] eqn:Hd.
    - injection Hal as <- <-. exists 0. split; [lia|]. split; [lia|].
      rewrite Hc, HM. replace (- e) with (- t) by lia. lia.
    - injection Hal as <- <-. exists (Z.pos d). split; [lia|]. split; [lia|].
      rewrite Hc, HM, <- Z.mul_assoc, <- Z.pow_add_r by lia. do 2 f_equal. lia.
    - injection Hal as <- <-. exists 0. split; [lia|]. split; [lia|].
      rewrite iter_xO_value, Hc, HM, <- Z.mul_assoc, <- Z.pow_add_r by lia.
      rewrite Z.mul_1_r. do 2 f_equal. lia. }
  destruct Hj as (j & Hj & -> & Hmz).
  apply binary_round_aux_exact; try assumption. lia.
Qed.

Lemma binary_normalize_whole z e :
  Z.abs z < 2 ^ 53 -> e <= 0 ->
  binary_normalize prec emax (z * 2 ^ (- e)) e false = SFwhole z.
Proof.
  intros Hz He. assert (Hpow : 0 < 2 ^ (- e)) by (apply Z.pow_pos_nonneg; lia).
  destruct z as [ | p | p]; [reflexivity| |].
  - destruct (Z.pos p * 2 ^ (- e)) as [ | M | M] eqn:HM; try lia.
    cbn [binary_normalize SFwhole]. apply binary_round_whole; [lia | exact He | symmetry; exact HM].
  - destruct (Z.neg p * 2 ^ (- e)) as [ | M | M] eqn:HM; try lia.
    cbn [binary_normalize SFwhole]. apply binary_round_whole; [lia | exact He |].
    rewrite <- Pos2Z.opp_pos in HM. lia.
Qed.

Lemma SFwhole_finite z :
  z <> 0 -> Z.abs z < 2 ^ 53 ->
  exists s c t,
    SFwhole z = S754_finite s c t
    /\ s = (z <? 0)
    /\ t = Z.log2 (Z.abs z) - 52
    /\ -52 <= t <= 0
    /\ cond_Zopp s (Z.pos c) = z * 2 ^ (- t)
    /\ Z.pos (Pos.size c) = 53.
Proof.
  intros Hz Hlt.
  assert (Hlog : forall p, Z.pos (Pos.size p) - 53 = Z.log2 (Z.pos p) - 52).
  { intros p. pose proof (Z.log2_spec (Z.pos p) ltac:(lia)) as [Llo Lhi].
    assert (Z.pos (Pos.size p) = Z.succ (Z.log2 (Z.pos p))) as ->; [|lia].
    apply size_unique.
    replace (Z.succ (Z.log2 (Z.pos p)) - 1) with (Z.log2 (Z.pos p)) by lia.
    split; assumption. }
  destruct z as [ | p | p]; [contradiction| |]; cbn [SFwhole Z.abs] in *.
  - destruct (canon_value false p Hlt) as (c & t & Hcanon & Ht & Hrange & Hc & Hsize).
    exists false, c, t. split; [exact Hcanon|]. split; [reflexivity|].
    split; [rewrite Ht; apply Hlog|].
    split; [exact Hrange|]. split; [exact Hc | exact Hsize].
  - destruct (canon_value true p Hlt) as (c & t & Hcanon & Ht & Hrange & Hc & Hsize).
    exists true, c, t. split; [exact Hcanon|]. split; [reflexivity|].
    split; [rewrite Ht; apply Hlog|].
    split; [exact Hrange|]. split; [|exact Hsize].
    cbn [cond_Zopp]. rewrite Hc. rewrite <- (Pos2Z.opp_pos p). lia.
Qed.

Lemma aligned_value s c t ez :
  ez <= t ->
  cond_Zopp s (Z.pos (fst (shl_align c t ez))) = cond_Zopp s (Z.pos c) * 2 ^ (t - ez).
Proof.
  intros H. rewrite shl_align_value by exact H. destruct s; cbn [cond_Zopp]; lia.
Qed.

Lemma scale_whole z t ez :
  ez <= t -> t <= 0 -> z * 2 ^ (- t) * 2 ^ (t - ez) = z * 2 ^ (- ez).
Proof.
  intros H1 H2. rewrite <- Z.mul_assoc, <- Z.pow_add_r by lia. do 2 f_equal. lia.
Qed.

(** Sums and differences of whole numbers are exact while they stay below
    2^53 in magnitude. *)
Lemma SFadd_whole a b :
  Z.abs a < 2 ^ 53 -> Z.abs b < 2 ^ 53 -> Z.abs (a + b) < 2 ^ 53 ->
  SF64add (SFwhole a) (SFwhole b) = SFwhole (a + b).
Proof.
  intros Ha Hb Hab.
  destruct (Z.eq_dec a 0) as [-> | Na].
  { cbn [Z.add]. destruct b; reflexivity. }
  destruct (Z.eq_dec b 0) as [-> | Nb].
  { rewrite Z.add_0_r. destruct a; reflexivity. }
  destruct (SFwhole_finite a Na Ha) as (sa & ca & ta & -> & _ & _ & Hta & Hva & _).
  destruct (SFwhole_finite b Nb Hb) as (sb & cb & tb & -> & _ & _ & Htb & Hvb & _).
  unfold SF64add, SFadd. cbv zeta.
  rewrite !aligned_value by lia. rewrite Hva, Hvb, !scale_whole by lia.
  rewrite <- Z.mul_add_distr_r. apply binary_normalize_whole; [exact Hab | lia].
Qed.

Lemma SFsub_whole a b :
  Z.abs a < 2 ^ 53 -> Z.abs b < 2 ^ 53 -> Z.abs (a - b) < 2 ^ 53 ->
  SF64sub (SFwhole a) (SFwhole b) = SFwhole (a - b).
Proof.
  intros Ha Hb Hab.
  destruct (Z.eq_dec b 0) as [-> | Nb].
  { rewrite Z.sub_0_r. destruct a; reflexivity. }
  destruct (Z.eq_dec a 0) as [-> | Na].
  { destruct b; reflexivity. }
  destruct (SFwhole_finite a Na Ha) as (sa & ca & ta & -> & _ & _ & Hta & Hva & _).
  destruct (SFwhole_finite b Nb Hb) as (sb & cb & tb & -> & _ & _ & Htb & Hvb & _).
  unfold SF64sub, SFsub. cbv zeta.
  rewrite !aligned_value by lia. rewrite Hva, Hvb, !scale_whole by lia.
  rewrite <- Z.mul_sub_distr_r. apply binary_normalize_whole; [exact Hab | lia].
Qed.

(** Whole numbers that are not negative compare as doubles the way they
    compare as integers. *)
Lemma SFcompare_whole a b :
  0 <= a < 2 ^ 53 -> 0 <= b < 2 ^ 53 ->
  SFcompare (SFwhole a) (SFwhole b) = Some (a ?= b).
Proof.
  intros Ha Hb.
  destruct (Z.eq_dec a 0) as [-> | Na]; destruct (Z.eq_dec b 0) as [-> | Nb].
  - reflexivity.
  - destruct b; try lia; reflexivity.
  - destruct a; try lia; reflexivity.
  - destruct (SFwhole_finite a Na ltac:(lia)) as (sa & ca & ta & -> & Hsa & Hta & Hra & Hva & _).
    destruct (SFwhole_finite b Nb ltac:(lia)) as (sb & cb & tb & -> & Hsb & Htb & Hrb & Hvb & _).
    assert (sa = false) as -> by (rewrite Hsa; apply Z.ltb_ge; lia).
    assert (sb = false) as -> by (rewrite Hsb; apply Z.ltb_ge; lia).
    cbn [cond_Zopp] in Hva, Hvb. cbn [SFcompare]. f_equal.
    rewrite !Z.abs_eq in * by lia.
    pose proof (Z.log2_spec a ltac:(lia)) as [La Ua].
    pose proof (Z.log2_spec b ltac:(lia)) as [Lb Ub].
    destruct (Z.compare_spec ta tb) as [Heq | Hlt | Hgt].
    + change (Pos.compare_cont Eq ca cb) with (Z.pos ca ?= Z.pos cb).
      rewrite Hva, Hvb, Heq.
      assert (0 < 2 ^ (- tb)) by (apply Z.pow_pos_nonneg; lia).
      rewrite !(Z.mul_comm _ (2 ^ (- tb))).
      symmetry. apply Zmult_compare_compat_l. lia.
    + symmetry. apply Z.compare_lt_iff.
      assert (2 ^ Z.succ (Z.log2 a) <= 2 ^ Z.log2 b) by (apply Z.pow_le_mono_r; lia). lia.
    + symmetry. apply Z.compare_gt_iff.
      assert (2 ^ Z.succ (Z.log2 b) <= 2 ^ Z.log2 a) by (apply Z.pow_le_mono_r; lia). lia.
Qed.

(** *** The same on primitive floats *)

Lemma whole_spec z : Z.abs z < 2 ^ 53 -> Prim2SF (whole z) = SFwhole z.
Proof.
  intros Hz.
  assert (Hpos : forall n, 0 <= n < 2 ^ 53 ->
                   Prim2SF (of_uint63 (Uint63.of_Z n)) = SFwhole n).
  { intros n Hn. rewrite FloatAxioms.of_uint63_spec, Uint63.of_Z_spec.
    rewrite Z.mod_small.
    - rewrite <- (binary_normalize_whole n 0) by lia.
      f_equal. change (2 ^ (- 0)) with 1. lia.
    - split; [lia|]. apply Z.lt_trans with (2 ^ 53); [lia|]. reflexivity. }
  unfold whole. destruct (Z.ltb_spec z 0) as [Hneg | Hnn].
  - rewrite FloatAxioms.opp_spec, Hpos by lia.
    destruct z as [ | p | p]; try lia. reflexivity.
  - apply Hpos. lia.
Qed.

Lemma whole_add a b :
  Z.abs a < 2 ^ 53 -> Z.abs b < 2 ^ 53 -> Z.abs (a + b) < 2 ^ 53 ->
  (whole a + whole b)%float = whole (a + b).
Proof.
  intros Ha Hb Hab. apply Prim2SF_inj.
  rewrite FloatAxioms.add_spec, !whole_spec by assumption.
  apply SFadd_whole; assumption.
Qed.

Lemma whole_sub a b :
  Z.abs a < 2 ^ 53 -> Z.abs b < 2 ^ 53 -> Z.abs (a - b) < 2 ^ 53 ->
  (whole a - whole b)%float = whole (a - b).
Proof.
  intros Ha Hb Hab. apply Prim2SF_inj.
  rewrite FloatAxioms.sub_spec, !whole_spec by assumption.
  apply SFsub_whole; assumption.
Qed.

Lemma whole_ltb a b :
  0 <= a < 2 ^ 53 -> 0 <= b < 2 ^ 53 -> (whole a <? whole b)%float = (a <? b).
Proof.
  intros Ha Hb. rewrite FloatAxioms.ltb_spec, !whole_spec by lia.
  unfold SFltb. rewrite SFcompare_whole by assumption.
  unfold Z.ltb. destruct (a ?= b); reflexivity.
Qed.

Lemma whole_leb a b :
  0 <= a < 2 ^ 53 -> 0 <= b < 2 ^ 53 -> (whole a <=? whole b)%float = (a <=? b).
Proof.
  intros Ha Hb. rewrite FloatAxioms.leb_spec, !whole_spec by lia.
  unfold SFleb. rewrite SFcompare_whole by assumption.
  unfold Z.leb. destruct (a ?= b); reflexivity.
Qed.

Lemma whole_abs z : Z.abs z < 2 ^ 53 -> PrimFloat.abs (whole z) = whole (Z.abs z).
Proof.
  intros Hz. apply Prim2SF_inj.
  rewrite FloatAxioms.abs_spec, !whole_spec by lia.
  destruct z; reflexivity.
Qed.

Lemma whole_0 : whole 0 = 0%float.
Proof. reflexivity. Qed.

(** ** The integer amounts of the handlers and the doubles of the source *)

(** X1. On whole numbers the deduction of the registration is exact.  For a
    deposit balance, a winning balance and a fee that are whole numbers, not
    negative, the fee and the sum of the balances below 2^53, the handler's
    arithmetic on doubles gives what the integer arithmetic gives: the
    insufficient-balance reply when the balances do not cover the fee, and
    otherwise a deduction of [min d f] from the deposit balance and of the
    rest of the fee from the winning balance, the two adding up to the fee.
    The reply "Balance calculation error" is not sent on such amounts. *)
Theorem whole_amounts_deduct_exactly d w f :
  0 <= d -> 0 <= w -> 0 <= f < 2 ^ 53 -> d + w < 2 ^ 53 ->
  deductEntryFee (whole f) (mkBalances (whole d) (whole w))
  = deduction_of f (computeSplit d w f)
  /\ deductEntryFee (whole f) (mkBalances (whole d) (whole w)) <> CalculationError
  /\ (d + w < f ->
      deductEntryFee (whole f) (mkBalances (whole d) (whole w))
      = InsufficientFunds (whole f) (whole (d + w)))
  /\ (f <= d + w ->
      exists fromDeposit fromWinning,
        deductEntryFee (whole f) (mkBalances (whole d) (whole w))
        = Deducted (whole fromDeposit) (whole fromWinning)
            (mkBalances (whole (d - fromDeposit)) (whole (w - fromWinning)))
        /\ fromDeposit = Z.min d f
        /\ fromDeposit + fromWinning = f).
Proof.
  intros Hd Hw Hf Hsum.
  assert (Heq : deductEntryFee (whole f) (mkBalances (whole d) (whole w))
                = deduction_of f (computeSplit d w f)).
  { rewrite deductEntryFee_eq. cbn [deposit winning]. unfold computeSplit.
    rewrite whole_add, whole_ltb by lia.
    destruct (Z.ltb_spec (d + w) f) as [Hlow | Hcover]; [reflexivity|].
    rewrite whole_leb by lia.
    destruct (Z.leb_spec f d) as [Hfd | Hdf].
    - cbn. rewrite whole_sub by lia. reflexivity.
    - rewrite whole_sub by lia.
      change 0%float with (whole 0). rewrite whole_ltb, whole_leb by lia.
      destruct (Z.ltb_spec 0 (f - d)) as [_|]; [|lia].
      destruct (Z.leb_spec (f - d) w) as [_|]; [|lia].
      cbn. rewrite whole_sub by lia. reflexivity. }
  split; [exact Heq|].
  split.
  { rewrite Heq. destruct (Z.lt_ge_cases (d + w) f) as [Hlow | Hcover].
    - rewrite computeSplit_insufficient by assumption. discriminate.
    - rewrite computeSplit_ok by lia. discriminate. }
  split.
  - intros Hlow. rewrite Heq, computeSplit_insufficient by assumption. reflexivity.
  - intros Hcover. rewrite Heq, computeSplit_ok by assumption.
    exists (Z.min d f), (f - Z.min d f). split; [reflexivity|]. split; [reflexivity|lia].
Qed.

Lemma whole_amounts_deduct_exactly_witness :
  deductEntryFee (whole 40) (mkBalances (whole 30) (whole 20))
  = Deducted (whole 30) (whole 10) (mkBalances (whole 0) (whole 10))
  /\ deductEntryFee (whole 40) (mkBalances (whole 30) (whole 5))
     = InsufficientFunds (whole 40) (whole 35).
Proof.
  destruct (whole_amounts_deduct_exactly 30 20 40) as (Heq & _); try lia.
  destruct (whole_amounts_deduct_exactly 30 5 40) as (_ & _ & Hlow & _); try lia.
  split; [exact Heq | apply Hlow; lia].
Defined.

(** X27. On whole numbers the credits and debits of the award and of the
    manual transaction are exact.  For a user whose two balances are whole
    numbers, not negative, with a sum below 2^53, and an amount that is a
    whole number, the balances staying below 2^53 in magnitude: the award's
    credit and the manual transaction's update of the balances, computed on
    doubles, give what the integer arithmetic gives, and the manual
    transaction answers with the insufficient-balance reply in the same
    cases. *)
Theorem whole_amounts_credit_and_debit_exactly u type amount :
  0 <= depositAmount u -> 0 <= winningAmount u ->
  depositAmount u + winningAmount u < 2 ^ 53 ->
  Z.abs amount < 2 ^ 53 ->
  Z.abs (depositAmount u + amount) < 2 ^ 53 ->
  Z.abs (winningAmount u + amount) < 2 ^ 53 ->
  creditWinnings (whole amount) (balances_of u)
  = balances_of (with_balances u (depositAmount u) (winningAmount u + amount))
  /\ adminBalances type (whole amount) (balances_of u)
     = option_map balances_of (adminBalanceUpdate u type amount).
Proof.
  intros Hd Hw Hsum Ha Hda Hwa. split.
  - unfold creditWinnings, balances_of. cbn. rewrite whole_add by lia. reflexivity.
  - unfold adminBalances, adminBalanceUpdate, balances_of. cbn [deposit winning].
    destruct (String.eqb type "deposit").
    { cbn. rewrite whole_add by lia. reflexivity. }
    destruct (String.eqb type "winning").
    { cbn. rewrite whole_add by lia. reflexivity. }
    destruct (is_debit type); [|reflexivity].
    rewrite whole_abs, whole_add, whole_ltb by lia. cbv zeta.
    destruct (Z.ltb_spec (depositAmount u + winningAmount u) (Z.abs amount));
      [reflexivity|].
    rewrite whole_leb by lia.
    destruct (Z.leb_spec (Z.abs amount) (depositAmount u)); cbn.
    + rewrite whole_sub by lia. reflexivity.
    + rewrite !whole_sub by lia. reflexivity.
Qed.

Lemma whole_amounts_credit_and_debit_exactly_witness :
  creditWinnings (whole 50) (mkBalances (whole 30) (whole 20))
  = mkBalances (whole 30) (whole 70)
  /\ adminBalances "withdrawal" (whole (-40)) (mkBalances (whole 30) (whole 20))
     = Some (mkBalances (whole 0) (whole 10)).
Proof.
  destruct (whole_amounts_credit_and_debit_exactly
              (mkUser "Alice" "alice@example.com" "" None "" 20 30) "withdrawal" 50)
    as [Hcredit _]; try (cbn; lia).
  destruct (whole_amounts_credit_and_debit_exactly
              (mkUser "Alice" "alice@example.com" "" None "" 20 30) "withdrawal" (-40))
    as [_ Hdebit]; try (cbn; lia).
  split; [exact Hcredit | exact Hdebit].
Defined.

(** ** Capacity guard *)

Lemma member_In x l : member x l = true <-> In x l.
Proof.
  unfold member. rewrite existsb_exists. split.
  - intros (y & Hin & Heq). apply String.eqb_eq in Heq. subst. exact Hin.
  - intros Hin. exists x. split; [exact Hin|]. apply String.eqb_refl.
Qed.

Lemma member_snoc x l : member x (l ++ [x]) = true.
Proof. apply member_In, in_or_app. right. left. reflexivity. Qed.

Lemma is_upcoming_spec s : is_upcoming s = true <-> s = upcoming.
Proof. destruct s; simpl; split; congruence. Qed.

Lemma register_guard_replies F w rq t :
  F (TournamentFindById (rq_id rq)) = false ->
  tournaments (db w) !! rq_id rq = Some t ->
  (is_upcoming (status t) = false -> register F rq w = (closed_reply, w))
  /\ (is_upcoming (status t) = true -> maxSlots t <= registeredPlayers t ->
      register F rq w = (full_reply, w))
  /\ (is_upcoming (status t) = true -> registeredPlayers t < maxSlots t ->
      member (rq_userId rq) (registeredUsers t) = true ->
      register F rq w = (already_reply, w)).
Proof.
  intros HF Ht.
  repeat split.
  - intros Hs. unfold register, route, register_read, Tournament_findById. unmonad.
    rewrite HF. simpl. rewrite Ht, Hs. reflexivity.
  - intros Hs Hfull. unfold register, route, register_read, Tournament_findById.
    unmonad. rewrite HF. simpl. rewrite Ht, Hs. simpl.
    destruct (Z.leb_spec (maxSlots t) (registeredPlayers t)); [reflexivity|lia].
  - intros Hs Hfree Hin. unfold register, route, register_read, Tournament_findById.
    unmonad. rewrite HF. simpl. rewrite Ht, Hs. simpl.
    destruct (Z.leb_spec (maxSlots t) (registeredPlayers t)); [lia|]. simpl.
    rewrite Hin. reflexivity.
Qed.

Lemma register_tournament_fault F w rq :
  F (TournamentFindById (rq_id rq)) = true ->
  register F rq w =
    (mkResponse 500 (Message "Server error"),
     mkWorld (db w) (nextId w)
       (console w ++ [LogError "Tournament registration error:" DbFailure])).
Proof.
  intros HF. unfold register, route, register_read, Tournament_findById. unmonad.
  rewrite HF. reflexivity.
Qed.

(** C4. A registration call is answered with the closed reply when the
    tournament is not upcoming, else with the full reply when
    [registeredPlayers >= maxSlots], else with the already-registered reply
    when the user is in the registered-user list; each rejection leaves the
    whole world unchanged (no deduction, no ledger entry, no registration
    record).  A user whose registration succeeded and who calls again for the
    same tournament is rejected, the data being left as it was. *)
Theorem capacity_guard_rejections F w rq t :
  F (TournamentFindById (rq_id rq)) = false ->
  tournaments (db w) !! rq_id rq = Some t ->
  (status t <> upcoming -> register F rq w = (closed_reply, w))
  /\ (status t = upcoming -> maxSlots t <= registeredPlayers t ->
      register F rq w = (full_reply, w))
  /\ (status t = upcoming -> registeredPlayers t < maxSlots t ->
      In (rq_userId rq) (registeredUsers t) ->
      register F rq w = (already_reply, w))
  /\ (forall r1 w1,
        register F rq w = (r1, w1) -> statusCode r1 = 200 ->
        forall F' rq',
          rq_userId rq' = rq_userId rq -> rq_id rq' = rq_id rq ->
          statusCode (fst (register F' rq' w1)) <> 200
          /\ db (snd (register F' rq' w1)) = db w1
          /\ (F' (TournamentFindById (rq_id rq)) = false ->
              register F' rq' w1 = (full_reply, w1)
              \/ register F' rq' w1 = (already_reply, w1))).
Proof.
  intros HF Ht.
  destruct (register_guard_replies F w rq t HF Ht) as (Hclosed & Hfull & Halready).
  split; [|split; [|split]].
  - intros Hs. apply Hclosed. destruct (is_upcoming (status t)) eqn:E; [|reflexivity].
    apply is_upcoming_spec in E. contradiction.
  - intros Hs. apply Hfull. apply is_upcoming_spec. exact Hs.
  - intros Hs Hfree Hin. apply Halready; [apply is_upcoming_spec; exact Hs|exact Hfree|].
    apply member_In. exact Hin.
  - intros r1 w1 Hreg Hcode F' rq' Huid Hid.
    destruct (register_success_inv _ _ _ _ _ Hreg Hcode)
      as (t0 & u & s & rid & Hadm & _ & _ & _ & Hts & _).
    destruct Hadm as (_ & _ & Ht0 & _ & Hg).
    unfold guards_pass in Hg. split_andb.
    assert (Ht1 : tournaments (db w1) !! rq_id rq'
                  = Some (tournament_after_registration t0 (rq_userId rq))).
    { rewrite Hts, Hid. apply lookup_insert_eq. }
    destruct (F' (TournamentFindById (rq_id rq))) eqn:HF'.
    + rewrite <- Hid in HF'. rewrite (register_tournament_fault _ _ _ HF'). simpl.
      split; [lia|]. split; [reflexivity|]. discriminate.
    + pose proof HF' as HF''. rewrite <- Hid in HF''.
      destruct (register_guard_replies F' w1 rq' _ HF'' Ht1) as (_ & Hfull' & Halready').
      simpl in Hfull', Halready'.
      destruct (Z.le_gt_cases (maxSlots t0) (registeredPlayers t0 + 1)) as [Hle | Hgt].
      * rewrite (Hfull' ltac:(assumption) Hle). simpl.
        split; [lia|]. split; [reflexivity|]. intros _. left. reflexivity.
      * rewrite (Halready' ltac:(assumption) ltac:(lia)
                   ltac:(rewrite Huid; apply member_snoc)). simpl.
        split; [lia|]. split; [reflexivity|]. intros _. right. reflexivity.
Qed.

Lemma capacity_guard_rejections_witness :
  statusCode (fst (register no_faults Scenario.alice_request Scenario.world0)) = 200
  /\ statusCode
       (fst (register no_faults Scenario.alice_request
               (snd (register no_faults Scenario.alice_request Scenario.world0))))
     <> 200
  /\ db (snd (register no_faults Scenario.alice_request
                (snd (register no_faults Scenario.alice_request Scenario.world0))))
     = db (snd (register no_faults Scenario.alice_request Scenario.world0)).
Proof.
  assert (Hok : statusCode (fst (register no_faults Scenario.alice_request
                                   Scenario.world0)) = 200)
    by (vm_compute; reflexivity).
  split; [exact Hok|].
  destruct (capacity_guard_rejections no_faults Scenario.world0
              Scenario.alice_request Scenario.solo eq_refl
              ltac:(vm_compute; reflexivity)) as (_ & _ & _ & Hagain).
  destruct (Hagain _ _ (surjective_pairing _) Hok no_faults Scenario.alice_request
              eq_refl eq_refl) as (Hcode & Hdb & _).
  split; [exact Hcode|exact Hdb].
Defined.

(** ** Failures after the deduction *)

(** C1 (as stated, it fails).  Alice registers under a Free Fire id that Bob
    already uses in the tournament: the call is answered with an error, no
    registration record is added, and her stored balances are the deducted
    ones, not the ones she had before the call. *)
Lemma rollback_counterexample :
  fst (register no_faults RollbackScenario.rollback_request RollbackScenario.rollback_world)
  = mkResponse 400 (Message "You are already registered for this tournament")
  /\ users (db RollbackScenario.rollback_world) !! Scenario.alice_id
     = Some (mkUser "Alice" "alice@example.com" "" None "" 20 30)
  /\ users (db (snd (register no_faults RollbackScenario.rollback_request
                       RollbackScenario.rollback_world))) !! Scenario.alice_id
     = Some (mkUser "Alice" "alice@example.com" "" None "" 10 0)
  /\ registrations (db (snd (register no_faults RollbackScenario.rollback_request
                               RollbackScenario.rollback_world)))
     = [RollbackScenario.bob_registration].
Proof. vm_compute. repeat split; reflexivity. Qed.

(** C1 (amended).  When the deduction has been saved and persisting the
    registration record fails, the call answers the error (the
    already-registered reply for a uniqueness violation, a server error
    otherwise); it creates no registration record, leaves the tournaments
    untouched, and the user's stored balances stay at their deducted values. *)
Theorem failed_registration_keeps_deduction F w rq t u s rid e :
  accepts F w rq t u ->
  computeSplit (depositAmount u) (winningAmount u) (entryFee t) = SplitOk s ->
  F (UserSave (rq_userId rq)) = false ->
  registration_save_error F (db w) (new_registration rid rq t u (freeFireId_of rq))
  = Some e ->
  fst (register F rq w) = register_on_error e
  /\ users (db (snd (register F rq w))) !! rq_userId rq
     = Some (with_balances u (newDeposit s) (newWinning s))
  /\ registrations (db (snd (register F rq w))) = registrations (db w)
  /\ tournaments (db (snd (register F rq w))) = tournaments (db w).
Proof.
  intros Hadm Hs HF He.
  destruct (register_accepted _ _ _ _ _ _ Hadm Hs HF)
    as (w2 & _ & Hus & Hts & Hrs & Hw).
  simpl in Hw.
  rewrite (registration_save_error_id F (db w) rq t u _ _ rid), He in Hw.
  rewrite Hw. simpl. rewrite Hus, lookup_insert_eq. repeat split; assumption.
Qed.

Lemma failed_registration_keeps_deduction_witness :
  fst (register no_faults RollbackScenario.rollback_request RollbackScenario.rollback_world)
  = register_on_error MongoDuplicateKey
  /\ users (db (snd (register no_faults RollbackScenario.rollback_request
                       RollbackScenario.rollback_world))) !! Scenario.alice_id
     = Some (with_balances Scenario.alice 0 10)
  /\ registrations (db (snd (register no_faults RollbackScenario.rollback_request
                               RollbackScenario.rollback_world)))
     = registrations (db RollbackScenario.rollback_world)
  /\ tournaments (db (snd (register no_faults RollbackScenario.rollback_request
                             RollbackScenario.rollback_world)))
     = tournaments (db RollbackScenario.rollback_world).
Proof.
  apply (failed_registration_keeps_deduction no_faults RollbackScenario.rollback_world
           RollbackScenario.rollback_request RollbackScenario.solo_with_bob Scenario.alice
           (mkSplit 30 10 0 10) 0 MongoDuplicateKey).
  - unfold accepts. repeat split; vm_compute; reflexivity.
  - vm_compute. reflexivity.
  - reflexivity.
  - vm_compute. reflexivity.
Defined.

(** ** Team selection *)

(** C10. A successful registration for a tournament whose team size is not
    2v2, 4v4 or 6v6 stores [null] as team selection and returns [null] as the
    assigned team, whatever team selection the caller sent. *)
Theorem solo_team_selection_discarded F w rq t r w' :
  tournaments (db w) !! rq_id rq = Some t ->
  multi_member (teamSize t) = false ->
  register F rq w = (r, w') ->
  statusCode r = 200 ->
  exists fromDeposit fromWinning newBalance rid reg,
    r = mkResponse 200 (Registered fromDeposit fromWinning newBalance rid JNull)
    /\ registrations (db w') = (registrations (db w) ++ [reg])%list
    /\ reg_id reg = rid
    /\ reg_userId reg = rq_userId rq
    /\ reg_tournamentId reg = rq_id rq
    /\ reg_teamSelection reg = JNull.
Proof.
  intros Ht Hsolo Hreg Hcode.
  destruct (register_success_inv _ _ _ _ _ Hreg Hcode)
    as (t0 & u & s & rid & Hadm & _ & Hr & _ & _ & Hrs).
  destruct Hadm as (_ & _ & Ht0 & _ & _).
  rewrite Ht in Ht0. injection Ht0 as <-.
  unfold requiresTeamSelection in Hr. rewrite Hsolo in Hr.
  do 5 eexists. split; [exact Hr|]. split; [exact Hrs|].
  simpl. unfold requiresTeamSelection. rewrite Hsolo. repeat split; reflexivity.
Qed.

Lemma solo_team_selection_discarded_witness :
  exists fromDeposit fromWinning newBalance rid reg,
    fst (register no_faults SoloScenario.team_request Scenario.world0)
    = mkResponse 200 (Registered fromDeposit fromWinning newBalance rid JNull)
    /\ registrations (db (snd (register no_faults SoloScenario.team_request Scenario.world0)))
       = (registrations (db Scenario.world0) ++ [reg])%list
    /\ reg_id reg = rid
    /\ reg_userId reg = Scenario.alice_id
    /\ reg_tournamentId reg = Scenario.solo_id
    /\ reg_teamSelection reg = JNull.
Proof.
  apply (solo_team_selection_discarded no_faults Scenario.world0 SoloScenario.team_request
           Scenario.solo).
  - vm_compute. reflexivity.
  - reflexivity.
  - apply surjective_pairing.
  - vm_compute. reflexivity.
Defined.

(** ** Ledger failure during a registration *)

Lemma logTransaction_throw F userId type amount description reference referenceType
    metadata w e wl :
  logTransaction F userId type amount description reference referenceType metadata w
  = (Throw e, wl) ->
  db wl = db w
  /\ console wl = (console w ++ [LogError "Error logging transaction:" e])%list.
Proof.
  rewrite logTransaction_eq.
  destruct (F (TransactionFindOne _ _ _)).
  { intros H. inversion H; subst. split; reflexivity. }
  destruct (find _ _); [discriminate|]. cbv zeta.
  destruct (F (TransactionSave _ _ _)).
  { intros H. inversion H; subst. split; reflexivity. }
  destruct (validate_transaction _); [discriminate|].
  intros H. inversion H; subst. split; reflexivity.
Qed.

(** C6. When the tournament and the user are found, the guards admit the
    call and the balance is deducted, but the entry-fee ledger append throws,
    the registration still completes (its own two saves not failing): the
    error is written to the console, the registration record is created, the
    tournament gains the player, the success reply is returned, and the
    ledger holds no entry for the fee. *)
Theorem ledger_failure_not_fatal F w rq t u s e wl :
  accepts F w rq t u ->
  computeSplit (depositAmount u) (winningAmount u) (entryFee t) = SplitOk s ->
  F (UserSave (rq_userId rq)) = false ->
  logTransaction F (rq_userId rq) "entry_fee" (- entryFee t)
    ("Entry fee for tournament: " ++ tournamentId t) (rq_id rq) "tournament_id"
    (mkMetadata (Some (rq_id rq)) None None None) (after_deduction w rq u s)
  = (Throw e, wl) ->
  registration_save_error F (db w)
    (new_registration (nextId wl) rq t u (freeFireId_of rq)) = None ->
  F (TournamentSave (rq_id rq)) = false ->
  let r := fst (register F rq w) in
  let w' := snd (register F rq w) in
  r = mkResponse 200
        (Registered (deductedFromDeposit s) (deductedFromWinning s)
           (newDeposit s + newWinning s) (nextId wl)
           (if requiresTeamSelection t then rq_teamSelection rq else JNull))
  /\ console w'
     = (console w ++ [LogError "Error logging transaction:" e;
                      LogError "Error logging entry fee transaction:" e])%list
  /\ registrations (db w')
     = (registrations (db w)
        ++ [new_registration (nextId wl) rq t u (freeFireId_of rq)])%list
  /\ tournaments (db w') !! rq_id rq
     = Some (tournament_after_registration t (rq_userId rq))
  /\ users (db w') !! rq_userId rq
     = Some (with_balances u (newDeposit s) (newWinning s))
  /\ transactions (db w') = transactions (db w).
Proof.
  intros Hadm Hs HF Hlog Hreg HFt r w'. subst r w'.
  destruct (register_accepted _ _ _ _ _ _ Hadm Hs HF)
    as (w2 & Hfee & Hus & Hts & Hrs & Hw).
  destruct (logTransaction_throw _ _ _ _ _ _ _ _ _ _ _ Hlog) as (Hdb & Hcons).
  assert (Hw2 : w2 = mkWorld (db wl) (nextId wl)
                       (console wl
                        ++ [LogError "Error logging entry fee transaction:" e])).
  { unfold logEntryFee, try_catch, bind in Hfee. unfold after_deduction in Hlog.
    rewrite Hlog in Hfee. unfold console_error in Hfee. congruence. }
  subst w2. simpl in Hw. rewrite Hreg, HFt in Hw. rewrite Hw. simpl.
  rewrite Hdb, Hcons. simpl. rewrite !lookup_insert_eq, <- app_assoc.
  repeat split; reflexivity.
Qed.

Lemma ledger_failure_not_fatal_witness :
  let r := fst (register LedgerFaultScenario.ledger_faults Scenario.alice_request
                  Scenario.world0) in
  let w' := snd (register LedgerFaultScenario.ledger_faults Scenario.alice_request
                   Scenario.world0) in
  r = mkResponse 200 (Registered 30 10 10 1 JNull)
  /\ console w'
     = [LogError "Error logging transaction:" DbFailure;
        LogError "Error logging entry fee transaction:" DbFailure]
  /\ registrations (db w')
     = [new_registration 1 Scenario.alice_request Scenario.solo Scenario.alice "123456"]
  /\ tournaments (db w') !! Scenario.solo_id
     = Some (tournament_after_registration Scenario.solo Scenario.alice_id)
  /\ users (db w') !! Scenario.alice_id = Some (with_balances Scenario.alice 0 10)
  /\ transactions (db w') = [].
Proof.
  apply (ledger_failure_not_fatal LedgerFaultScenario.ledger_faults Scenario.world0
           Scenario.alice_request Scenario.solo Scenario.alice (mkSplit 30 10 0 10)
           DbFailure
           (mkWorld (db (after_deduction Scenario.world0 Scenario.alice_request
                           Scenario.alice (mkSplit 30 10 0 10)))
              1 [LogError "Error logging transaction:" DbFailure])).
  - unfold accepts. repeat split; vm_compute; reflexivity.
  - vm_compute. reflexivity.
  - reflexivity.
  - vm_compute. reflexivity.
  - vm_compute. reflexivity.
  - reflexivity.
Defined.

(** ** Validation of the registration input *)

(** C8 (as stated, it fails).  For a solo tournament Alice sends the Free
    Fire id "0", which is not a positive integer, a team selection, which the
    tournament does not call for, and the string "no" as acceptance of the
    terms: the call is not rejected, she is registered and charged. *)
Lemma input_validation_counterexample :
  teamSize Scenario.solo = Some ts_1vs1
  /\ rq_freeFireId SoloScenario.loose_request = JStr "0"
  /\ rq_teamSelection SoloScenario.loose_request = JStr "team_a"
  /\ rq_termsAccepted SoloScenario.loose_request = JStr "no"
  /\ fst (register no_faults SoloScenario.loose_request Scenario.world0)
     = mkResponse 200 (Registered 30 10 10 1 JNull)
  /\ users (db (snd (register no_faults SoloScenario.loose_request Scenario.world0)))
       !! Scenario.alice_id
     = Some (with_balances Scenario.alice 0 10)
  /\ map reg_freeFireId
       (registrations
          (db (snd (register no_faults SoloScenario.loose_request Scenario.world0))))
     = ["0"].
Proof. vm_compute. repeat split; reflexivity. Qed.

(** C8 (amended).  A registration call is rejected, with no change to the
    stored data, unless the Free Fire id is a string that, once trimmed, is a
    non-empty run of decimal digits, the terms acceptance is truthy, and, when
    the team size is 2v2, 4v4 or 6v6, the team selection is team_a or team_b
    ([valid_input]). *)
Theorem invalid_input_rejected F w rq t :
  tournaments (db w) !! rq_id rq = Some t ->
  valid_input t rq = false ->
  statusCode (fst (register F rq w)) <> 200
  /\ db (snd (register F rq w)) = db w.
Proof.
  intros Ht Hinvalid. apply register_read_rejects.
  intros a w1 Hread.
  apply register_read_val in Hread as (_ & Hadm & _).
  destruct Hadm as (_ & _ & Ht' & _ & Hg).
  rewrite Ht in Ht'. injection Ht' as ->.
  unfold guards_pass in Hg. split_andb. congruence.
Qed.

Lemma invalid_input_rejected_witness :
  statusCode
    (fst (register no_faults
            (mkRegisterRequest Scenario.alice_id Scenario.solo_id (JStr "12a")
               (JBool true) JUndefined)
            Scenario.world0)) <> 200
  /\ db (snd (register no_faults
                (mkRegisterRequest Scenario.alice_id Scenario.solo_id (JStr "12a")
                   (JBool true) JUndefined)
                Scenario.world0))
     = db Scenario.world0.
Proof.
  apply (invalid_input_rejected no_faults Scenario.world0 _ Scenario.solo).
  - vm_compute. reflexivity.
  - vm_compute. reflexivity.
Defined.

(** ** Idempotence of the ledger *)

Lemma tx_has_key_spec userId reference referenceType t :
  tx_has_key userId reference referenceType t = true
  <-> tx_key t = (userId, reference, referenceType).
Proof.
  unfold tx_has_key, tx_key. rewrite !andb_true_iff, !String.eqb_eq.
  split; [intros [[-> ->] ->]; reflexivity|intros [= -> -> ->]; auto].
Qed.

Lemma filter_none_of_find {A} (p : A -> bool) (l : list A) :
  find p l = None -> List.filter p l = [].
Proof.
  induction l as [|x l IH]; simpl; [reflexivity|].
  destruct (p x); [discriminate|exact IH].
Qed.

Lemma entries_with_key_unique userId reference referenceType l e :
  ledger_unique l ->
  find (tx_has_key userId reference referenceType) l = Some e ->
  entries_with_key userId reference referenceType l = [e].
Proof.
  unfold ledger_unique, entries_with_key.
  induction l as [|x l IH]; simpl; [discriminate|].
  intros Hnd Hfind. apply NoDup_cons in Hnd as [Hnotin Hnd].
  destruct (tx_has_key userId reference referenceType x) eqn:Hx.
  - injection Hfind as ->. f_equal.
    destruct (List.filter _ l) as [|y l'] eqn:Hfilter; [reflexivity|].
    exfalso. apply Hnotin.
    assert (Hy : In y (List.filter (tx_has_key userId reference referenceType) l))
      by (rewrite Hfilter; left; reflexivity).
    apply filter_In in Hy as [Hin Hkey].
    apply tx_has_key_spec in Hx, Hkey. rewrite Hx, <- Hkey.
    apply list_elem_of_In, in_map, Hin.
  - apply IH; assumption.
Qed.

Lemma find_snoc_new {A} (p : A -> bool) (l : list A) (x : A) :
  find p l = None -> p x = true -> find p (l ++ [x]) = Some x.
Proof.
  induction l as [|y l IH]; simpl; intros Hnone Hx.
  - rewrite Hx. reflexivity.
  - destruct (p y); [discriminate|]. apply IH; assumption.
Qed.

(** The unique index is an invariant of [logTransaction]. *)
Lemma logTransaction_keeps_unique F userId type amount description reference
    referenceType metadata w o w' :
  logTransaction F userId type amount description reference referenceType metadata w
  = (o, w') ->
  ledger_unique (transactions (db w)) ->
  ledger_unique (transactions (db w')).
Proof.
  rewrite logTransaction_eq. intros H Hu.
  destruct (F (TransactionFindOne _ _ _)); [inversion H; subst; exact Hu|].
  destruct (find _ _) eqn:Hfind; [inversion H; subst; exact Hu|]. cbv zeta in H.
  destruct (F (TransactionSave _ _ _)); [inversion H; subst; exact Hu|].
  destruct (validate_transaction _); inversion H; subst; [|exact Hu].
  simpl. unfold ledger_unique. rewrite map_app. apply NoDup_app.
  split; [exact Hu|]. split; [|apply NoDup_singleton].
  intros k Hk Hk'. apply list_elem_of_In in Hk, Hk'. simpl in Hk'.
  destruct Hk' as [<- | []].
  apply in_map_iff in Hk as (y & Hy & Hin).
  pose proof (find_none _ _ Hfind y Hin) as Hno.
  assert (Hyes : tx_has_key userId reference referenceType y = true)
    by (apply tx_has_key_spec; exact Hy).
  congruence.
Qed.

(** C3. Appending twice under one key (userId, reference, referenceType):
    once the first call has returned an entry, the second call returns that
    same entry, leaves every collection as the first call left it (user
    balances included), and the ledger holds exactly one entry with the key.
    The ledger never touches the users. *)
Theorem ledger_append_idempotent F1 F2 w userId reference referenceType
    type1 amount1 description1 metadata1 type2 amount2 description2 metadata2
    e1 w1 :
  ledger_unique (transactions (db w)) ->
  logTransaction F1 userId type1 amount1 description1 reference referenceType
    metadata1 w = (Val e1, w1) ->
  F2 (TransactionFindOne userId reference referenceType) = false ->
  exists w2,
    logTransaction F2 userId type2 amount2 description2 reference referenceType
      metadata2 w1 = (Val e1, w2)
    /\ db w2 = db w1
    /\ entries_with_key userId reference referenceType (transactions (db w2)) = [e1]
    /\ users (db w1) = users (db w).
Proof.
  intros Hu Hfirst HF2.
  assert (Hfound : find (tx_has_key userId reference referenceType)
                     (transactions (db w1)) = Some e1
                   /\ users (db w1) = users (db w)).
  { rewrite logTransaction_eq in Hfirst.
    destruct (F1 (TransactionFindOne _ _ _)); [discriminate|].
    destruct (find _ (transactions (db w))) eqn:Hfind.
    - inversion Hfirst; subst. simpl. split; [exact Hfind|reflexivity].
    - cbv zeta in Hfirst.
      destruct (F1 (TransactionSave _ _ _)); [discriminate|].
      destruct (validate_transaction _); [|discriminate].
      inversion Hfirst; subst. simpl. split; [|reflexivity].
      apply find_snoc_new; [exact Hfind|].
      apply tx_has_key_spec. reflexivity. }
  destruct Hfound as [Hfound Husers].
  pose proof (logTransaction_keeps_unique _ _ _ _ _ _ _ _ _ _ _ Hfirst Hu) as Hu1.
  eexists. rewrite logTransaction_eq, HF2, Hfound.
  split; [reflexivity|]. simpl. split; [reflexivity|].
  split; [|exact Husers].
  apply entries_with_key_unique; assumption.
Qed.

Lemma ledger_append_idempotent_witness :
  exists e1 w1 w2,
    logTransaction no_faults Scenario.alice_id "entry_fee" (-40) "Entry fee"
      Scenario.solo_id "tournament_id" no_metadata Scenario.world0 = (Val e1, w1)
    /\ logTransaction no_faults Scenario.alice_id "entry_fee" (-40) "Retry"
         Scenario.solo_id "tournament_id" no_metadata w1 = (Val e1, w2)
    /\ db w2 = db w1
    /\ entries_with_key Scenario.alice_id Scenario.solo_id "tournament_id"
         (transactions (db w2)) = [e1]
    /\ users (db w1) = users (db Scenario.world0).
Proof.
  eexists _, _.
  assert (Hfirst :
            logTransaction no_faults Scenario.alice_id "entry_fee" (-40) "Entry fee"
              Scenario.solo_id "tournament_id" no_metadata Scenario.world0
            = (Val (mkTransaction 0 Scenario.alice_id "entry_fee" (-40) "Entry fee"
                      Scenario.solo_id "tournament_id" no_metadata "completed"),
               snd (logTransaction no_faults Scenario.alice_id "entry_fee" (-40)
                      "Entry fee" Scenario.solo_id "tournament_id" no_metadata
                      Scenario.world0))).
  { rewrite logTransaction_eq. reflexivity. }
  destruct (ledger_append_idempotent no_faults no_faults Scenario.world0
              Scenario.alice_id Scenario.solo_id "tournament_id"
              "entry_fee" (-40) "Entry fee" no_metadata
              "entry_fee" (-40) "Retry" no_metadata _ _
              ltac:(apply NoDup_nil; exact I) Hfirst eq_refl)
    as (w2 & Hsecond & Hdb & Hone & Husers).
  exists w2. split; [exact Hfirst|]. repeat split; assumption.
Defined.

(** ** Award of winnings *)

(** What [logTransaction] leaves alone, whatever its outcome. *)
Lemma logTransaction_frame F userId type amount description reference referenceType
    metadata w o w' :
  logTransaction F userId type amount description reference referenceType metadata w
  = (o, w') ->
  users (db w') = users (db w)
  /\ tournaments (db w') = tournaments (db w)
  /\ registrations (db w') = registrations (db w)
  /\ (forall r, o <> Reply r)
  /\ (exists l, transactions (db w') = (transactions (db w) ++ l)%list).
Proof.
  rewrite logTransaction_eq. intros H.
  destruct (F (TransactionFindOne _ _ _)).
  { inversion H; subst. repeat split; try discriminate. exists []. symmetry. apply app_nil_r. }
  destruct (find _ _).
  { inversion H; subst. repeat split; try discriminate. exists []. symmetry. apply app_nil_r. }
  cbv zeta in H.
  destruct (F (TransactionSave _ _ _)).
  { inversion H; subst. repeat split; try discriminate. exists []. symmetry. apply app_nil_r. }
  destruct (validate_transaction _); inversion H; subst.
  - repeat split; try discriminate. eexists. reflexivity.
  - repeat split; try discriminate. exists []. symmetry. apply app_nil_r.
Qed.

(** An entry returned by [logTransaction] is stored under the key asked for. *)
Lemma logTransaction_val F userId type amount description reference referenceType
    metadata w e w' :
  logTransaction F userId type amount description reference referenceType metadata w
  = (Val e, w') ->
  In e (transactions (db w'))
  /\ tx_has_key userId reference referenceType e = true.
Proof.
  rewrite logTransaction_eq. intros H.
  destruct (F (TransactionFindOne _ _ _)); [discriminate|].
  destruct (find _ _) eqn:Hfind.
  { inversion H; subst. simpl. apply find_some in Hfind. exact Hfind. }
  cbv zeta in H.
  destruct (F (TransactionSave _ _ _)); [discriminate|].
  destruct (validate_transaction _); inversion H; subst. simpl. split.
  - apply in_or_app. right. left. reflexivity.
  - apply tx_has_key_spec. reflexivity.
Qed.



(** One iteration of the award loop, case by case. *)
Lemma awardWinner_eq F tid t winner w :
  awardWinner F tid t winner w =
    let userId := w_userId winner in
    if F (UserFindById userId) then (Throw DbFailure, w)
    else
      match users (db w) !! userId with
      | None => (Val (AwardFailed userId "User not found"), w)
      | Some u =>
          if F (UserSave userId) then (Throw DbFailure, w)
          else
            let u' := with_balances u (depositAmount u)
                        (winningAmount u + w_amount winner) in
            let w1 := mkWorld (set_users (db w) (<[userId := u']> (users (db w))))
                        (nextId w) (console w) in
            match logTransaction F userId "winning" (w_amount winner)
                    ("Tournament winnings - " ++ tournamentId t ++ " (Position "
                     ++ show_Z (w_position winner) ++ ")")
                    (award_reference tid userId (w_position winner)) "tournament_id"
                    (mkMetadata (Some tid) None None None) w1 with
            | (Val _, w2) =>
                (Val (AwardOk userId (w_amount winner) (winningAmount u')
                        (depositAmount u' + winningAmount u')), w2)
            | (Reply r, w2) => (Reply r, w2)
            | (Throw e, w2) =>
                (Val (AwardFailed userId "Failed to log transaction"),
                 mkWorld (db w2) (nextId w2)
                   (console w2
                    ++ [LogError "Error logging winning transaction:" e]))
            end
      end.
Proof.
  unfold awardWinner, User_findById, User_save, db_call. cbv zeta.
  destruct (F (UserFindById (w_userId winner))); [reflexivity|].
  unfold bind at 1. unfold bind at 1. unfold get_db, ret.
  destruct (users (db w) !! w_userId winner) as [u|] eqn:Hu; [|reflexivity].
  destruct (F (UserSave (w_userId winner))); [reflexivity|].
  unfold bind at 1. unfold bind at 1. unfold get_db. rewrite Hu.
  unfold put_db, try_catch, bind. simpl.
  destruct (logTransaction _ _ _ _ _ _ _ _ _) as [[e | r | e] w2]; reflexivity.
Qed.











(** The batch of the scenario, evaluated: two successes around one
    not-found failure, and the first and third users credited. *)
Example award_three_winners :
  fst (awardWinnings no_faults AwardScenario.award_request AwardScenario.award_world)
  = mkResponse 200
      (WinningsProcessed AwardScenario.finals_id
         [AwardOk Scenario.alice_id 50 70 100;
          AwardFailed AwardScenario.ghost_id "User not found";
          AwardOk Scenario.bob_id 20 20 120])
  /\ (winningAmount <$>
        users (db (snd (awardWinnings no_faults AwardScenario.award_request
                          AwardScenario.award_world))) !! Scenario.alice_id) = Some 70
  /\ (winningAmount <$>
        users (db (snd (awardWinnings no_faults AwardScenario.award_request
                          AwardScenario.award_world))) !! Scenario.bob_id) = Some 20
  /\ map tx_reference
       (transactions (db (snd (awardWinnings no_faults AwardScenario.award_request
                                 AwardScenario.award_world))))
     = ["64c8a0000000000000000009_64b7f0000000000000000001_1";
        "64c8a0000000000000000009_64b7f0000000000000000002_3"].
Proof. vm_compute. repeat split; reflexivity. Qed.

(** *** ObjectIds *)


Lemma lower_is_hex c : is_lower_hex_digit c = true -> is_hex_digit c = true.
Proof. unfold is_hex_digit. intros ->. reflexivity. Qed.

Lemma lower_hex_digit_id c : is_lower_hex_digit c = true -> lower_hex_digit c = c.
Proof.
  unfold is_lower_hex_digit, lower_hex_digit, is_digit. cbv zeta.
  destruct (Nat.leb 65 (nat_of_ascii c) && Nat.leb (nat_of_ascii c) 70) eqn:E;
    [|reflexivity].
  apply andb_prop in E as [E1 E2]. apply Nat.leb_le in E1, E2.
  intros H. apply orb_prop in H as [H | H]; apply andb_prop in H as [H1 H2];
    apply Nat.leb_le in H1, H2; lia.
Qed.

Lemma object_id_castable s :
  is_object_id s = true -> castable_id s = true /\ printed_id s = s.
Proof.
  unfold is_object_id, castable_id. intros H. apply andb_prop in H as [-> H].
  cbn [andb]. induction s as [|c s IH]; [split; reflexivity|].
  cbn in H |- *. apply andb_prop in H as [Hc Hs]. destruct (IH Hs) as [IH1 IH2].
  rewrite (lower_is_hex _ Hc), IH1, (lower_hex_digit_id _ Hc), IH2. split; reflexivity.
Qed.




(** ** Non-negative balances *)

Lemma route_db context on_error m w :
  db (snd (route context on_error m w)) = db (snd (m w)).
Proof. unfold route. destruct (m w) as [[a | r | e] w']; reflexivity. Qed.

Lemma nonneg_balances_users d d' :
  users d' = users d -> nonneg_balances d -> nonneg_balances d'.
Proof. unfold nonneg_balances. intros ->. trivial. Qed.

Lemma nonneg_balances_insert d d' userId u :
  users d' = <[userId := u]> (users d) ->
  0 <= depositAmount u -> 0 <= winningAmount u ->
  nonneg_balances d -> nonneg_balances d'.
Proof.
  unfold nonneg_balances. intros -> Hd Hw Hall.
  apply map_Forall_insert_2; [split; assumption|exact Hall].
Qed.

(** The users after a registration call: untouched, or the caller debited by
    the split. *)
Lemma register_users F rq w :
  users (db (snd (register F rq w))) = users (db w)
  \/ exists t u s,
       users (db w) !! rq_userId rq = Some u
       /\ computeSplit (depositAmount u) (winningAmount u) (entryFee t) = SplitOk s
       /\ users (db (snd (register F rq w)))
          = <[rq_userId rq := with_balances u (newDeposit s) (newWinning s)]>
              (users (db w)).
Proof.
  destruct (register_read F rq w) as [[a | r0 | e] w1] eqn:Hread.
  - apply register_read_val in Hread as (-> & Hadm & Hs & Hffid).
    destruct a as [t u s ffid]. simpl in *.
    destruct (F (UserSave (rq_userId rq))) eqn:HF.
    + left. rewrite (register_user_save_fault _ _ _ _ _ _ Hadm Hs HF). reflexivity.
    + right. exists t, u, s.
      destruct (register_accepted _ _ _ _ _ _ Hadm Hs HF)
        as (w2 & _ & Hus & _ & _ & Hw).
      simpl in Hw. destruct Hadm as (_ & _ & _ & Hu & _).
      split; [exact Hu|]. split; [exact Hs|].
      destruct (registration_save_error _ _ _).
      * rewrite Hw. exact Hus.
      * destruct (F (TournamentSave _)); rewrite Hw; exact Hus.
  - left. destruct (register_read_rejects F rq w) as [_ Hdb]; [|rewrite Hdb; reflexivity].
    intros a w2. rewrite Hread. discriminate.
  - left. destruct (register_read_rejects F rq w) as [_ Hdb]; [|rewrite Hdb; reflexivity].
    intros a w2. rewrite Hread. discriminate.
Qed.

Lemma register_nonneg F rq w :
  nonneg_balances (db w) -> nonneg_balances (db (snd (register F rq w))).
Proof.
  intros Hnn. destruct (register_users F rq w) as [Hsame | (t & u & s & Hu & Hs & Hus)].
  - exact (nonneg_balances_users _ _ Hsame Hnn).
  - apply computeSplit_ok_inv in Hs as [Hle ->].
    pose proof (map_Forall_lookup_1 _ _ _ _ Hnn Hu) as [Hd Hw]. simpl in Hd, Hw.
    apply (nonneg_balances_insert _ _ _ _ Hus); [simpl; lia|simpl; lia|exact Hnn].
Qed.

Lemma awardWinner_nonneg F tid t winner w o w' :
  awardWinner F tid t winner w = (o, w') ->
  0 <= w_amount winner ->
  nonneg_balances (db w) -> nonneg_balances (db w').
Proof.
  rewrite awardWinner_eq. cbv zeta. intros H Hamount Hnn.
  destruct (F (UserFindById _)); [inversion H; subst; exact Hnn|].
  destruct (users (db w) !! w_userId winner) as [u|] eqn:Hu;
    [|inversion H; subst; exact Hnn].
  destruct (F (UserSave _)); [inversion H; subst; exact Hnn|].
  destruct (logTransaction _ _ _ _ _ _ _ _ _) as [o2 w2] eqn:Hlog.
  destruct (logTransaction_frame _ _ _ _ _ _ _ _ _ _ _ Hlog) as (Hus & _).
  simpl in Hus.
  pose proof (map_Forall_lookup_1 _ _ _ _ Hnn Hu) as [Hd Hw]. simpl in Hd, Hw.
  assert (Hnn2 : nonneg_balances (db w2))
    by (apply (nonneg_balances_insert _ _ _ _ Hus); simpl; [lia|lia|exact Hnn]).
  destruct o2; inversion H; subst; exact Hnn2.
Qed.

Lemma awardLoop_nonneg F tid t winners :
  (forall winner, In winner winners -> 0 <= w_amount winner) ->
  forall acc w o w',
    awardLoop F tid t winners acc w = (o, w') ->
    nonneg_balances (db w) -> nonneg_balances (db w').
Proof.
  induction winners as [|winner rest IH]; intros Hpos acc w o w' H Hnn.
  - inversion H; subst. exact Hnn.
  - simpl in H. unfold bind in H.
    destruct (awardWinner F tid t winner w) as [o1 w1] eqn:Hstep.
    pose proof (awardWinner_nonneg _ _ _ _ _ _ _ Hstep
                  (Hpos winner (or_introl eq_refl)) Hnn) as Hnn1.
    destruct o1; [|inversion H; subst; exact Hnn1..].
    exact (IH (fun x Hx => Hpos x (or_intror Hx)) _ _ _ _ H Hnn1).
Qed.

Lemma awardWinnings_nonneg F rq w :
  (forall winner, In winner (aw_winners rq) -> 0 <= w_amount winner) ->
  nonneg_balances (db w) -> nonneg_balances (db (snd (awardWinnings F rq w))).
Proof.
  intros Hpos Hnn. unfold awardWinnings. rewrite route_db.
  unfold bind at 1. unfold return_if at 1.
  destruct (negb _); [exact Hnn|]. unfold ret at 1.
  unfold bind at 1. unfold return_if at 1.
  destruct (String.eqb _ _); [exact Hnn|]. unfold ret at 1.
  unfold bind at 1, Tournament_findById, db_call.
  destruct (F (TournamentFindById _)); [exact Hnn|].
  unfold bind at 1. unfold get_db, ret.
  destruct (tournaments (db w) !! aw_tournamentId rq) as [t|]; [|exact Hnn].
  unfold bind at 1. unfold return_if at 1.
  destruct (negb _); [exact Hnn|]. unfold ret at 1.
  unfold bind.
  destruct (awardLoop F (aw_tournamentId rq) t (aw_winners rq) [] w) as [o w'] eqn:Hloop.
  pose proof (awardLoop_nonneg _ _ _ _ Hpos _ _ _ _ Hloop Hnn) as Hnn'.
  destruct o; exact Hnn'.
Qed.

Lemma adminBalanceUpdate_nonneg u type amount u' :
  adminBalanceUpdate u type amount = Some u' ->
  (is_debit type = false -> 0 <= amount) ->
  0 <= depositAmount u -> 0 <= winningAmount u ->
  0 <= depositAmount u' /\ 0 <= winningAmount u'.
Proof.
  unfold adminBalanceUpdate. intros H Hamount Hd Hw.
  destruct (String.eqb type "deposit") eqn:E1.
  { apply String.eqb_eq in E1. subst type. injection H as <-. simpl.
    specialize (Hamount eq_refl). lia. }
  destruct (String.eqb type "winning") eqn:E2.
  { apply String.eqb_eq in E2. subst type. injection H as <-. simpl.
    specialize (Hamount eq_refl). lia. }
  destruct (is_debit type); [|injection H as <-; lia].
  destruct (Z.ltb_spec (depositAmount u + winningAmount u) (Z.abs amount));
    [discriminate|].
  destruct (Z.leb_spec (Z.abs amount) (depositAmount u));
    injection H as <-; simpl; lia.
Qed.

Lemma adminTransaction_nonneg F rq w :
  (is_debit (at_type rq) = false -> 0 <= at_amount rq) ->
  nonneg_balances (db w) -> nonneg_balances (db (snd (adminTransaction F rq w))).
Proof.
  intros Hamount Hnn. unfold adminTransaction. rewrite route_db.
  unfold bind at 1. unfold return_if at 1.
  destruct (negb _); [exact Hnn|]. unfold ret at 1.
  unfold bind at 1. unfold return_if at 1.
  destruct (_ || _); [exact Hnn|]. unfold ret at 1.
  unfold bind at 1. unfold return_if at 1.
  destruct (negb _); [exact Hnn|]. unfold ret at 1.
  unfold bind at 1, User_findById, db_call.
  destruct (F (UserFindById _)); [exact Hnn|].
  unfold bind at 1. unfold get_db, ret.
  destruct (users (db w) !! at_userId rq) as [u|] eqn:Hu; [|exact Hnn].
  destruct (adminBalanceUpdate u (at_type rq) (at_amount rq)) as [u'|] eqn:Hupd;
    [|exact Hnn].
  pose proof (map_Forall_lookup_1 _ _ _ _ Hnn Hu) as [Hd Hw]. simpl in Hd, Hw.
  destruct (adminBalanceUpdate_nonneg _ _ _ _ Hupd Hamount Hd Hw) as [Hd' Hw'].
  unfold bind at 1, User_save, db_call.
  destruct (F (UserSave _)); [exact Hnn|].
  unfold bind at 1. unfold get_db. rewrite Hu. unfold put_db.
  unfold bind.
  destruct (logTransaction _ _ _ _ _ _ _ _ _) as [o w2] eqn:Hlog.
  destruct (logTransaction_frame _ _ _ _ _ _ _ _ _ _ _ Hlog) as (Hus & _).
  simpl in Hus.
  assert (Hnn2 : nonneg_balances (db w2))
    by (apply (nonneg_balances_insert _ _ _ _ Hus); assumption).
  destruct o; exact Hnn2.
Qed.

Lemma scenario_users_nonneg : nonneg_balances (db AwardScenario.award_world).
Proof.
  unfold nonneg_balances. simpl. unfold Scenario.some_users.
  apply map_Forall_insert_2; [simpl; lia|].
  apply map_Forall_insert_2; [simpl; lia|].
  apply map_Forall_empty.
Qed.

(** C5 (as stated, it fails).  The award call accepts a negative amount:
    starting from non-negative balances, awarding -50 to Alice, whose winning
    balance is 20, leaves her with a winning balance of -30.  And the second
    step of a debit has no check of its own: a withdrawal of 20.1 from a
    deposit balance of 10 and a winning balance of 10.1 passes the check of
    the rounded total and leaves a winning balance below zero. *)
Lemma nonneg_balances_counterexample :
  nonneg_balances (db AwardScenario.award_world)
  /\ fst (awardWinnings no_faults AwardScenario.negative_request AwardScenario.award_world)
     = mkResponse 200
         (WinningsProcessed AwardScenario.finals_id
            [AwardOk Scenario.alice_id (-50) (-30) 0])
  /\ (winningAmount <$>
        users (db (snd (awardWinnings no_faults AwardScenario.negative_request
                          AwardScenario.award_world))) !! Scenario.alice_id) = Some (-30)
  /\ ~ nonneg_balances
         (db (snd (awardWinnings no_faults AwardScenario.negative_request
                     AwardScenario.award_world)))
  /\ nonneg_pair (mkBalances 10 Decimals.ten_point_one)
  /\ finite_pair (mkBalances 10 Decimals.ten_point_one)
  /\ exists saved,
       adminBalances "withdrawal" Decimals.twenty_point_one
         (mkBalances 10 Decimals.ten_point_one) = Some saved
       /\ deposit saved = 0%float
       /\ (winning saved <? 0)%float = true.
Proof.
  split; [exact scenario_users_nonneg|].
  split; [vm_compute; reflexivity|].
  assert (Hafter :
            users (db (snd (awardWinnings no_faults AwardScenario.negative_request
                              AwardScenario.award_world))) !! Scenario.alice_id
            = Some (mkUser "Alice" "alice@example.com" "" None "" (-30) 30))
    by (vm_compute; reflexivity).
  split; [rewrite Hafter; reflexivity|].
  split.
  { intros Hnn. pose proof (map_Forall_lookup_1 _ _ _ _ Hnn Hafter) as [_ Hw].
    simpl in Hw. lia. }
  split; [split; vm_compute; reflexivity|].
  split; [split; vm_compute; reflexivity|].
  eexists. split; [vm_compute; reflexivity|]. split; vm_compute; reflexivity.
Qed.


(** C5 (amended).  From a state in which both balances of every user are
    finite and not negative: a registration call leaves them not negative;
    an award call leaves them not negative when every awarded amount is not
    negative; a manual admin transaction leaves them not negative when its
    amount is not negative, for the types deposit and winning, and, for the
    types entry_fee and withdrawal, when the deposit balance covers the
    absolute amount or the winning balance covers what the deposit balance
    leaves of it (the difference as rounded).  The first three parts are
    about the handlers, on states of whole-number amounts; the last three
    are the same steps on the doubles of one user document. *)
Theorem nonneg_balances_preserved :
  (forall F rq w,
     nonneg_balances (db w) -> nonneg_balances (db (snd (register F rq w))))
  /\ (forall F rq w,
        (forall winner, In winner (aw_winners rq) -> 0 <= w_amount winner) ->
        nonneg_balances (db w) ->
        nonneg_balances (db (snd (awardWinnings F rq w))))
  /\ (forall F rq w,
        (is_debit (at_type rq) = false -> 0 <= at_amount rq) ->
        (is_debit (at_type rq) = true ->
         forall u, users (db w) !! at_userId rq = Some u ->
                   Z.abs (at_amount rq) <= depositAmount u
                   \/ Z.abs (at_amount rq) - depositAmount u <= winningAmount u) ->
        nonneg_balances (db w) ->
        nonneg_balances (db (snd (adminTransaction F rq w))))
  /\ (forall entryFee user,
        nonneg_pair user -> finite_pair user ->
        nonneg_pair (balances_after_deduction entryFee user))
  /\ (forall amount user,
        nonneg amount = true -> nonneg_pair user ->
        nonneg_pair (creditWinnings amount user))
  /\ (forall type amount user user',
        adminBalances type amount user = Some user' ->
        nonneg_pair user -> finite_pair user ->
        (is_debit type = false -> nonneg amount = true) ->
        (is_debit type = true ->
         (PrimFloat.abs amount <=? deposit user)%float = true
         \/ (PrimFloat.abs amount - deposit user <=? winning user)%float = true) ->
        nonneg_pair user').
Proof.
  split; [exact register_nonneg|].
  split; [exact awardWinnings_nonneg|].
  split; [intros F rq w Hcredit _; exact (adminTransaction_nonneg F rq w Hcredit)|].
  split; [exact deduction_keeps_nonneg|].
  split; [exact credit_keeps_nonneg|exact adminBalances_keeps_nonneg].
Qed.

Lemma nonneg_balances_preserved_witness :
  nonneg_balances
    (db (snd (register no_faults Scenario.alice_request Scenario.world0)))
  /\ nonneg_balances
       (db (snd (awardWinnings no_faults AwardScenario.award_request
                   AwardScenario.award_world)))
  /\ nonneg_balances
       (db (snd (adminTransaction no_faults
                   (mkAdminTxRequest "admin" Scenario.alice_id "withdrawal" (-25)
                      "Manual withdrawal" "wd-1" "withdrawal_id" no_metadata)
                   AwardScenario.award_world)))
  /\ nonneg_pair (balances_after_deduction 40 (mkBalances 30 20))
  /\ nonneg_pair (creditWinnings 50 (mkBalances 30 20))
  /\ nonneg_pair (mkBalances 0 (20 - (PrimFloat.abs (-40) - 30))).
Proof.
  destruct nonneg_balances_preserved as (Hreg & Haward & Hadmin & Hded & Hcred & Hupd).
  split; [apply Hreg; exact scenario_users_nonneg|].
  split.
  { apply Haward; [|exact scenario_users_nonneg].
    intros winner [<- | [<- | [<- | []]]]; simpl; lia. }
  split.
  { apply Hadmin; [discriminate | | exact scenario_users_nonneg].
    intros _ u Hu. vm_compute in Hu. injection Hu as <-. left. simpl. lia. }
  split; [apply Hded; split; reflexivity|].
  split; [apply Hcred; [reflexivity | split; reflexivity]|].
  apply (Hupd "withdrawal" (-40)%float (mkBalances 30 20));
    try reflexivity; try discriminate; try (split; reflexivity).
  intros _. right. reflexivity.
Defined.

(** ** Capacity under sequential and interleaved calls *)

Lemma valid_input_teamSize t t' rq :
  teamSize t' = teamSize t -> valid_input t' rq = valid_input t rq.
Proof. unfold valid_input, requiresTeamSelection. intros ->. reflexivity. Qed.

Lemma is_team_not_null v : is_team v = true -> v <> JNull.
Proof. destruct v; discriminate. Qed.

Lemma new_registration_valid rid rq t u :
  rq_userId rq <> "" -> rq_id rq <> "" -> tournamentId t <> "" ->
  valid_input t rq = true ->
  validate_registration (new_registration rid rq t u (freeFireId_of rq)) = true.
Proof.
  intros Hu Hi Ht Hv.
  destruct (valid_input_freeFireId _ _ Hv) as (s & _ & Hd & ->).
  apply digits_only_nonempty in Hd.
  unfold valid_input in Hv. split_andb.
  apply String.eqb_neq in Hu, Hi, Ht.
  unfold validate_registration. simpl. rewrite Hu, Hi, Ht, Hd. simpl.
  unfold requiresTeamSelection in *.
  destruct (multi_member (teamSize t)); simpl in *.
  - match goal with H : is_team _ = true |- _ =>
      rewrite H; pose proof (is_team_not_null _ H) as Hnn end.
    simpl. rewrite bool_decide_eq_false_2 by exact Hnn. reflexivity.
  - reflexivity.
Qed.

Lemma no_conflict r regs :
  (forall r', In r' regs -> reg_tournamentId r' = reg_tournamentId r ->
     reg_userId r' <> reg_userId r /\ reg_freeFireId r' <> reg_freeFireId r) ->
  existsb (reg_conflict r) regs = false.
Proof.
  intros H. destruct (existsb _ _) eqn:E; [|reflexivity].
  apply existsb_exists in E as (r' & Hin & Hc).
  unfold reg_conflict in Hc. apply andb_prop in Hc as [Ht Hc].
  apply String.eqb_eq in Ht. destruct (H r' Hin Ht) as [Hu Hf].
  apply orb_prop in Hc as [Hc | Hc]; apply String.eqb_eq in Hc; contradiction.
Qed.

(** A call that nothing stands against succeeds. *)
Lemma register_succeeds w id t rq :
  tournaments (db w) !! id = Some t ->
  is_upcoming (status t) = true ->
  registeredPlayers t < maxSlots t ->
  id <> "" -> tournamentId t <> "" ->
  eligible w id t rq ->
  no_prior_registration w id [rq] ->
  exists r w' u rid,
    register no_faults rq w = (r, w')
    /\ statusCode r = 200
    /\ users (db w') = <[rq_userId rq := u]> (users (db w))
    /\ tournaments (db w')
       = <[id := tournament_after_registration t (rq_userId rq)]> (tournaments (db w))
    /\ registrations (db w')
       = (registrations (db w) ++ [rid])%list
    /\ reg_userId rid = rq_userId rq
    /\ reg_tournamentId rid = id
    /\ reg_freeFireId rid = freeFireId_of rq.
Proof.
  intros Ht Hup Hfree Hid Htid (Hrq & Huid & Hv & Hm & u & Hu & Hfunds) Hprior.
  subst id.
  assert (Hadm : accepts no_faults w rq t u).
  { unfold accepts, guards_pass. repeat split; try assumption.
    rewrite Hup, Hm, Hv. apply Z.ltb_lt in Hfree. rewrite Hfree. reflexivity. }
  pose proof (computeSplit_ok _ _ _ Hfunds) as Hs.
  destruct (register_accepted no_faults w rq t u _ Hadm Hs eq_refl)
    as (w2 & _ & Hus & Hts & Hrs & Hw).
  cbv zeta in Hw.
  assert (Hsave : registration_save_error no_faults (db w)
                    (new_registration (nextId w2) rq t u (freeFireId_of rq)) = None).
  { unfold registration_save_error. simpl.
    rewrite (new_registration_valid _ _ _ _ Huid Hid Htid Hv). simpl.
    rewrite no_conflict; [reflexivity|].
    intros r' Hin Htr. simpl in *. apply (Hprior r' Hin Htr rq). left. reflexivity. }
  rewrite Hsave in Hw. simpl in Hw.
  do 4 eexists. split; [exact Hw|]. simpl. rewrite Hus.
  repeat split; reflexivity.
Qed.

Lemma register_all_app F l1 l2 w :
  register_all F (l1 ++ l2) w =
    let '(rs1, w1) := register_all F l1 w in
    let '(rs2, w2) := register_all F l2 w1 in
    ((rs1 ++ rs2)%list, w2).
Proof.
  revert w. induction l1 as [|rq l1 IH]; intros w; simpl.
  - destruct (register_all F l2 w). reflexivity.
  - destruct (register F rq w) as [r w1]. rewrite IH.
    destruct (register_all F l1 w1) as [rs1 w2].
    destruct (register_all F l2 w2) as [rs2 w3]. reflexivity.
Qed.

Lemma member_app_false x l y :
  member x l = false -> x <> y -> member x (l ++ [y]) = false.
Proof.
  intros Hl Hne. destruct (member x (l ++ [y])) eqn:E; [|reflexivity].
  apply member_In, in_app_or in E as [Hin | [<- | []]].
  - apply member_In in Hin. congruence.
  - contradiction.
Qed.

(** As long as seats remain, calls served one after the other all succeed. *)
Lemma register_all_accepted id rqs :
  id <> "" ->
  forall w t,
    tournaments (db w) !! id = Some t ->
    is_upcoming (status t) = true ->
    registeredPlayers t + Z.of_nat (length rqs) <= maxSlots t ->
    tournamentId t <> "" ->
    (forall rq, In rq rqs -> eligible w id t rq) ->
    NoDup (map rq_userId rqs) ->
    NoDup (map freeFireId_of rqs) ->
    no_prior_registration w id rqs ->
    exists oks w' t',
      register_all no_faults rqs w = (oks, w')
      /\ length oks = length rqs
      /\ Forall (fun r => statusCode r = 200) oks
      /\ tournaments (db w') !! id = Some t'
      /\ is_upcoming (status t') = true
      /\ maxSlots t' = maxSlots t
      /\ registeredPlayers t' = registeredPlayers t + Z.of_nat (length rqs).
Proof.
  intros Hid. induction rqs as [|rq rest IH];
    intros w t Ht Hup Hseats Htid Hel Hnu Hnf Hprior.
  - exists [], w, t. simpl. repeat split; try assumption; try constructor. lia.
  - simpl length in Hseats.
    apply NoDup_cons in Hnu as [Hu_fresh Hnu], Hnf as [Hf_fresh Hnf].
    rewrite list_elem_of_In in Hu_fresh, Hf_fresh.
    destruct (register_succeeds w id t rq Ht Hup ltac:(lia) Hid Htid
                (Hel rq (or_introl eq_refl)))
      as (r & w1 & u1 & reg & Hreg & Hcode & Hus & Hts & Hrs & Hru & Hrt & Hrf).
    { intros r' Hin Htr rq' [<- | []]. apply (Hprior r' Hin Htr). left. reflexivity. }
    destruct (IH w1 (tournament_after_registration t (rq_userId rq)))
      as (oks & w' & t' & Hall & Hlen & Hok & Ht' & Hup' & Hmax & Hplayers).
    + rewrite Hts. apply lookup_insert_eq.
    + exact Hup.
    + simpl. lia.
    + exact Htid.
    + intros rq' Hin'.
      destruct (Hel rq' (or_intror Hin')) as (Hrq' & Huid' & Hv' & Hm' & u' & Hu' & Hf').
      assert (Hne : rq_userId rq' <> rq_userId rq).
      { intros Heq. apply Hu_fresh. rewrite <- Heq. apply in_map. exact Hin'. }
      unfold eligible. split; [exact Hrq'|]. split; [exact Huid'|].
      split; [rewrite (valid_input_teamSize t) by reflexivity; exact Hv'|].
      split; [simpl; apply member_app_false; assumption|].
      exists u'. split; [|exact Hf'].
      rewrite Hus. rewrite lookup_insert_ne by congruence. exact Hu'.
    + exact Hnu.
    + exact Hnf.
    + intros r' Hin Htr rq' Hin'. rewrite Hrs in Hin.
      apply in_app_or in Hin as [Hold | [<- | []]].
      * apply (Hprior r' Hold Htr). right. exact Hin'.
      * rewrite Hru, Hrf. split.
        -- intros Heq. apply Hu_fresh. rewrite Heq. apply in_map. exact Hin'.
        -- intros Heq. apply Hf_fresh. rewrite Heq. apply in_map. exact Hin'.
    + exists (r :: oks), w', t'. simpl. rewrite Hreg, Hall.
      split; [reflexivity|]. split; [simpl; congruence|].
      split; [constructor; assumption|]. split; [exact Ht'|].
      split; [exact Hup'|]. split; [exact Hmax|].
      rewrite Hplayers. simpl. lia.
Qed.

Lemma split_last {A} (l : list A) n :
  length l = S n -> exists init last, l = (init ++ [last])%list /\ length init = n.
Proof.
  intros Hlen. destruct (exists_last (l := l)) as (init & last & ->).
  - intros ->. discriminate.
  - exists init, last. split; [reflexivity|].
    rewrite length_app in Hlen. simpl in Hlen. lia.
Qed.

(** C9 (as stated, it fails).  A tournament has a single free seat.  Alice
    and Bob register at the same time, each call reaching its first write
    before the other resumes: both pass the capacity check, both are
    admitted, and two registration records are stored for one seat. *)
Lemma capacity_overshoot_counterexample :
  maxSlots LastSeatScenario.duel = 1
  /\ registeredPlayers LastSeatScenario.duel = 0
  /\ (let '(r1, r2, w') :=
        register_interleaved no_faults LastSeatScenario.duel_alice
          LastSeatScenario.duel_bob LastSeatScenario.duel_world in
      r1 = mkResponse 200 (Registered 30 10 10 1 JNull)
      /\ r2 = mkResponse 200 (Registered 40 0 60 3 JNull)
      /\ map reg_userId (registrations (db w')) = [Scenario.alice_id; Scenario.bob_id]
      /\ (registeredPlayers <$> tournaments (db w') !! LastSeatScenario.duel_id)
         = Some 1).
Proof. vm_compute. repeat split; reflexivity. Qed.

(** C9 (amended).  An upcoming tournament has free seats, and one more
    request than there are free seats arrives, from distinct users with
    distinct Free Fire ids, each request eligible.  When the calls are served
    one after the other, each completing before the next starts and no
    database call failing, exactly the free seats are taken: all calls but the
    last are admitted, the last is rejected with the tournament-full reply,
    and afterwards registeredPlayers equals maxSlots. *)
Theorem sequential_capacity w id t rqs :
  id <> "" ->
  tournaments (db w) !! id = Some t ->
  status t = upcoming ->
  tournamentId t <> "" ->
  registeredPlayers t <= maxSlots t ->
  Z.of_nat (length rqs) = maxSlots t - registeredPlayers t + 1 ->
  (forall rq, In rq rqs -> eligible w id t rq) ->
  NoDup (map rq_userId rqs) ->
  NoDup (map freeFireId_of rqs) ->
  no_prior_registration w id rqs ->
  exists oks w' t',
    register_all no_faults rqs w = ((oks ++ [full_reply])%list, w')
    /\ Z.of_nat (length oks) = maxSlots t - registeredPlayers t
    /\ Forall (fun r => statusCode r = 200) oks
    /\ tournaments (db w') !! id = Some t'
    /\ registeredPlayers t' = maxSlots t.
Proof.
  intros Hid Ht Hs Htid Hle Hlen Hel Hnu Hnf Hprior.
  destruct (split_last rqs (Z.to_nat (maxSlots t - registeredPlayers t)))
    as (init & last & -> & Hinit); [lia|].
  rewrite map_app in Hnu, Hnf.
  apply NoDup_app in Hnu as (Hnu & _ & _), Hnf as (Hnf & _ & _).
  destruct (register_all_accepted id init Hid w t Ht) as
    (oks & w' & t' & Hall & Hlen' & Hok & Ht' & Hup' & Hmax & Hplayers).
  - apply is_upcoming_spec. exact Hs.
  - lia.
  - exact Htid.
  - intros rq Hin. apply Hel, in_or_app. left. exact Hin.
  - exact Hnu.
  - exact Hnf.
  - intros r Hin Htr rq Hrq. apply (Hprior r Hin Htr), in_or_app. left. exact Hrq.
  - exists oks, w', t'. rewrite register_all_app, Hall. simpl.
    destruct (Hel last ltac:(apply in_or_app; right; left; reflexivity)) as (Hrq & _).
    destruct (register_guard_replies no_faults w' last t' eq_refl
                ltac:(rewrite Hrq; exact Ht')) as (_ & Hfull & _).
    rewrite (Hfull Hup' ltac:(lia)).
    split; [reflexivity|]. split; [lia|]. split; [exact Hok|].
    split; [exact Ht'|lia].
Qed.

Lemma sequential_capacity_witness :
  exists oks w' t',
    register_all no_faults
      [LastSeatScenario.duel_alice; LastSeatScenario.duel_bob]
      LastSeatScenario.duel_world = ((oks ++ [full_reply])%list, w')
    /\ Z.of_nat (length oks) = 1
    /\ Forall (fun r => statusCode r = 200) oks
    /\ tournaments (db w') !! LastSeatScenario.duel_id = Some t'
    /\ registeredPlayers t' = 1.
Proof.
  apply (sequential_capacity LastSeatScenario.duel_world LastSeatScenario.duel_id
           LastSeatScenario.duel
           [LastSeatScenario.duel_alice; LastSeatScenario.duel_bob]).
  - discriminate.
  - vm_compute. reflexivity.
  - reflexivity.
  - discriminate.
  - simpl. lia.
  - reflexivity.
  - intros rq [<- | [<- | []]].
    + unfold eligible. repeat split; try discriminate; try reflexivity.
      exists Scenario.alice. split; [vm_compute; reflexivity|simpl; lia].
    + unfold eligible. repeat split; try discriminate; try reflexivity.
      exists Scenario.bob. split; [vm_compute; reflexivity|simpl; lia].
  - apply (bool_decide_unpack _). vm_compute. reflexivity.
  - apply (bool_decide_unpack _). vm_compute. reflexivity.
  - intros r [].
Defined.

(** * Further properties of the handlers *)

(** ** Registration: what a call can do to the stored data *)

Lemma logEntryFee_eq F rq t w :
  logEntryFee F rq t w =
    match entry_fee_append F rq t w with
    | (Val _, w2) => (Val tt, w2)
    | (Reply r, w2) => (Reply r, w2)
    | (Throw e, w2) =>
        (Val tt,
         mkWorld (db w2) (nextId w2)
           (console w2 ++ [LogError "Error logging entry fee transaction:" e]))
    end.
Proof.
  unfold logEntryFee, entry_fee_append, try_catch, bind.
  destruct (logTransaction _ _ _ _ _ _ _ _ _) as [[e | r | e] w2]; reflexivity.
Qed.

(** Every outcome of a registration call: either nothing stored changes and
    the reply is not 200, or the read phase accepted the call, the deduction
    was saved, and the call ended at the registration save, at the tournament
    save, or with the success reply. *)
Lemma register_outcome F rq w :
  (statusCode (fst (register F rq w)) <> 200
   /\ db (snd (register F rq w)) = db w)
  \/ exists t u s w2,
       accepts F w rq t u
       /\ computeSplit (depositAmount u) (winningAmount u) (entryFee t) = SplitOk s
       /\ F (UserSave (rq_userId rq)) = false
       /\ logEntryFee F rq t (after_deduction w rq u s) = (Val tt, w2)
       /\ users (db (snd (register F rq w)))
          = <[rq_userId rq := with_balances u (newDeposit s) (newWinning s)]>
              (users (db w))
       /\ transactions (db (snd (register F rq w))) = transactions (db w2)
       /\ let r0 := new_registration (nextId w2) rq t u (freeFireId_of rq) in
          ((exists e,
              registration_save_error F (db w) r0 = Some e
              /\ fst (register F rq w) = register_on_error e
              /\ registrations (db (snd (register F rq w))) = registrations (db w)
              /\ tournaments (db (snd (register F rq w))) = tournaments (db w))
           \/ (registration_save_error F (db w) r0 = None
               /\ F (TournamentSave (rq_id rq)) = true
               /\ fst (register F rq w) = mkResponse 500 (Message "Server error")
               /\ registrations (db (snd (register F rq w)))
                  = (registrations (db w) ++ [r0])%list
               /\ tournaments (db (snd (register F rq w))) = tournaments (db w))
           \/ (registration_save_error F (db w) r0 = None
               /\ F (TournamentSave (rq_id rq)) = false
               /\ fst (register F rq w)
                  = mkResponse 200
                      (Registered (deductedFromDeposit s) (deductedFromWinning s)
                         (newDeposit s + newWinning s) (nextId w2)
                         (if requiresTeamSelection t
                          then rq_teamSelection rq else JNull))
               /\ registrations (db (snd (register F rq w)))
                  = (registrations (db w) ++ [r0])%list
               /\ tournaments (db (snd (register F rq w)))
                  = <[rq_id rq := tournament_after_registration t (rq_userId rq)]>
                      (tournaments (db w)))).
Proof.
  destruct (register_read F rq w) as [[a | r0 | e] w1] eqn:Hread.
  - apply register_read_val in Hread as (-> & Hadm & Hs & Hffid).
    destruct a as [t u s ffid]. simpl in *.
    destruct (F (UserSave (rq_userId rq))) eqn:HF.
    + left. rewrite (register_user_save_fault _ _ _ _ _ _ Hadm Hs HF). simpl.
      split; [lia|reflexivity].
    + right. exists t, u, s.
      destruct (register_accepted _ _ _ _ _ _ Hadm Hs HF)
        as (w2 & Hlog & Hus & Hts & Hrs & Hw).
      exists w2. cbv zeta in Hw.
      split; [exact Hadm|]. split; [exact Hs|]. split; [reflexivity|].
      split; [exact Hlog|].
      destruct (registration_save_error F (db w) _) as [e|] eqn:Hsave.
      * rewrite Hw. simpl. split; [exact Hus|]. split; [reflexivity|].
        left. exists e. repeat split; assumption.
      * destruct (F (TournamentSave (rq_id rq))) eqn:HFt; rewrite Hw; simpl.
        -- split; [exact Hus|]. split; [reflexivity|].
           right. left. repeat split; try assumption; reflexivity.
        -- split; [exact Hus|]. split; [reflexivity|].
           right. right. repeat split; try assumption; reflexivity.
  - left. apply register_read_rejects.
    intros a w2. rewrite Hread. discriminate.
  - left. apply register_read_rejects.
    intros a w2. rewrite Hread. discriminate.
Qed.

(** ** Registration: amounts charged *)

(** X2. A successful registration charges the caller and nobody else: the
    stored users change at the caller only, and there only in the two
    balances; the new balance of the reply is the sum of the two stored
    balances.  The deposit balance is used first: the winning balance is
    drawn on only by a call that takes the whole deposit balance and leaves
    it at zero. *)
Theorem registration_charges_only_the_caller F rq w r w' :
  register F rq w = (r, w') ->
  statusCode r = 200 ->
  exists t u u' fromDeposit fromWinning rid team,
    tournaments (db w) !! rq_id rq = Some t
    /\ users (db w) !! rq_userId rq = Some u
    /\ r = mkResponse 200
             (Registered fromDeposit fromWinning
                (depositAmount u' + winningAmount u') rid team)
    /\ users (db w') = <[rq_userId rq := u']> (users (db w))
    /\ u' = with_balances u (depositAmount u') (winningAmount u')
    /\ (winningAmount u' <> winningAmount u ->
        fromDeposit = depositAmount u /\ depositAmount u' = 0)
    /\ (fromWinning <> 0 ->
        fromDeposit = depositAmount u /\ depositAmount u' = 0).
Proof.
  intros Hreg Hcode.
  destruct (register_success_inv _ _ _ _ _ Hreg Hcode)
    as (t & u & s & rid & Hadm & Hs & Hr & Hus & _ & _).
  destruct Hadm as (_ & _ & Ht & Hu & _).
  exists t, u, (with_balances u (newDeposit s) (newWinning s)).
  do 4 eexists. split; [exact Ht|]. split; [exact Hu|].
  split; [exact Hr|]. split; [exact Hus|]. split; [reflexivity|].
  cbn [with_balances depositAmount winningAmount].
  unfold computeSplit in Hs. cbv zeta in Hs.
  destruct (depositAmount u + winningAmount u <? entryFee t); [discriminate|].
  destruct (entryFee t <=? depositAmount u).
  - change (0 <? 0) with false in Hs. cbv iota beta in Hs. injection Hs as <-.
    cbn. split; intros H; exfalso; apply H; reflexivity.
  - cbv iota beta in Hs.
    destruct (0 <? entryFee t - depositAmount u);
      [destruct (entryFee t - depositAmount u <=? winningAmount u); [|discriminate]|];
      injection Hs as <-; cbn; split; intros _; split; reflexivity.
Qed.

Lemma registration_charges_only_the_caller_witness :
  exists t u u' fromDeposit fromWinning rid team,
    tournaments (db Scenario.world0) !! Scenario.solo_id = Some t
    /\ users (db Scenario.world0) !! Scenario.alice_id = Some u
    /\ fst (register no_faults Scenario.alice_request Scenario.world0)
       = mkResponse 200
           (Registered fromDeposit fromWinning
              (depositAmount u' + winningAmount u') rid team)
    /\ users (db (snd (register no_faults Scenario.alice_request Scenario.world0)))
       = <[Scenario.alice_id := u']> (users (db Scenario.world0))
    /\ u' = with_balances u (depositAmount u') (winningAmount u')
    /\ (winningAmount u' <> winningAmount u ->
        fromDeposit = depositAmount u /\ depositAmount u' = 0)
    /\ (fromWinning <> 0 ->
        fromDeposit = depositAmount u /\ depositAmount u' = 0).
Proof.
  apply (registration_charges_only_the_caller no_faults Scenario.alice_request
           Scenario.world0).
  - apply surjective_pairing.
  - vm_compute. reflexivity.
Defined.


(** ** Registration: invariants of tournaments and registration records *)

Lemma occupancy_ok_after t userId :
  occupancy_ok t ->
  registeredPlayers t < maxSlots t ->
  member userId (registeredUsers t) = false ->
  occupancy_ok (tournament_after_registration t userId).
Proof.
  intros (Hcount & Hnd & Hmax) Hfree Hnew. unfold occupancy_ok. simpl.
  split; [rewrite length_app; simpl; lia|]. split; [|lia].
  apply NoDup_app. split; [exact Hnd|]. split; [|apply NoDup_singleton].
  intros x Hx Hx'. apply list_elem_of_singleton in Hx'. subst x.
  apply list_elem_of_In, member_In in Hx. congruence.
Qed.

(** X3. A registration call that runs alone, with no other call between its
    reads and its writes, keeps, whatever its outcome, the occupancy of
    every tournament consistent: the counter equals the number of listed
    users, no user is listed twice, and the counter does not exceed the
    capacity.  (Calls that interleave can break it: see the section on
    capacity under interleaved calls.) *)
Theorem register_keeps_occupancy F rq w :
  occupancy_invariant (db w) ->
  occupancy_invariant (db (snd (register F rq w))).
Proof.
  intros Hinv. unfold occupancy_invariant in *.
  destruct (register_outcome F rq w) as [[_ Hdb] | Hacc]; [rewrite Hdb; exact Hinv|].
  destruct Hacc as (t & u & s & w2 & Hadm & _ & _ & _ & _ & _ & Hcase).
  cbv zeta in Hcase.
  destruct Hcase as [(e & _ & _ & _ & Hts) | [(_ & _ & _ & _ & Hts) | (_ & _ & _ & _ & Hts)]];
    rewrite Hts; try exact Hinv.
  destruct Hadm as (_ & _ & Ht & _ & Hg). unfold guards_pass in Hg. split_andb.
  apply map_Forall_insert_2; [|exact Hinv].
  apply occupancy_ok_after.
  - exact (map_Forall_lookup_1 _ _ _ _ Hinv Ht).
  - apply Z.ltb_lt. assumption.
  - assumption.
Qed.

Lemma register_keeps_occupancy_witness :
  occupancy_invariant
    (db (snd (register no_faults Scenario.alice_request Scenario.world0))).
Proof.
  apply register_keeps_occupancy. unfold occupancy_invariant. simpl.
  apply map_Forall_insert_2; [|apply map_Forall_empty].
  unfold occupancy_ok. simpl. split; [reflexivity|]. split; [constructor|lia].
Defined.

Lemma registration_save_error_none F d r :
  registration_save_error F d r = None ->
  existsb (reg_conflict r) (registrations d) = false.
Proof.
  unfold registration_save_error. destruct (F _); [discriminate|].
  destruct (negb _); [discriminate|].
  destruct (existsb _ _); [discriminate|reflexivity].
Qed.

Lemma registrations_unique_snoc l r :
  registrations_unique l ->
  existsb (reg_conflict r) l = false ->
  registrations_unique (l ++ [r]).
Proof.
  intros [H1 H2] Hnone. unfold registrations_unique. rewrite !map_app. simpl.
  assert (Hfree : forall r', In r' l -> reg_conflict r r' = false).
  { intros r' Hin. destruct (reg_conflict r r') eqn:E; [|reflexivity].
    assert (existsb (reg_conflict r) l = true)
      by (apply existsb_exists; exists r'; split; assumption).
    congruence. }
  split; apply NoDup_app; (split; [assumption|]); (split; [|apply NoDup_singleton]);
    intros k Hk Hk'; apply list_elem_of_singleton in Hk'; subst k;
    apply list_elem_of_In, in_map_iff in Hk as (r' & Hkey & Hin);
    specialize (Hfree r' Hin); unfold reg_conflict in Hfree;
    injection Hkey as Ha Hb; rewrite Ha, Hb, !String.eqb_refl in Hfree;
    simpl in Hfree; try rewrite orb_true_r in Hfree; discriminate.
Qed.

(** X4. A registration call, whatever its outcome, keeps the two unique
    indexes of the registration records: no two records of one user for one
    tournament, no two records with one Free Fire id in one tournament. *)
Theorem register_keeps_registrations_unique F rq w :
  registrations_unique (registrations (db w)) ->
  registrations_unique (registrations (db (snd (register F rq w)))).
Proof.
  intros Hinv.
  destruct (register_outcome F rq w) as [[_ Hdb] | Hacc]; [rewrite Hdb; exact Hinv|].
  destruct Hacc as (t & u & s & w2 & _ & _ & _ & _ & _ & _ & Hcase).
  cbv zeta in Hcase.
  destruct Hcase as [(e & _ & _ & Hrs & _) | [(Hnone & _ & _ & Hrs & _) | (Hnone & _ & _ & Hrs & _)]];
    rewrite Hrs; try exact Hinv;
    apply registrations_unique_snoc; try exact Hinv;
    exact (registration_save_error_none _ _ _ Hnone).
Qed.

Lemma register_keeps_registrations_unique_witness :
  registrations_unique
    (registrations
       (db (snd (register no_faults
                   (mkRegisterRequest Scenario.alice_id Scenario.solo_id (JStr "999")
                      (JBool true) JUndefined)
                   RollbackScenario.rollback_world))))
  /\ length (registrations
       (db (snd (register no_faults
                   (mkRegisterRequest Scenario.alice_id Scenario.solo_id (JStr "999")
                      (JBool true) JUndefined)
                   RollbackScenario.rollback_world))))
     = 2%nat.
Proof.
  split; [|vm_compute; reflexivity].
  apply register_keeps_registrations_unique. unfold registrations_unique. simpl.
  split; apply NoDup_singleton.
Defined.

(** X5. A Free Fire id that is truthy but not a string (a number, [true])
    makes [freeFireId.trim()] throw: once the capacity guard has let the call
    through, the reply is the server error 500, not a validation message, the
    error is written to the console and nothing stored changes. *)
Theorem non_string_id_is_a_server_error F w rq t :
  F (TournamentFindById (rq_id rq)) = false ->
  tournaments (db w) !! rq_id rq = Some t ->
  status t = upcoming ->
  registeredPlayers t < maxSlots t ->
  ~ In (rq_userId rq) (registeredUsers t) ->
  truthy (rq_freeFireId rq) = true ->
  (forall s, rq_freeFireId rq <> JStr s) ->
  register F rq w
  = (mkResponse 500 (Message "Server error"),
     mkWorld (db w) (nextId w)
       (console w ++ [LogError "Tournament registration error:" TypeError])).
Proof.
  intros HF Ht Hs Hfree Hnew Htruthy Hnostr.
  unfold register, route, register_read, Tournament_findById. unmonad.
  rewrite HF. simpl. rewrite Ht, Hs. simpl.
  destruct (Z.leb_spec (maxSlots t) (registeredPlayers t)); [lia|]. simpl.
  destruct (member _ _) eqn:Hm; [apply member_In in Hm; contradiction|]. simpl.
  rewrite Htruthy. simpl.
  destruct (rq_freeFireId rq) as [| | b | n | s] eqn:E; try reflexivity.
  exfalso. exact (Hnostr s eq_refl).
Qed.

Lemma non_string_id_is_a_server_error_witness :
  register no_faults
    (mkRegisterRequest Scenario.alice_id Scenario.solo_id (JNum 123456) (JBool true)
       JUndefined)
    Scenario.world0
  = (mkResponse 500 (Message "Server error"),
     mkWorld (db Scenario.world0) 0
       [LogError "Tournament registration error:" TypeError]).
Proof.
  apply (non_string_id_is_a_server_error no_faults Scenario.world0 _ Scenario.solo).
  - reflexivity.
  - vm_compute. reflexivity.
  - reflexivity.
  - simpl. lia.
  - simpl. tauto.
  - reflexivity.
  - discriminate.
Defined.

(** ** Registration and the ledger *)

Lemma entry_fee_valid rq t id :
  rq_userId rq <> "" -> rq_id rq <> "" ->
  validate_transaction
    (mkTransaction id (rq_userId rq) "entry_fee" (- entryFee t)
       ("Entry fee for tournament: " ++ tournamentId t) (rq_id rq) "tournament_id"
       (mkMetadata (Some (rq_id rq)) None None None) "completed") = true.
Proof.
  intros Hu Hi. apply String.eqb_neq in Hu, Hi.
  unfold validate_transaction. simpl. rewrite Hu, Hi. reflexivity.
Qed.

(** What the ledger block of a registration does to the ledger. *)
Lemma logEntryFee_ledger F rq t w w2 :
  logEntryFee F rq t w = (Val tt, w2) ->
  transactions (db w2) = transactions (db w)
  \/ (find (tx_has_key (rq_userId rq) (rq_id rq) "tournament_id")
        (transactions (db w)) = None
      /\ transactions (db w2)
         = (transactions (db w)
            ++ [mkTransaction (nextId w) (rq_userId rq) "entry_fee" (- entryFee t)
                  ("Entry fee for tournament: " ++ tournamentId t) (rq_id rq)
                  "tournament_id" (mkMetadata (Some (rq_id rq)) None None None)
                  "completed"])%list).
Proof.
  rewrite logEntryFee_eq. unfold entry_fee_append. rewrite logTransaction_eq.
  destruct (F (TransactionFindOne _ _ _)); [intros [= <-]; left; reflexivity|].
  destruct (find _ _) eqn:Hfind; [intros [= <-]; left; reflexivity|]. cbv zeta.
  destruct (F (TransactionSave _ _ _)); [intros [= <-]; left; reflexivity|].
  destruct (validate_transaction _); intros [= <-]; [right|left; reflexivity].
  split; reflexivity.
Qed.

Lemma register_ledger F rq w :
  transactions (db (snd (register F rq w))) = transactions (db w)
  \/ exists t id,
       tournaments (db w) !! rq_id rq = Some t
       /\ find (tx_has_key (rq_userId rq) (rq_id rq) "tournament_id")
            (transactions (db w)) = None
       /\ transactions (db (snd (register F rq w)))
          = (transactions (db w)
             ++ [mkTransaction id (rq_userId rq) "entry_fee" (- entryFee t)
                   ("Entry fee for tournament: " ++ tournamentId t) (rq_id rq)
                   "tournament_id" (mkMetadata (Some (rq_id rq)) None None None)
                   "completed"])%list.
Proof.
  destruct (register_outcome F rq w) as [[_ Hdb] | Hacc]; [left; rewrite Hdb; reflexivity|].
  destruct Hacc as (t & u & s & w2 & Hadm & _ & _ & Hlog & _ & Htx & _).
  rewrite Htx.
  destruct (logEntryFee_ledger _ _ _ _ _ Hlog) as [Hsame | [Hnone Happ]].
  - left. exact Hsame.
  - right. exists t, (nextId w). destruct Hadm as (_ & _ & Ht & _).
    split; [exact Ht|]. split; [exact Hnone|exact Happ].
Qed.

(** X6. The ledger under registration calls is append-only and stays
    deduplicated: a call leaves the ledger as it was or appends one entry, of
    type entry_fee, amount minus the entry fee, keyed by the caller, the
    tournament and tournament_id; it appends none when an entry with that
    key is already stored; the unique index is kept. *)
Theorem register_appends_at_most_one_entry F rq w :
  (transactions (db (snd (register F rq w))) = transactions (db w)
   \/ exists t e,
        tournaments (db w) !! rq_id rq = Some t
        /\ transactions (db (snd (register F rq w)))
           = (transactions (db w) ++ [e])%list
        /\ tx_key e = (rq_userId rq, rq_id rq, "tournament_id")
        /\ tx_type e = "entry_fee"
        /\ tx_amount e = - entryFee t
        /\ entries_with_key (rq_userId rq) (rq_id rq) "tournament_id"
             (transactions (db w)) = [])
  /\ (ledger_unique (transactions (db w)) ->
      ledger_unique (transactions (db (snd (register F rq w))))).
Proof.
  destruct (register_ledger F rq w) as [Hsame | (t & id & Ht & Hnone & Happ)].
  - split; [left; exact Hsame|]. rewrite Hsame. trivial.
  - split.
    + right. do 2 eexists. split; [exact Ht|]. split; [exact Happ|].
      repeat split. apply filter_none_of_find. exact Hnone.
    + intros Hu. rewrite Happ. unfold ledger_unique. rewrite map_app.
      apply NoDup_app. split; [exact Hu|]. split; [|apply NoDup_singleton].
      intros k Hk Hk'. apply list_elem_of_singleton in Hk'. subst k.
      apply list_elem_of_In, in_map_iff in Hk as (y & Hy & Hin).
      pose proof (find_none _ _ Hnone y Hin) as Hno.
      assert (Hyes : tx_has_key (rq_userId rq) (rq_id rq) "tournament_id" y = true)
        by (apply tx_has_key_spec; exact Hy).
      congruence.
Qed.

Lemma register_appends_at_most_one_entry_witness :
  (exists e,
     transactions (db (snd (register no_faults Scenario.alice_request Scenario.world0)))
     = [e]
     /\ tx_key e = (Scenario.alice_id, Scenario.solo_id, "tournament_id")
     /\ tx_amount e = -40)
  /\ ledger_unique
       (transactions
          (db (snd (register no_faults Scenario.alice_request Scenario.world0)))).
Proof.
  destruct (register_appends_at_most_one_entry no_faults Scenario.alice_request
              Scenario.world0) as [Hcase Hunique].
  split.
  - destruct Hcase as [Hsame | (t & e & Ht & Happ & Hkey & _ & Hamount & _)].
    + vm_compute in Hsame. discriminate.
    + exists e. split; [exact Happ|]. split; [exact Hkey|].
      rewrite Hamount. vm_compute in Ht. injection Ht as <-. reflexivity.
  - apply Hunique. apply NoDup_nil. exact I.
Defined.

(** X7. After a successful registration during which the two ledger calls
    answered, the ledger holds exactly one entry under the key of the caller
    and the tournament; when none was stored before, it is the new entry, of
    amount minus the entry fee. *)
Theorem successful_registration_is_logged_once F rq w r w' :
  register F rq w = (r, w') ->
  statusCode r = 200 ->
  F (TransactionFindOne (rq_userId rq) (rq_id rq) "tournament_id") = false ->
  F (TransactionSave (rq_userId rq) (rq_id rq) "tournament_id") = false ->
  rq_userId rq <> "" -> rq_id rq <> "" ->
  ledger_unique (transactions (db w)) ->
  exists e,
    entries_with_key (rq_userId rq) (rq_id rq) "tournament_id" (transactions (db w'))
    = [e]
    /\ (entries_with_key (rq_userId rq) (rq_id rq) "tournament_id"
          (transactions (db w)) = [] ->
        exists t, tournaments (db w) !! rq_id rq = Some t
                  /\ tx_amount e = - entryFee t /\ tx_type e = "entry_fee"
                  /\ transactions (db w') = (transactions (db w) ++ [e])%list).
Proof.
  intros Hreg Hcode HF1 HF2 Huid Hid Hu.
  destruct (register_outcome F rq w) as [[Hc _] | Hacc].
  { rewrite Hreg in Hc. contradiction. }
  destruct Hacc as (t & u & s & w2 & Hadm & _ & _ & Hlog & _ & Htx & _).
  rewrite Hreg in Htx. simpl in Htx. rewrite Htx.
  rewrite logEntryFee_eq in Hlog. unfold entry_fee_append in Hlog.
  rewrite logTransaction_eq, HF1 in Hlog. simpl in Hlog.
  destruct (find _ _) as [e|] eqn:Hfind.
  - injection Hlog as <-. simpl. exists e.
    rewrite (entries_with_key_unique _ _ _ _ _ Hu Hfind).
    split; [reflexivity|discriminate].
  - rewrite HF2, (entry_fee_valid rq t _ Huid Hid) in Hlog.
    injection Hlog as <-. simpl. eexists.
    unfold entries_with_key. rewrite List.filter_app, (filter_none_of_find _ _ Hfind).
    simpl. unfold tx_has_key. simpl. rewrite !String.eqb_refl. simpl.
    split; [reflexivity|]. intros _. exists t. destruct Hadm as (_ & _ & Ht & _).
    repeat split. exact Ht.
Qed.

Lemma successful_registration_is_logged_once_witness :
  exists e,
    entries_with_key Scenario.alice_id Scenario.solo_id "tournament_id"
      (transactions (db (snd (register no_faults Scenario.alice_request Scenario.world0))))
    = [e]
    /\ (entries_with_key Scenario.alice_id Scenario.solo_id "tournament_id"
          (transactions (db Scenario.world0)) = [] ->
        exists t, tournaments (db Scenario.world0) !! Scenario.solo_id = Some t
                  /\ tx_amount e = - entryFee t /\ tx_type e = "entry_fee"
                  /\ transactions
                       (db (snd (register no_faults Scenario.alice_request
                                   Scenario.world0)))
                     = (transactions (db Scenario.world0) ++ [e])%list).
Proof.
  apply (successful_registration_is_logged_once no_faults Scenario.alice_request
           Scenario.world0 _ _ (surjective_pairing _)).
  - vm_compute. reflexivity.
  - reflexivity.
  - reflexivity.
  - discriminate.
  - discriminate.
  - apply NoDup_nil. exact I.
Defined.

(** ** Award: what a call can and cannot change *)

Lemma users_same_but_winning_refl m : users_same_but_winning m m.
Proof.
  intros x. destruct (m !! x) as [u|]; [|exact I].
  unfold same_but_winning, with_balances. destruct u; reflexivity.
Qed.

Lemma users_same_but_winning_trans m1 m2 m3 :
  users_same_but_winning m1 m2 -> users_same_but_winning m2 m3 ->
  users_same_but_winning m1 m3.
Proof.
  intros H12 H23 x. specialize (H12 x). specialize (H23 x).
  destruct (m1 !! x) as [u1|], (m2 !! x) as [u2|], (m3 !! x) as [u3|];
    try contradiction; try exact I.
  unfold same_but_winning in *. rewrite H23, H12. unfold with_balances. simpl.
  reflexivity.
Qed.

Lemma users_same_but_winning_credit m userId u amount :
  m !! userId = Some u ->
  users_same_but_winning m
    (<[userId := with_balances u (depositAmount u) (winningAmount u + amount)]> m).
Proof.
  intros Hu x. destruct (decide (userId = x)) as [<- | Hne].
  - rewrite lookup_insert_eq, Hu. reflexivity.
  - rewrite lookup_insert_ne by exact Hne.
    destruct (m !! x) as [ux|]; [|exact I].
    unfold same_but_winning, with_balances. destruct ux; reflexivity.
Qed.

Lemma awardWinner_frame F tid t winner w o w' :
  awardWinner F tid t winner w = (o, w') ->
  users_same_but_winning (users (db w)) (users (db w'))
  /\ tournaments (db w') = tournaments (db w)
  /\ registrations (db w') = registrations (db w)
  /\ (exists l, transactions (db w') = (transactions (db w) ++ l)%list)
  /\ (ledger_unique (transactions (db w)) -> ledger_unique (transactions (db w'))).
Proof.
  rewrite awardWinner_eq. cbv zeta. intros H.
  assert (Hsame : users_same_but_winning (users (db w)) (users (db w))
                  /\ tournaments (db w) = tournaments (db w)
                  /\ registrations (db w) = registrations (db w)
                  /\ (exists l, transactions (db w) = (transactions (db w) ++ l)%list)
                  /\ (ledger_unique (transactions (db w)) ->
                      ledger_unique (transactions (db w)))).
  { split; [apply users_same_but_winning_refl|]. repeat split; trivial.
    exists []. symmetry. apply app_nil_r. }
  destruct (F (UserFindById _)); [inversion H; subst; exact Hsame|].
  destruct (users (db w) !! w_userId winner) as [u|] eqn:Hu;
    [|inversion H; subst; exact Hsame].
  destruct (F (UserSave _)); [inversion H; subst; exact Hsame|].
  destruct (logTransaction _ _ _ _ _ _ _ _ _) as [o2 w2] eqn:Hlog.
  destruct (logTransaction_frame _ _ _ _ _ _ _ _ _ _ _ Hlog)
    as (Hus & Hts & Hrs & _ & Hl).
  pose proof (logTransaction_keeps_unique _ _ _ _ _ _ _ _ _ _ _ Hlog) as Hun.
  simpl in Hus, Hts, Hrs, Hl, Hun.
  assert (Hgoal : users_same_but_winning (users (db w)) (users (db w2))
                  /\ tournaments (db w2) = tournaments (db w)
                  /\ registrations (db w2) = registrations (db w)
                  /\ (exists l, transactions (db w2) = (transactions (db w) ++ l)%list)
                  /\ (ledger_unique (transactions (db w)) ->
                      ledger_unique (transactions (db w2)))).
  { rewrite Hus. split; [apply users_same_but_winning_credit; exact Hu|].
    repeat split; assumption. }
  destruct o2; inversion H; subst; exact Hgoal.
Qed.

Lemma awardLoop_frame F tid t winners :
  forall acc w o w',
    awardLoop F tid t winners acc w = (o, w') ->
    users_same_but_winning (users (db w)) (users (db w'))
    /\ tournaments (db w') = tournaments (db w)
    /\ registrations (db w') = registrations (db w)
    /\ (exists l, transactions (db w') = (transactions (db w) ++ l)%list)
    /\ (ledger_unique (transactions (db w)) -> ledger_unique (transactions (db w'))).
Proof.
  induction winners as [|winner rest IH]; intros acc w o w' H.
  - inversion H; subst. split; [apply users_same_but_winning_refl|].
    repeat split; trivial. exists []. symmetry. apply app_nil_r.
  - simpl in H. unfold bind in H.
    destruct (awardWinner F tid t winner w) as [o1 w1] eqn:Hstep.
    destruct (awardWinner_frame _ _ _ _ _ _ _ Hstep)
      as (Hus1 & Hts1 & Hrs1 & (l1 & Hl1) & Hun1).
    destruct o1; [|inversion H; subst; repeat split; eauto..].
    destruct (IH _ _ _ _ H) as (Hus & Hts & Hrs & (l & Hl) & Hun).
    split; [eapply users_same_but_winning_trans; eassumption|].
    split; [congruence|]. split; [congruence|].
    split; [exists (l1 ++ l)%list; rewrite Hl, Hl1, <- app_assoc; reflexivity|].
    intros Hu. apply Hun, Hun1, Hu.
Qed.

(** The stored data after an award call is the data before it, or the data
    the loop over the winners left. *)
Lemma awardWinnings_db_case F rq w (P : Db -> Prop) :
  P (db w) ->
  (forall t o w',
     awardLoop F (aw_tournamentId rq) t (aw_winners rq) [] w = (o, w') -> P (db w')) ->
  P (db (snd (awardWinnings F rq w))).
Proof.
  intros Hsame Hloop. unfold awardWinnings. rewrite route_db.
  unfold bind at 1. unfold return_if at 1.
  destruct (negb _); [exact Hsame|]. unfold ret at 1.
  unfold bind at 1. unfold return_if at 1.
  destruct (String.eqb _ _); [exact Hsame|]. unfold ret at 1.
  unfold bind at 1, Tournament_findById, db_call.
  destruct (F (TournamentFindById _)); [exact Hsame|].
  unfold bind at 1. unfold get_db, ret.
  destruct (tournaments (db w) !! aw_tournamentId rq) as [t|]; [|exact Hsame].
  unfold bind at 1. unfold return_if at 1.
  destruct (negb _); [exact Hsame|]. unfold ret at 1.
  unfold bind.
  destruct (awardLoop F (aw_tournamentId rq) t (aw_winners rq) [] w) as [o w'] eqn:Hl.
  specialize (Hloop _ _ _ Hl). destruct o; exact Hloop.
Qed.

(** X8. An award call, whatever its input, its faults and its outcome,
    touches nothing but winning balances and the ledger: every user keeps
    its deposit balance and the rest of its document, no user appears or
    disappears, tournaments and registration records are unchanged, the
    ledger only grows and keeps its unique index.  A caller who is not admin
    gets the 403 reply and changes nothing at all. *)
Theorem award_touches_only_winnings_and_ledger F rq w :
  users_same_but_winning (users (db w)) (users (db (snd (awardWinnings F rq w))))
  /\ tournaments (db (snd (awardWinnings F rq w))) = tournaments (db w)
  /\ registrations (db (snd (awardWinnings F rq w))) = registrations (db w)
  /\ (exists l, transactions (db (snd (awardWinnings F rq w)))
                = (transactions (db w) ++ l)%list)
  /\ (ledger_unique (transactions (db w)) ->
      ledger_unique (transactions (db (snd (awardWinnings F rq w)))))
  /\ (aw_role rq <> "admin" ->
      awardWinnings F rq w = (mkResponse 403 (Message "Admin access required"), w)).
Proof.
  assert (Hsame : users_same_but_winning (users (db w)) (users (db w))
                  /\ tournaments (db w) = tournaments (db w)
                  /\ registrations (db w) = registrations (db w)
                  /\ (exists l, transactions (db w) = (transactions (db w) ++ l)%list)
                  /\ (ledger_unique (transactions (db w)) ->
                      ledger_unique (transactions (db w)))).
  { split; [apply users_same_but_winning_refl|]. repeat split; trivial.
    exists []. symmetry. apply app_nil_r. }
  assert (Hframe :
            users_same_but_winning (users (db w))
              (users (db (snd (awardWinnings F rq w))))
            /\ tournaments (db (snd (awardWinnings F rq w))) = tournaments (db w)
            /\ registrations (db (snd (awardWinnings F rq w))) = registrations (db w)
            /\ (exists l, transactions (db (snd (awardWinnings F rq w)))
                          = (transactions (db w) ++ l)%list)
            /\ (ledger_unique (transactions (db w)) ->
                ledger_unique (transactions (db (snd (awardWinnings F rq w)))))).
  { apply (awardWinnings_db_case F rq w
             (fun d => users_same_but_winning (users (db w)) (users d)
                       /\ tournaments d = tournaments (db w)
                       /\ registrations d = registrations (db w)
                       /\ (exists l, transactions d = (transactions (db w) ++ l)%list)
                       /\ (ledger_unique (transactions (db w)) ->
                           ledger_unique (transactions d)))).
    - exact Hsame.
    - intros t o w' Hloop. exact (awardLoop_frame _ _ _ _ _ _ _ _ Hloop). }
  destruct Hframe as (H1 & H2 & H3 & H4 & H5).
  repeat (split; [assumption|]).
  intros Hrole. unfold awardWinnings, route, bind, return_if.
  apply String.eqb_neq in Hrole. rewrite Hrole. reflexivity.
Qed.

Lemma award_touches_only_winnings_and_ledger_witness :
  ledger_unique
    (transactions
       (db (snd (awardWinnings no_faults AwardScenario.award_request
                   AwardScenario.award_world))))
  /\ awardWinnings no_faults
       (mkAwardRequest "user" AwardScenario.finals_id (aw_winners AwardScenario.award_request))
       AwardScenario.award_world
     = (mkResponse 403 (Message "Admin access required"), AwardScenario.award_world).
Proof.
  split.
  - apply (award_touches_only_winnings_and_ledger no_faults AwardScenario.award_request
             AwardScenario.award_world).
    apply NoDup_nil. exact I.
  - apply (award_touches_only_winnings_and_ledger no_faults
             (mkAwardRequest "user" AwardScenario.finals_id
                (aw_winners AwardScenario.award_request))
             AwardScenario.award_world).
    discriminate.
Defined.

(** ** Award: a batch sent twice *)









(** ** Manual admin transactions *)

Lemma logTransaction_throw_kind F userId type amount description reference
    referenceType metadata w e w' :
  logTransaction F userId type amount description reference referenceType metadata w
  = (Throw e, w') ->
  e = DbFailure \/ e = ValidationError.
Proof.
  rewrite logTransaction_eq.
  destruct (F (TransactionFindOne _ _ _)); [intros [= <- _]; left; reflexivity|].
  destruct (find _ _); [discriminate|]. cbv zeta.
  destruct (F (TransactionSave _ _ _)); [intros [= <- _]; left; reflexivity|].
  destruct (validate_transaction _); [discriminate|].
  intros [= <- _]. right. reflexivity.
Qed.

(** The manual transaction handler, case by case. *)
Lemma adminTransaction_eq F rq w :
  adminTransaction F rq w =
    if negb (String.eqb (at_role rq) "admin")
    then (mkResponse 403 (Message "Admin access required"), w)
    else if String.eqb (at_userId rq) "" || String.eqb (at_type rq) ""
            || (at_amount rq =? 0) || String.eqb (at_description rq) ""
            || String.eqb (at_reference rq) "" || String.eqb (at_referenceType rq) ""
    then (mkResponse 400 (Message "Missing required fields"), w)
    else if negb (member (at_type rq) ["deposit"; "winning"; "entry_fee"; "withdrawal"])
    then (mkResponse 400 (Message "Invalid transaction type"), w)
    else if F (UserFindById (at_userId rq))
    then (mkResponse 500 (Message "Server error"),
          mkWorld (db w) (nextId w)
            (console w ++ [LogError "Error logging manual transaction:" DbFailure]))
    else
      match users (db w) !! at_userId rq with
      | None => (mkResponse 404 (Message "User not found"), w)
      | Some u =>
        match adminBalanceUpdate u (at_type rq) (at_amount rq) with
        | None => (mkResponse 400 (Message "Insufficient balance"), w)
        | Some u' =>
          if F (UserSave (at_userId rq))
          then (mkResponse 500 (Message "Server error"),
                mkWorld (db w) (nextId w)
                  (console w ++ [LogError "Error logging manual transaction:" DbFailure]))
          else
            match logTransaction F (at_userId rq) (at_type rq)
                    (if is_debit (at_type rq)
                     then - Z.abs (at_amount rq) else at_amount rq)
                    (at_description rq) (at_reference rq) (at_referenceType rq)
                    (at_metadata rq)
                    (mkWorld (set_users (db w) (<[at_userId rq := u']> (users (db w))))
                       (nextId w) (console w)) with
            | (Val tx, w2) =>
                (mkResponse 201
                   (TransactionLogged tx (depositAmount u' + winningAmount u')), w2)
            | (Reply r, w2) => (r, w2)
            | (Throw e, w2) =>
                (admin_on_error e,
                 mkWorld (db w2) (nextId w2)
                   (console w2 ++ [LogError "Error logging manual transaction:" e]))
            end
        end
      end.
Proof.
  unfold adminTransaction, route.
  unfold bind at 1. unfold return_if at 1.
  destruct (negb _); [reflexivity|]. unfold ret at 1.
  unfold bind at 1. unfold return_if at 1.
  destruct (_ || _); [reflexivity|]. unfold ret at 1.
  unfold bind at 1. unfold return_if at 1.
  destruct (negb _); [reflexivity|]. unfold ret at 1.
  unfold bind at 1, User_findById, db_call.
  destruct (F (UserFindById _)); [reflexivity|].
  unfold bind at 1. unfold get_db, ret.
  destruct (users (db w) !! at_userId rq) as [u|] eqn:Hu; [|reflexivity].
  destruct (adminBalanceUpdate u (at_type rq) (at_amount rq)) as [u'|]; [|reflexivity].
  unfold bind at 1, User_save, db_call.
  destruct (F (UserSave _)); [reflexivity|].
  unfold bind at 1. unfold get_db. rewrite Hu. unfold put_db.
  unfold bind.
  destruct (logTransaction _ _ _ _ _ _ _ _ _) as [[tx | r | e] w2]; reflexivity.
Qed.

Lemma admin_on_error_throw F userId type amount description reference referenceType
    metadata w e w' :
  logTransaction F userId type amount description reference referenceType metadata w
  = (Throw e, w') ->
  admin_on_error e = mkResponse 500 (Message "Server error").
Proof.
  intros H. destruct (logTransaction_throw_kind _ _ _ _ _ _ _ _ _ _ _ H) as [-> | ->];
    reflexivity.
Qed.

(** X10. A manual transaction that is answered 400, 403 or 404 (not an
    admin, a missing field or a zero amount, an unknown type, an unknown
    user, an insufficient balance) changes nothing that is stored. *)
Theorem admin_client_errors_change_nothing F rq w :
  statusCode (fst (adminTransaction F rq w)) = 400
  \/ statusCode (fst (adminTransaction F rq w)) = 403
  \/ statusCode (fst (adminTransaction F rq w)) = 404 ->
  snd (adminTransaction F rq w) = w.
Proof.
  rewrite adminTransaction_eq.
  destruct (negb _); [reflexivity|].
  destruct (_ || _); [reflexivity|].
  destruct (negb _); [reflexivity|].
  destruct (F (UserFindById _)); [simpl; intros [H | [H | H]]; discriminate|].
  destruct (users (db w) !! at_userId rq) as [u|]; [|reflexivity].
  destruct (adminBalanceUpdate _ _ _) as [u'|]; [|reflexivity].
  destruct (F (UserSave _)); [simpl; intros [H | [H | H]]; discriminate|].
  destruct (logTransaction _ _ _ _ _ _ _ _ _) as [[tx | r | e] w2] eqn:Hlog.
  - simpl. intros [H | [H | H]]; discriminate.
  - exfalso. destruct (logTransaction_frame _ _ _ _ _ _ _ _ _ _ _ Hlog) as (_ & _ & _ & Hno & _).
    exact (Hno r eq_refl).
  - rewrite (admin_on_error_throw _ _ _ _ _ _ _ _ _ _ _ Hlog). simpl.
    intros [H | [H | H]]; discriminate.
Qed.

Lemma admin_client_errors_change_nothing_witness :
  snd (adminTransaction no_faults
         (mkAdminTxRequest "admin" Scenario.alice_id "withdrawal" 51 "Manual withdrawal"
            "wd-1" "withdrawal_id" no_metadata)
         AwardScenario.award_world)
  = AwardScenario.award_world.
Proof.
  apply admin_client_errors_change_nothing. left. vm_compute. reflexivity.
Defined.

(** X11. The reply "Transaction with this reference already exists" is never
    sent by a call that runs alone: the ledger looks the key up before it
    inserts, so the insertion never meets a duplicate. *)
Theorem admin_duplicate_reply_unreachable F rq w :
  body (fst (adminTransaction F rq w))
  <> Message "Transaction with this reference already exists".
Proof.
  rewrite adminTransaction_eq.
  destruct (negb _); [discriminate|].
  destruct (_ || _); [discriminate|].
  destruct (negb _); [discriminate|].
  destruct (F (UserFindById _)); [discriminate|].
  destruct (users (db w) !! at_userId rq) as [u|]; [|discriminate].
  destruct (adminBalanceUpdate _ _ _) as [u'|]; [|discriminate].
  destruct (F (UserSave _)); [discriminate|].
  destruct (logTransaction _ _ _ _ _ _ _ _ _) as [[tx | r | e] w2] eqn:Hlog.
  - discriminate.
  - exfalso. destruct (logTransaction_frame _ _ _ _ _ _ _ _ _ _ _ Hlog) as (_ & _ & _ & Hno & _).
    exact (Hno r eq_refl).
  - rewrite (admin_on_error_throw _ _ _ _ _ _ _ _ _ _ _ Hlog). discriminate.
Qed.


(** X12. What a manual transaction answered 201 has done: the stored users
    change at the named user only, and there only in the two balances; the
    new balance of the reply is the sum of the two stored balances; the
    ledger holds the returned entry under the key of the request.  A deposit
    leaves the winning balance as it was and a winning the deposit balance;
    an entry fee or a withdrawal changes the winning balance only when it
    leaves the deposit balance at zero. *)
Theorem admin_transaction_effect F rq w r w' :
  adminTransaction F rq w = (r, w') ->
  statusCode r = 201 ->
  exists u u' tx,
    users (db w) !! at_userId rq = Some u
    /\ users (db w') = <[at_userId rq := u']> (users (db w))
    /\ u' = with_balances u (depositAmount u') (winningAmount u')
    /\ r = mkResponse 201 (TransactionLogged tx (depositAmount u' + winningAmount u'))
    /\ In tx (transactions (db w'))
    /\ tx_key tx = (at_userId rq, at_reference rq, at_referenceType rq)
    /\ (at_type rq = "deposit" -> winningAmount u' = winningAmount u)
    /\ (at_type rq = "winning" -> depositAmount u' = depositAmount u)
    /\ (is_debit (at_type rq) = true ->
        winningAmount u' <> winningAmount u -> depositAmount u' = 0).
Proof.
  rewrite adminTransaction_eq.
  destruct (negb _); [intros [= <- _]; discriminate|].
  destruct (_ || _); [intros [= <- _]; discriminate|].
  destruct (negb _); [intros [= <- _]; discriminate|].
  destruct (F (UserFindById _)); [intros [= <- _]; discriminate|].
  destruct (users (db w) !! at_userId rq) as [u|] eqn:Hu; [|intros [= <- _]; discriminate].
  destruct (adminBalanceUpdate _ _ _) as [u'|] eqn:Hupd; [|intros [= <- _]; discriminate].
  destruct (F (UserSave _)); [intros [= <- _]; discriminate|].
  destruct (logTransaction _ _ _ _ _ _ _ _ _) as [[tx | r0 | e] w2] eqn:Hlog.
  - intros [= <- <-] _.
    destruct (logTransaction_frame _ _ _ _ _ _ _ _ _ _ _ Hlog) as (Hus & _).
    destruct (logTransaction_val _ _ _ _ _ _ _ _ _ _ _ Hlog) as (Hin & Hkey).
    simpl in Hus. exists u, u', tx.
    split; [reflexivity|]. split; [exact Hus|].
    assert (Hshape : u' = with_balances u (depositAmount u') (winningAmount u')
                     /\ (at_type rq = "deposit" -> winningAmount u' = winningAmount u)
                     /\ (at_type rq = "winning" -> depositAmount u' = depositAmount u)
                     /\ (is_debit (at_type rq) = true ->
                         winningAmount u' <> winningAmount u -> depositAmount u' = 0)).
    { unfold adminBalanceUpdate in Hupd.
      destruct (String.eqb (at_type rq) "deposit") eqn:E1.
      { apply String.eqb_eq in E1. injection Hupd as <-. rewrite E1.
        repeat split; try reflexivity; try discriminate. }
      destruct (String.eqb (at_type rq) "winning") eqn:E2.
      { apply String.eqb_eq in E2. injection Hupd as <-. rewrite E2.
        repeat split; try reflexivity; try discriminate. }
      apply String.eqb_neq in E1, E2.
      destruct (is_debit (at_type rq)).
      - destruct (_ <? _); [discriminate|]. cbv zeta in Hupd.
        destruct (_ <=? _); injection Hupd as <-; cbn;
          (split; [reflexivity|]); (split; [intros; contradiction|]);
          (split; [intros; contradiction|]); intros _ H;
          [exfalso; apply H; reflexivity | reflexivity].
      - injection Hupd as <-. split; [destruct u; reflexivity|].
        split; [intros; contradiction|]. split; [intros; contradiction|]. discriminate. }
    destruct Hshape as (H1 & H2 & H3 & H4).
    split; [exact H1|]. split; [reflexivity|].
    split; [exact Hin|]. split; [apply tx_has_key_spec; exact Hkey|].
    split; [exact H2|]. split; [exact H3|exact H4].
  - exfalso. destruct (logTransaction_frame _ _ _ _ _ _ _ _ _ _ _ Hlog) as (_ & _ & _ & Hno & _).
    exact (Hno r0 eq_refl).
  - rewrite (admin_on_error_throw _ _ _ _ _ _ _ _ _ _ _ Hlog).
    intros [= <- _]. discriminate.
Qed.

Lemma admin_transaction_effect_witness :
  exists u' tx,
    users (db (snd (adminTransaction no_faults
                      (mkAdminTxRequest "admin" Scenario.alice_id "withdrawal" (-45)
                         "Manual withdrawal" "wd-1" "withdrawal_id" no_metadata)
                      AwardScenario.award_world)))
    = <[Scenario.alice_id := u']> Scenario.some_users
    /\ fst (adminTransaction no_faults
              (mkAdminTxRequest "admin" Scenario.alice_id "withdrawal" (-45)
                 "Manual withdrawal" "wd-1" "withdrawal_id" no_metadata)
              AwardScenario.award_world)
       = mkResponse 201 (TransactionLogged tx (depositAmount u' + winningAmount u'))
    /\ (winningAmount u' <> winningAmount Scenario.alice -> depositAmount u' = 0).
Proof.
  destruct (admin_transaction_effect no_faults
              (mkAdminTxRequest "admin" Scenario.alice_id "withdrawal" (-45)
                 "Manual withdrawal" "wd-1" "withdrawal_id" no_metadata)
              AwardScenario.award_world _ _ (surjective_pairing _)
              ltac:(vm_compute; reflexivity))
    as (u & u' & tx & Hu & Hus & _ & Hr & _ & _ & _ & _ & Hdebit).
  vm_compute in Hu. injection Hu as <-.
  exists u', tx. split; [exact Hus|]. split; [exact Hr|].
  exact (Hdebit eq_refl).
Defined.

(** X13. A manual transaction whose reference type is not one of
    payment_id, tournament_id, withdrawal_id is refused by the ledger's
    schema only after the balance has been saved: the reply is the server
    error 500, the ledger is unchanged, and the user's stored balances are
    the updated ones. *)
Theorem admin_bad_reference_type_keeps_balance_change F rq w u u' :
  at_role rq = "admin" ->
  at_userId rq <> "" -> at_amount rq <> 0 -> at_description rq <> "" ->
  at_reference rq <> "" -> at_referenceType rq <> "" ->
  member (at_type rq) ["deposit"; "winning"; "entry_fee"; "withdrawal"] = true ->
  member (at_referenceType rq) ["payment_id"; "tournament_id"; "withdrawal_id"] = false ->
  F (UserFindById (at_userId rq)) = false ->
  F (UserSave (at_userId rq)) = false ->
  F (TransactionFindOne (at_userId rq) (at_reference rq) (at_referenceType rq)) = false ->
  F (TransactionSave (at_userId rq) (at_reference rq) (at_referenceType rq)) = false ->
  users (db w) !! at_userId rq = Some u ->
  adminBalanceUpdate u (at_type rq) (at_amount rq) = Some u' ->
  Forall (fun t => validate_transaction t = true) (transactions (db w)) ->
  fst (adminTransaction F rq w) = mkResponse 500 (Message "Server error")
  /\ users (db (snd (adminTransaction F rq w))) = <[at_userId rq := u']> (users (db w))
  /\ transactions (db (snd (adminTransaction F rq w))) = transactions (db w).
Proof.
  intros Hrole Huid Hamt Hdesc Href Hrt Hty Hbad HF1 HF2 HF3 HF4 Hu Hupd Hvalid.
  rewrite adminTransaction_eq, Hrole, String.eqb_refl. cbn [negb].
  apply String.eqb_neq in Huid, Hdesc, Href, Hrt. apply Z.eqb_neq in Hamt.
  rewrite Huid, Hdesc, Href, Hrt, Hamt.
  assert (Htyne : String.eqb (at_type rq) "" = false).
  { destruct (String.eqb (at_type rq) "") eqn:E; [|reflexivity].
    apply String.eqb_eq in E. rewrite E in Hty. discriminate. }
  rewrite Htyne, Hty. cbn [negb orb]. rewrite HF1, Hu, Hupd, HF2.
  rewrite logTransaction_eq, HF3.
  assert (Hnone : find (tx_has_key (at_userId rq) (at_reference rq) (at_referenceType rq))
                    (transactions (db w)) = None).
  { destruct (find _ _) as [y|] eqn:Hfind; [|reflexivity].
    apply find_some in Hfind as [Hin Hkey].
    rewrite Forall_forall in Hvalid. apply list_elem_of_In in Hin.
    specialize (Hvalid y Hin). unfold validate_transaction in Hvalid. split_andb.
    apply tx_has_key_spec in Hkey. injection Hkey as _ _ Hk. congruence. }
  cbn [db transactions set_users]. rewrite Hnone. cbv zeta. rewrite HF4.
  assert (Hinvalid : forall id amt,
            validate_transaction
              (mkTransaction id (at_userId rq) (at_type rq) amt (at_description rq)
                 (at_reference rq) (at_referenceType rq) (at_metadata rq) "completed")
            = false).
  { intros id amt. unfold validate_transaction.
    cbn [tx_userId tx_type tx_description tx_reference tx_referenceType tx_status].
    rewrite Hbad, andb_false_r. reflexivity. }
  rewrite Hinvalid. simpl. repeat split.
Qed.

Lemma admin_bad_reference_type_keeps_balance_change_witness :
  fst (adminTransaction no_faults
         (mkAdminTxRequest "admin" Scenario.alice_id "deposit" 500 "Bonus" "promo-1"
            "promotion" no_metadata)
         AwardScenario.award_world)
  = mkResponse 500 (Message "Server error")
  /\ users (db (snd (adminTransaction no_faults
                       (mkAdminTxRequest "admin" Scenario.alice_id "deposit" 500 "Bonus"
                          "promo-1" "promotion" no_metadata)
                       AwardScenario.award_world)))
     = <[Scenario.alice_id := with_balances Scenario.alice 530 20]> Scenario.some_users
  /\ transactions (db (snd (adminTransaction no_faults
                              (mkAdminTxRequest "admin" Scenario.alice_id "deposit" 500
                                 "Bonus" "promo-1" "promotion" no_metadata)
                              AwardScenario.award_world)))
     = [].
Proof.
  apply (admin_bad_reference_type_keeps_balance_change no_faults
           (mkAdminTxRequest "admin" Scenario.alice_id "deposit" 500 "Bonus" "promo-1"
              "promotion" no_metadata)
           AwardScenario.award_world Scenario.alice
           (with_balances Scenario.alice 530 20));
    try reflexivity; try discriminate.
  constructor.
Defined.

(** ** Deleting a tournament *)

(** X14. Deleting a tournament named by an ObjectId, whether it is stored or
    not, is answered with the success message and removes that tournament
    only: users and their balances, the ledger and the registration records
    stay as they are, so nobody is refunded.  A later registration call for
    the deleted tournament is answered 404 and changes nothing.  A string
    that Mongoose does not cast to an ObjectId (not 24 hexadecimal digits
    and not 12 characters long) is answered with the server error and
    deletes nothing; a caller who is not admin gets 403 and deletes
    nothing. *)
Theorem delete_tournament_refunds_nobody G role id w :
  (role <> "admin" ->
   deleteTournament G role id w
   = (mkResponse 403 (Message "Admin access required"), w))
  /\ (role = "admin" -> castable_id id = false -> String.length id <> 12%nat ->
      fst (deleteTournament G role id w) = mkResponse 500 (Message "Server error")
      /\ db (snd (deleteTournament G role id w)) = db w)
  /\ (role = "admin" -> is_object_id id = true ->
      G (TournamentFindByIdAndDelete id) = false ->
      fst (deleteTournament G role id w)
      = mkResponse 200 (Message "Tournament deleted successfully")
      /\ tournaments (db (snd (deleteTournament G role id w)))
         = delete id (tournaments (db w))
      /\ users (db (snd (deleteTournament G role id w))) = users (db w)
      /\ transactions (db (snd (deleteTournament G role id w))) = transactions (db w)
      /\ registrations (db (snd (deleteTournament G role id w)))
         = registrations (db w)
      /\ forall F rq,
           rq_id rq = id -> F (TournamentFindById id) = false ->
           register F rq (snd (deleteTournament G role id w))
           = (mkResponse 404 (Message "Tournament not found"),
              snd (deleteTournament G role id w))).
Proof.
  split; [|split].
  - intros Hrole. apply String.eqb_neq in Hrole.
    unfold deleteTournament, route, bind, return_if. rewrite Hrole. reflexivity.
  - intros -> Hcast _. unfold deleteTournament, route, query_call. rewrite Hcast.
    unmonad. simpl. destruct (G (TournamentFindByIdAndDelete id)); split; reflexivity.
  - intros -> Hid HG. destruct (object_id_castable _ Hid) as [Hcast Hprinted].
    unfold deleteTournament, route, query_call. rewrite HG, Hcast, Hprinted.
    unmonad. simpl. repeat (split; [reflexivity|]).
    intros F rq Hrq HF. subst id.
    unfold register, route, register_read, Tournament_findById. unmonad.
    rewrite HF. simpl. rewrite lookup_delete_eq. reflexivity.
Qed.

Lemma delete_tournament_refunds_nobody_witness :
  users (db (snd (deleteTournament no_query_faults "admin" Scenario.solo_id
                    RollbackScenario.rollback_world)))
  = Scenario.some_users
  /\ registrations (db (snd (deleteTournament no_query_faults "admin" Scenario.solo_id
                              RollbackScenario.rollback_world)))
     = [RollbackScenario.bob_registration]
  /\ fst (register no_faults Scenario.alice_request
            (snd (deleteTournament no_query_faults "admin" Scenario.solo_id
                    RollbackScenario.rollback_world)))
     = mkResponse 404 (Message "Tournament not found")
  /\ fst (deleteTournament no_query_faults "admin" "nope"
            RollbackScenario.rollback_world)
     = mkResponse 500 (Message "Server error")
  /\ deleteTournament no_query_faults "user" Scenario.solo_id
       RollbackScenario.rollback_world
     = (mkResponse 403 (Message "Admin access required"),
        RollbackScenario.rollback_world).
Proof.
  destruct (delete_tournament_refunds_nobody no_query_faults "admin" Scenario.solo_id
              RollbackScenario.rollback_world) as (_ & _ & Hadmin).
  destruct (Hadmin eq_refl eq_refl eq_refl) as (_ & _ & Hus & _ & Hrs & Hreg).
  split; [exact Hus|]. split; [exact Hrs|].
  split; [rewrite (Hreg no_faults Scenario.alice_request eq_refl eq_refl); reflexivity|].
  split.
  - destruct (delete_tournament_refunds_nobody no_query_faults "admin" "nope"
                RollbackScenario.rollback_world) as (_ & Hbad & _).
    exact (proj1 (Hbad eq_refl eq_refl ltac:(discriminate))).
  - apply (delete_tournament_refunds_nobody no_query_faults "user" Scenario.solo_id
             RollbackScenario.rollback_world).
    discriminate.
Defined.


(** ** Reading back what a registration stored *)

Lemma find_snoc_none {A} (p : A -> bool) (l : list A) (x : A) :
  (forall y, In y l -> p y = false) -> p x = true -> find p (l ++ [x]) = Some x.
Proof.
  intros Hnone Hx. apply find_snoc_new; [|exact Hx].
  destruct (find p l) as [y|] eqn:E; [|reflexivity].
  apply find_some in E as [Hin Hy]. rewrite (Hnone y Hin) in Hy. discriminate.
Qed.

(** X15. A registration can be read back: after a successful registration
    call, the user's registration endpoint returns, for that tournament, the
    record just created, with the id of the reply, the trimmed Free Fire id,
    the assigned team, the status registered and the tournament's entry
    fee. *)
Theorem registration_can_be_read_back F G rq w r w' :
  register F rq w = (r, w') ->
  statusCode r = 200 ->
  G (RegistrationFindOne (rq_userId rq) (rq_id rq)) = false ->
  exists t fromDeposit fromWinning newBalance rid team,
    tournaments (db w) !! rq_id rq = Some t
    /\ r = mkResponse 200 (Registered fromDeposit fromWinning newBalance rid team)
    /\ userRegistration G (rq_userId rq) (rq_id rq) w'
       = (Ok (mkRegistrationView rid (freeFireId_of rq) team "registered" (entryFee t)),
          w').
Proof.
  intros Hreg Hcode HG.
  destruct (register_outcome F rq w) as [[Hc _] | Hacc].
  { rewrite Hreg in Hc. contradiction. }
  destruct Hacc as (t & u & s & w2 & Hadm & _ & _ & _ & _ & _ & Hcase).
  cbv zeta in Hcase. rewrite Hreg in Hcase. simpl in Hcase.
  destruct Hcase as [(e & _ & Hr & _) | [(_ & _ & Hr & _) | (Hnone & _ & Hr & Hrs & _)]].
  { rewrite Hr in Hcode. exfalso. exact (register_on_error_code e Hcode). }
  { rewrite Hr in Hcode. discriminate. }
  destruct Hadm as (_ & _ & Ht & _).
  do 6 eexists. split; [exact Ht|]. split; [exact Hr|].
  unfold userRegistration, answer, query_call. rewrite HG. unmonad. rewrite Hrs.
  apply registration_save_error_none in Hnone.
  rewrite find_snoc_none.
  - reflexivity.
  - intros y Hin. destruct (registration_of _ _ y) eqn:E; [|reflexivity].
    unfold registration_of in E. apply andb_prop in E as [E1 E2].
    assert (Hconf : existsb (reg_conflict
                       (new_registration (nextId w2) rq t u (freeFireId_of rq)))
                      (registrations (db w)) = true).
    { apply existsb_exists. exists y. split; [exact Hin|].
      unfold reg_conflict. simpl. rewrite E1, E2. reflexivity. }
    congruence.
  - unfold registration_of. simpl. rewrite !String.eqb_refl. reflexivity.
Qed.

Lemma registration_can_be_read_back_witness :
  exists t fromDeposit fromWinning newBalance rid team,
    tournaments (db Scenario.world0) !! Scenario.solo_id = Some t
    /\ fst (register no_faults SoloScenario.team_request Scenario.world0)
       = mkResponse 200 (Registered fromDeposit fromWinning newBalance rid team)
    /\ userRegistration no_query_faults Scenario.alice_id Scenario.solo_id
         (snd (register no_faults SoloScenario.team_request Scenario.world0))
       = (Ok (mkRegistrationView rid "123456" team "registered" (entryFee t)),
          snd (register no_faults SoloScenario.team_request Scenario.world0)).
Proof.
  apply (registration_can_be_read_back no_faults no_query_faults
           SoloScenario.team_request Scenario.world0 _ _ (surjective_pairing _)).
  - vm_compute. reflexivity.
  - reflexivity.
Defined.

(** X16. The balance a reply reports is the balance that is stored: after a
    successful registration, and after a manual transaction answered 201, the
    profile of the user shows a deposit balance and a winning balance whose
    sum is the [newBalance] of the reply. *)
Theorem reported_balance_is_stored :
  (forall F F' rq w fromDeposit fromWinning newBalance rid team w',
     register F rq w
     = (mkResponse 200 (Registered fromDeposit fromWinning newBalance rid team), w') ->
     F' (UserFindById (rq_userId rq)) = false ->
     exists u, profile F' (rq_userId rq) w' = (Ok u, w')
               /\ depositAmount u + winningAmount u = newBalance)
  /\ (forall F F' rq w tx newBalance w',
        adminTransaction F rq w
        = (mkResponse 201 (TransactionLogged tx newBalance), w') ->
        F' (UserFindById (at_userId rq)) = false ->
        exists u, profile F' (at_userId rq) w' = (Ok u, w')
                  /\ depositAmount u + winningAmount u = newBalance).
Proof.
  split.
  - intros F F' rq w dd dw nb rid team w' Hreg HF'.
    destruct (register_success_inv _ _ _ _ _ Hreg eq_refl)
      as (t & u & s & rid' & _ & _ & Hr & Hus & _).
    injection Hr as -> -> -> -> ->.
    eexists. unfold profile, answer, User_findById, db_call. rewrite HF'. unmonad.
    rewrite Hus, lookup_insert_eq. split; reflexivity.
  - intros F F' rq w tx nb w' Hadm HF'.
    revert Hadm. rewrite adminTransaction_eq.
    destruct (negb _); [discriminate|].
    destruct (_ || _); [discriminate|].
    destruct (negb _); [discriminate|].
    destruct (F (UserFindById _)); [discriminate|].
    destruct (users (db w) !! at_userId rq) as [u|]; [|discriminate].
    destruct (adminBalanceUpdate _ _ _) as [u'|]; [|discriminate].
    destruct (F (UserSave _)); [discriminate|].
    destruct (logTransaction _ _ _ _ _ _ _ _ _) as [[tx0 | r0 | e] w2] eqn:Hlog.
    + intros [= <- <- <-].
      destruct (logTransaction_frame _ _ _ _ _ _ _ _ _ _ _ Hlog) as (Hus & _).
      exists u'. unfold profile, answer, User_findById, db_call. rewrite HF'. unmonad.
      rewrite Hus. simpl. rewrite lookup_insert_eq. split; reflexivity.
    + exfalso.
      destruct (logTransaction_frame _ _ _ _ _ _ _ _ _ _ _ Hlog) as (_ & _ & _ & Hno & _).
      exact (Hno r0 eq_refl).
    + rewrite (admin_on_error_throw _ _ _ _ _ _ _ _ _ _ _ Hlog). discriminate.
Qed.

Lemma reported_balance_is_stored_witness :
  (exists u,
     profile no_faults Scenario.alice_id
       (snd (register no_faults Scenario.alice_request Scenario.world0))
     = (Ok u, snd (register no_faults Scenario.alice_request Scenario.world0))
     /\ depositAmount u + winningAmount u = 10)
  /\ (exists u,
        profile no_faults Scenario.alice_id
          (snd (adminTransaction no_faults
                  (mkAdminTxRequest "admin" Scenario.alice_id "withdrawal" 35
                     "Manual withdrawal" "wd-1" "withdrawal_id" no_metadata)
                  Scenario.world0))
        = (Ok u, snd (adminTransaction no_faults
                        (mkAdminTxRequest "admin" Scenario.alice_id "withdrawal" 35
                           "Manual withdrawal" "wd-1" "withdrawal_id" no_metadata)
                        Scenario.world0))
        /\ depositAmount u + winningAmount u = 15).
Proof.
  destruct reported_balance_is_stored as [Hreg Hadm]. split.
  - apply (Hreg no_faults no_faults Scenario.alice_request Scenario.world0
             30 10 10 1%nat JNull).
    + vm_compute. reflexivity.
    + reflexivity.
  - apply (Hadm no_faults no_faults
             (mkAdminTxRequest "admin" Scenario.alice_id "withdrawal" 35
                "Manual withdrawal" "wd-1" "withdrawal_id" no_metadata)
             Scenario.world0
             (mkTransaction 0 Scenario.alice_id "withdrawal" (-35) "Manual withdrawal"
                "wd-1" "withdrawal_id" no_metadata "completed")).
    + vm_compute. reflexivity.
    + reflexivity.
Defined.

(** ** The tournament listings *)

#[local] Instance by_startTime_transitive : Transitive by_startTime.
Proof. intros a b c. unfold by_startTime. lia. Qed.

#[local] Instance by_startTime_total : Total by_startTime.
Proof. intros a b. unfold by_startTime. lia. Qed.

Lemma find_sorted_spec query d :
  StronglySorted by_startTime (find_sorted query d)
  /\ NoDup (find_sorted query d)
  /\ forall id t,
       (id, t) ∈ find_sorted query d
       <-> tournaments d !! id = Some t /\ query (id, t) = true.
Proof.
  unfold find_sorted. split; [|split].
  - apply (StronglySorted_merge_sort _).
  - rewrite merge_sort_Permutation. apply NoDup_ListNoDup, List.NoDup_filter.
    apply NoDup_ListNoDup, NoDup_map_to_list.
  - intros id t. rewrite merge_sort_Permutation, list_elem_of_In, filter_In,
      <- list_elem_of_In, elem_of_map_to_list. reflexivity.
Qed.

Lemma take_all_or_full {A} (n : nat) (l : list A) :
  take n l = l \/ (length (take n l) = n /\ drop n l <> []).
Proof.
  destruct (decide (length l <= n)%nat) as [Hle | Hgt].
  - left. apply take_ge. exact Hle.
  - right. split.
    + rewrite length_take. lia.
    + intros Hnil. apply (f_equal length) in Hnil. rewrite length_drop in Hnil.
      simpl in Hnil. lia.
Qed.

(** X17. The public listing answers with at most 20 tournaments, each of them
    stored and not completed, none twice, in the order of their start time.
    A stored tournament that is not completed is missing from it only when
    the listing is full and every listed tournament starts no later than the
    missing one.  Nothing stored changes. *)
Theorem listing_is_sorted_and_capped G w :
  G TournamentFind = false ->
  exists l,
    listTournaments G w = (Ok l, w)
    /\ (length l <= 20)%nat
    /\ StronglySorted by_startTime l
    /\ NoDup l
    /\ (forall id t, (id, t) ∈ l ->
          tournaments (db w) !! id = Some t /\ status t <> completed)
    /\ (forall id t,
          tournaments (db w) !! id = Some t -> status t <> completed ->
          (id, t) ∈ l
          \/ (length l = 20%nat
              /\ forall x, x ∈ l -> startTime (snd x) <= startTime t)).
Proof.
  intros HG. eexists. unfold listTournaments, answer, query_call. rewrite HG.
  unmonad. split; [reflexivity|].
  set (q := fun x : string * Tournament => is_open (status (snd x))).
  destruct (find_sorted_spec q (db w)) as (Hsorted & Hnodup & Hmem).
  set (all := find_sorted q (db w)) in *.
  assert (Hopen : forall t, is_open (status t) = true <-> status t <> completed).
  { intros t. destruct (status t); simpl; split; congruence. }
  pose proof (take_drop 20 all) as Hsplit.
  split; [rewrite length_take; lia|].
  split; [rewrite <- Hsplit in Hsorted; exact (StronglySorted_app_1_l _ _ _ Hsorted)|].
  split; [rewrite <- Hsplit in Hnodup; apply NoDup_app in Hnodup; tauto|].
  split.
  - intros id t Hin. apply elem_of_take in Hin as (i & Hi & _).
    apply list_elem_of_lookup_2 in Hi. apply Hmem in Hi as [Ht Hq].
    split; [exact Ht|]. apply Hopen. exact Hq.
  - intros id t Ht Hst.
    assert (Hin : (id, t) ∈ all).
    { apply Hmem. split; [exact Ht|]. apply Hopen. exact Hst. }
    rewrite <- Hsplit in Hin. apply elem_of_app in Hin as [Hin | Hin]; [left; exact Hin|].
    right. destruct (take_all_or_full 20 all) as [Hall | [Hlen _]].
    + rewrite <- Hsplit in Hall at 2.
      rewrite <- (app_nil_r (take 20 all)) in Hall at 1.
      apply app_inv_head in Hall. rewrite <- Hall in Hin. inversion Hin.
    + split; [exact Hlen|]. intros x Hx.
      rewrite <- Hsplit in Hsorted.
      exact (StronglySorted_app_1_elem_of _ _ _ _ _ Hsorted Hx Hin).
Qed.

Lemma listing_is_sorted_and_capped_witness :
  exists l,
    listTournaments no_query_faults ListingScenario.season_world
    = (Ok l, ListingScenario.season_world)
    /\ (length l <= 20)%nat
    /\ StronglySorted by_startTime l
    /\ NoDup l
    /\ (forall id t, (id, t) ∈ l ->
          tournaments (db ListingScenario.season_world) !! id = Some t
          /\ status t <> completed)
    /\ (forall id t,
          tournaments (db ListingScenario.season_world) !! id = Some t ->
          status t <> completed ->
          (id, t) ∈ l
          \/ (length l = 20%nat
              /\ forall x, x ∈ l -> startTime (snd x) <= startTime t)).
Proof.
  apply (listing_is_sorted_and_capped no_query_faults ListingScenario.season_world).
  reflexivity.
Defined.

(** The listing of the season, evaluated: of the 25 open tournaments the 20
    that start first, the earliest first. *)
Example listing_of_the_season :
  exists l,
    listTournaments no_query_faults ListingScenario.season_world
    = (Ok l, ListingScenario.season_world)
    /\ map (fun x => tournamentId (snd x)) l
       = ["FF-S-29"; "FF-S-27"; "FF-S-26"; "FF-S-25"; "FF-S-24"; "FF-S-23"; "FF-S-22";
          "FF-S-20"; "FF-S-19"; "FF-S-18"; "FF-S-17"; "FF-S-16"; "FF-S-15"; "FF-S-13";
          "FF-S-12"; "FF-S-11"; "FF-S-10"; "FF-S-9"; "FF-S-8"; "FF-S-6"]
    /\ map (fun x => startTime (snd x)) l
       = [971; 973; 974; 975; 976; 977; 978; 980; 981; 982; 983; 984; 985; 987; 988;
          989; 990; 991; 992; 994].
Proof. eexists. split; [vm_compute; reflexivity|]. split; reflexivity. Qed.


(** X18. A tournament just joined shows up among the user's tournaments:
    after a successful registration call the user's own listing contains the
    tournament, with the user among its registered users and one more
    registered player.  Every tournament of that listing is stored, is not
    completed and has the user among its registered users, and the listing
    is in the order of the start times. *)
Theorem joined_tournament_is_listed F G rq w r w' :
  register F rq w = (r, w') ->
  statusCode r = 200 ->
  G TournamentFind = false ->
  exists t l,
    tournaments (db w) !! rq_id rq = Some t
    /\ myTournaments G (rq_userId rq) w' = (Ok l, w')
    /\ (rq_id rq, tournament_after_registration t (rq_userId rq)) ∈ l
    /\ StronglySorted by_startTime l
    /\ forall id t', (id, t') ∈ l ->
         tournaments (db w') !! id = Some t'
         /\ In (rq_userId rq) (registeredUsers t')
         /\ status t' <> completed.
Proof.
  intros Hreg Hcode HG.
  destruct (register_success_inv _ _ _ _ _ Hreg Hcode)
    as (t & u & s & rid & Hadm & _ & _ & _ & Hts & _).
  destruct Hadm as (_ & _ & Ht & _ & Hguards).
  unfold guards_pass in Hguards.
  apply andb_prop in Hguards as [Hguards _].
  apply andb_prop in Hguards as [Hguards _].
  apply andb_prop in Hguards as [Hup _].
  exists t. eexists. split; [exact Ht|].
  unfold myTournaments, answer, query_call. rewrite HG. unmonad.
  split; [reflexivity|].
  set (q := fun x : string * Tournament =>
              member (rq_userId rq) (registeredUsers (snd x))
              && is_open (status (snd x))).
  destruct (find_sorted_spec q (db w')) as (Hsorted & _ & Hmem).
  split; [|split; [exact Hsorted|]].
  - apply Hmem. rewrite Hts, lookup_insert_eq. split; [reflexivity|].
    unfold q. simpl. rewrite member_snoc. simpl.
    destruct (status t); [reflexivity | discriminate | discriminate].
  - intros id t' Hin. apply Hmem in Hin as [Hstored Hq].
    split; [exact Hstored|]. unfold q in Hq. simpl in Hq.
    apply andb_prop in Hq as [Hm Ho]. split; [apply member_In; exact Hm|].
    destruct (status t'); simpl in Ho; congruence.
Qed.

Lemma joined_tournament_is_listed_witness :
  exists t l,
    tournaments (db Scenario.world0) !! Scenario.solo_id = Some t
    /\ myTournaments no_query_faults Scenario.alice_id
         (snd (register no_faults Scenario.alice_request Scenario.world0))
       = (Ok l, snd (register no_faults Scenario.alice_request Scenario.world0))
    /\ (Scenario.solo_id, tournament_after_registration t Scenario.alice_id) ∈ l
    /\ StronglySorted by_startTime l
    /\ forall id t', (id, t') ∈ l ->
         tournaments (db (snd (register no_faults Scenario.alice_request
                                 Scenario.world0))) !! id = Some t'
         /\ In Scenario.alice_id (registeredUsers t')
         /\ status t' <> completed.
Proof.
  apply (joined_tournament_is_listed no_faults no_query_faults
           Scenario.alice_request Scenario.world0 _ _ (surjective_pairing _)).
  - vm_compute. reflexivity.
  - reflexivity.
Defined.

(** ** Payments *)

Lemma logDeposit_eq F rq amount w :
  logDeposit F rq amount w =
    match logTransaction F (vp_userId rq) "deposit" amount "Wallet deposit via Razorpay"
            (razorpay_payment_id rq) "payment_id"
            (mkMetadata None (Some (razorpay_payment_id rq))
               (Some (razorpay_order_id rq)) None) w with
    | (Val _, w2) => (Val tt, w2)
    | (Reply r, w2) => (Reply r, w2)
    | (Throw e, w2) =>
        (Val tt,
         mkWorld (db w2) (nextId w2)
           (console w2 ++ [LogError "Error logging deposit transaction:" e]))
    end.
Proof.
  unfold logDeposit, try_catch, bind.
  destruct (logTransaction _ _ _ _ _ _ _ _ _) as [[e | r | e] w2]; reflexivity.
Qed.

Lemma logDeposit_frame F rq amount w :
  exists w',
    logDeposit F rq amount w = (Val tt, w')
    /\ users (db w') = users (db w)
    /\ tournaments (db w') = tournaments (db w)
    /\ registrations (db w') = registrations (db w).
Proof.
  rewrite logDeposit_eq.
  destruct (logTransaction _ _ _ _ _ _ _ _ _) as [[tx | r | e] w2] eqn:Hlog;
    destruct (logTransaction_frame _ _ _ _ _ _ _ _ _ _ _ Hlog)
      as (Hus & Hts & Hrs & Hno & _).
  - eexists. repeat split; assumption.
  - exfalso. exact (Hno r eq_refl).
  - eexists. split; [reflexivity|]. simpl. repeat split; assumption.
Qed.


Lemma receipt_ok_spec v :
  receipt_ok v = true <-> exists s, v = JStr s /\ length (split_on "_" s) = 3%nat.
Proof.
  split.
  - destruct v as [| | b | n | s]; simpl; try discriminate.
    intros H. exists s. split; [reflexivity|]. apply Nat.eqb_eq. exact H.
  - intros (s & -> & H). simpl. apply Nat.eqb_eq. exact H.
Qed.

Lemma verifyPayment_eq hmac key payments F G rq w :
  verifyPayment hmac key payments F G rq w =
    let failed e :=
      (Refused (payment_error e),
       mkWorld (db w) (nextId w)
         (console w ++ [LogError "Payment verification error:" e])) in
    match key with
    | None => failed TypeError
    | Some k =>
      if negb (String.eqb (razorpay_signature rq)
                 (hmac k (razorpay_order_id rq ++ "|" ++ razorpay_payment_id rq)))
      then (Refused (mkResponse 400 (Message "Payment verification failed")), w)
      else
        match vp_receipt rq with
        | JStr receipt =>
          if negb (Nat.eqb (length (split_on "_" receipt)) 3)
          then (Refused (mkResponse 400 (Message "Invalid receipt format")), w)
          else if G (PaymentsFetch (razorpay_payment_id rq)) then failed DbFailure
          else
            match payments !! razorpay_payment_id rq with
            | None => failed DbFailure
            | Some rupees =>
              let paisa := 100 * rupees in
              if F (UserFindById (vp_userId rq)) then failed DbFailure
              else
                match users (db w) !! vp_userId rq with
                | None => (Refused (mkResponse 404 (Message "User not found")), w)
                | Some u =>
                  if F (UserSave (vp_userId rq)) then failed DbFailure
                  else
                    (Ok (mkPaymentView (paisa / 100)
                           (depositAmount u + paisa / 100 + winningAmount u)),
                     snd (logDeposit F rq (paisa / 100)
                            (after_credit w rq u (paisa / 100))))
                end
            end
        | _ => failed TypeError
        end
    end.
Proof.
  cbv zeta. unfold verifyPayment, answer, payments_fetch, query_call,
    User_findById, User_save.
  unmonad.
  destruct key as [k|]; [|reflexivity].
  destruct (negb (String.eqb _ _)); [reflexivity|].
  destruct (vp_receipt rq) as [| | b | n | receipt]; try reflexivity.
  destruct (negb (Nat.eqb _ _)); [reflexivity|].
  destruct (G (PaymentsFetch _)); [reflexivity|].
  destruct (payments !! razorpay_payment_id rq) as [rupees|]; [|reflexivity].
  destruct (F (UserFindById _)); [reflexivity|].
  destruct (users (db w) !! vp_userId rq) as [u|] eqn:Hu; [|reflexivity].
  destruct (F (UserSave _)); [reflexivity|].
  cbn beta iota. rewrite Hu. cbn beta iota.
  fold (after_credit w rq u (100 * rupees / 100)).
  destruct (logDeposit_frame F rq (100 * rupees / 100)
              (after_credit w rq u (100 * rupees / 100)))
    as (w2 & Hlog & _).
  rewrite Hlog. reflexivity.
Qed.




(** X20. Nothing is credited without a signed request, a receipt of three
    parts, a payment the gateway knows and a stored user: when one of them is
    missing the call is refused and nothing stored changes. *)
Theorem unverified_payment_credits_nothing hmac key payments F G rq w :
  (forall k, key = Some k -> ~ signed hmac k rq)
  \/ receipt_ok (vp_receipt rq) = false
  \/ payments !! razorpay_payment_id rq = None
  \/ users (db w) !! vp_userId rq = None ->
  db (snd (verifyPayment hmac key payments F G rq w)) = db w
  /\ exists r, fst (verifyPayment hmac key payments F G rq w) = Refused r.
Proof.
  intros Hmissing. rewrite verifyPayment_eq. cbv zeta.
  destruct key as [k|]; [|split; [reflexivity | eexists; reflexivity]].
  destruct (String.eqb _ _) eqn:Hsig; cbn [negb];
    [|split; [reflexivity | eexists; reflexivity]].
  apply String.eqb_eq in Hsig.
  destruct (vp_receipt rq) as [| | b | n | receipt] eqn:Hrec;
    try (split; [reflexivity | eexists; reflexivity]).
  destruct (Nat.eqb _ _) eqn:Hparts; cbn [negb];
    [|split; [reflexivity | eexists; reflexivity]].
  destruct (G (PaymentsFetch _)); [split; [reflexivity | eexists; reflexivity]|].
  destruct (payments !! razorpay_payment_id rq) as [paisa|] eqn:Hpay;
    [|split; [reflexivity | eexists; reflexivity]].
  destruct (F (UserFindById _)); [split; [reflexivity | eexists; reflexivity]|].
  destruct (users (db w) !! vp_userId rq) as [u|] eqn:Hu;
    [|split; [reflexivity | eexists; reflexivity]].
  exfalso. destruct Hmissing as [Hno | [Hbad | [Hnone | Hnone]]].
  - exact (Hno k eq_refl Hsig).
  - simpl in Hbad. congruence.
  - discriminate.
  - discriminate.
Qed.

Lemma unverified_payment_credits_nothing_witness :
  db (snd (verifyPayment PaymentScenario.tag (Some "secret") PaymentScenario.captured
             no_faults no_query_faults
             (with_receipt PaymentScenario.alice_payment (JStr "rcpt_1"))
             Scenario.world0))
  = db Scenario.world0
  /\ exists r,
       fst (verifyPayment PaymentScenario.tag (Some "secret") PaymentScenario.captured
              no_faults no_query_faults
              (with_receipt PaymentScenario.alice_payment (JStr "rcpt_1"))
              Scenario.world0)
       = Refused r.
Proof.
  apply unverified_payment_credits_nothing. right. left. reflexivity.
Defined.

(** X21. What the receipt says plays no part: two requests that differ only
    in their receipts, both of three parts, get the same answer and leave the
    same state behind. *)
Theorem receipt_content_is_ignored hmac key payments F G rq receipt w :
  receipt_ok (vp_receipt rq) = true ->
  receipt_ok receipt = true ->
  verifyPayment hmac key payments F G (with_receipt rq receipt) w
  = verifyPayment hmac key payments F G rq w.
Proof.
  intros H1 H2.
  apply receipt_ok_spec in H1 as (s1 & Hs1 & Hp1).
  apply receipt_ok_spec in H2 as (s2 & -> & Hp2).
  rewrite !verifyPayment_eq. cbv zeta.
  rewrite Hs1. cbn [with_receipt vp_receipt razorpay_signature razorpay_order_id
                      razorpay_payment_id vp_userId].
  rewrite Hp1, Hp2.
  destruct key as [k|]; [|reflexivity].
  destruct (negb (String.eqb _ _)); [reflexivity|].
  cbn [Nat.eqb negb].
  destruct (G (PaymentsFetch _)); [reflexivity|].
  destruct (payments !! razorpay_payment_id rq) as [paisa|]; [|reflexivity].
  destruct (F (UserFindById _)); [reflexivity|].
  destruct (users (db w) !! vp_userId rq) as [u|]; [|reflexivity].
  destruct (F (UserSave _)); [reflexivity|].
  reflexivity.
Qed.

Lemma receipt_content_is_ignored_witness :
  verifyPayment PaymentScenario.tag (Some "secret") PaymentScenario.captured
    no_faults no_query_faults
    (with_receipt PaymentScenario.alice_payment (JStr "rcpt_999999_beef"))
    Scenario.world0
  = verifyPayment PaymentScenario.tag (Some "secret") PaymentScenario.captured
      no_faults no_query_faults PaymentScenario.alice_payment Scenario.world0.
Proof.
  apply receipt_content_is_ignored; reflexivity.
Defined.

(** ** The receipt of an order *)

Lemma split_on_length sep s : length (split_on sep s) = S (count_of sep s).
Proof.
  induction s as [|c s IH]; [reflexivity|]. simpl.
  destruct (Ascii.eqb c sep); simpl; [rewrite IH; reflexivity|].
  destruct (split_on sep s) as [|part parts]; simpl in *; [discriminate|exact IH].
Qed.

Lemma count_of_app c s1 s2 :
  count_of c (s1 ++ s2) = (count_of c s1 + count_of c s2)%nat.
Proof. induction s1 as [|a s1 IH]; simpl; [reflexivity|rewrite IH; lia]. Qed.

Lemma count_of_substring c n m s :
  (count_of c (substring n m s) <= count_of c s)%nat.
Proof.
  revert n m. induction s as [|a s IH]; intros n m.
  - destruct n, m; simpl; lia.
  - destruct n as [|n].
    + destruct m as [|m]; simpl; [lia|]. specialize (IH 0%nat m). lia.
    + simpl. specialize (IH n m). lia.
Qed.

Lemma count_of_uint d : count_of "_" (NilEmpty.string_of_uint d) = 0%nat.
Proof. induction d; simpl; auto. Qed.

Lemma count_of_show_Z z : count_of "_" (show_Z z) = 0%nat.
Proof.
  unfold show_Z, NilZero.string_of_int, NilZero.string_of_uint.
  destruct (Z.to_int z) as [d | d]; destruct d; simpl; auto using count_of_uint;
    exact (count_of_uint _).
Qed.

Lemma new_receipt_parts now userId :
  length (split_on "_" (new_receipt now userId))
  = (3 + count_of "_" (slice_last 4 userId))%nat.
Proof.
  rewrite split_on_length. unfold new_receipt.
  change ("rcpt_" ++ slice_last 6 (show_Z now) ++ "_" ++ slice_last 4 userId)
    with ("rcpt_" ++ (slice_last 6 (show_Z now) ++ ("_" ++ slice_last 4 userId))).
  rewrite !count_of_app.
  assert (H : count_of "_" (slice_last 6 (show_Z now)) = 0%nat).
  { pose proof (count_of_substring "_" (String.length (show_Z now) - 6) 6 (show_Z now)).
    rewrite count_of_show_Z in H. unfold slice_last. lia. }
  rewrite H. reflexivity.
Qed.

(** X22. An order is made only for an amount from 10 to 10000 and with both
    keys configured, and making it stores nothing.  When the gateway returns
    the receipt it was sent and the id of the user holds no underscore, the
    receipt of the order has the three parts the verification asks for. *)
Theorem created_receipt_is_accepted key_id key_secret orders_create G now userId amount
    w order w' :
  createPaymentOrder key_id key_secret orders_create G now userId amount w
  = (Ok order, w') ->
  (forall o made, orders_create o = Some made -> order_receipt made = oo_receipt o) ->
  count_of "_" userId = 0%nat ->
  10 <= amount <= 10000
  /\ configured key_id = true /\ configured key_secret = true
  /\ w' = w
  /\ receipt_ok (JStr (order_receipt order)) = true.
Proof.
  unfold createPaymentOrder, answer, query_call. unmonad.
  intros Hmade Hecho Hid.
  destruct ((amount =? 0) || (amount <? 10) || (amount >? 10000)) eqn:Hamount;
    [discriminate|].
  destruct (negb (configured key_id) || negb (configured key_secret)) eqn:Hkeys;
    [discriminate|].
  destruct (G OrdersCreate); [discriminate|].
  destruct (orders_create _) as [made|] eqn:Hcreate; [|discriminate].
  injection Hmade as -> <-.
  apply orb_false_elim in Hamount as [Hamount Hhi].
  apply orb_false_elim in Hamount as [_ Hlo].
  apply orb_false_elim in Hkeys as [Hk1 Hk2].
  apply negb_false_iff in Hk1, Hk2.
  split; [lia|]. split; [exact Hk1|]. split; [exact Hk2|]. split; [reflexivity|].
  rewrite (Hecho _ _ Hcreate). cbn [oo_receipt receipt_ok].
  rewrite new_receipt_parts.
  pose proof (count_of_substring "_" (String.length userId - 4) 4 userId) as Hsub.
  unfold slice_last. replace (count_of "_" (substring _ 4 userId)) with 0%nat by lia.
  reflexivity.
Qed.

Lemma created_receipt_is_accepted_witness :
  10 <= 50 <= 10000
  /\ configured (Some "rzp_test") = true /\ configured (Some "secret") = true
  /\ Scenario.world0 = Scenario.world0
  /\ receipt_ok (JStr "rcpt_000000_0001") = true.
Proof.
  apply (created_receipt_is_accepted (Some "rzp_test") (Some "secret")
           PaymentScenario.echo no_query_faults 1700000000000 Scenario.alice_id 50
           Scenario.world0
           (mkOrder "order_7" 5000 "INR" "rcpt_000000_0001") Scenario.world0).
  - vm_compute. reflexivity.
  - intros o made [= <-]. reflexivity.
  - reflexivity.
Defined.

(** ** The room of a tournament *)

Lemma roomAccess_eq F L userId id w :
  roomAccess F L userId id w =
    if F (TournamentFindById id)
    then (Refused (mkResponse 500 (Message "Server error")),
          mkWorld (db w) (nextId w)
            (console w ++ [LogError "Error fetching room details:" DbFailure]))
    else
      match tournaments (db w) !! id with
      | None => (Refused (mkResponse 404 (Message "Tournament not found")), w)
      | Some t =>
        if negb (member userId (registeredUsers t))
        then (Refused (mkResponse 403
                         (Message "You are not registered for this tournament")), w)
        else if negb (room_open (status t))
        then (Refused (mkResponse 400 (Message "Room details are not available yet")), w)
        else (Ok (mkRoomView (tournamentId t) (roomId (lobby_of L id))
                    (roomPassword (lobby_of L id)) (prizes (lobby_of L id))
                    (status t) (startTime t)), w)
      end.
Proof.
  unfold roomAccess, answer, Tournament_findById. unmonad.
  destruct (F (TournamentFindById id)); [reflexivity|]. cbn beta iota.
  destruct (tournaments (db w) !! id) as [t|]; [|reflexivity].
  destruct (negb (member _ _)); [reflexivity|].
  destruct (negb (room_open _)); reflexivity.
Qed.

Lemma trimmed_field_eq v message set l w :
  trimmed_field v message set l w =
    match checked_trimmed v message set l with
    | inl m => (Reply (mkResponse 400 (Message m)), w)
    | inr l' => (Val l', w)
    end.
Proof.
  unfold trimmed_field, checked_trimmed.
  destruct v as [| | b | n | s]; try reflexivity.
  destruct (Nat.eqb _ _); reflexivity.
Qed.

Lemma customUrl_field_eq v l w :
  customUrl_field v l w =
    match checked_customUrl v l with
    | inl m => (Reply (mkResponse 400 (Message m)), w)
    | inr l' => (Val l', w)
    end.
Proof.
  unfold customUrl_field, checked_customUrl. unmonad.
  destruct v as [| | b | n | s]; try reflexivity;
    destruct (_ && _); reflexivity.
Qed.

Lemma roomNotes_field_eq v l w :
  roomNotes_field v l w = (Val (checked_roomNotes v l), w).
Proof. destruct v; reflexivity. Qed.

Lemma updateRoomDetails_eq F G role id rq L w :
  updateRoomDetails F G role id rq L w =
    let failed :=
      (Refused (mkResponse 500 (Message "Server error")),
       (mkWorld (db w) (nextId w)
          (console w ++ [LogError "Error updating tournament room details:" DbFailure]),
        L)) in
    if negb (String.eqb role "admin")
    then (Refused (mkResponse 403 (Message "Admin access required")), (w, L))
    else if F (TournamentFindById id) then failed
    else
      match tournaments (db w) !! id with
      | None => (Refused (mkResponse 404 (Message "Tournament not found")), (w, L))
      | Some t =>
        match room_fields rq (lobby_of L id) with
        | inl m => (Refused (mkResponse 400 (Message m)), (w, L))
        | inr l =>
          if G (TournamentSaveRoom id) then failed
          else (Ok (room_details t l), (w, <[id := l]> L))
        end
      end.
Proof.
  cbv zeta. unfold updateRoomDetails, answer, Tournament_findById, Tournament_save_room,
    query_call, db_call, room_fields.
  unfold bind at 1. unfold return_if at 1.
  destruct (negb (String.eqb role "admin")); [reflexivity|].
  unfold ret at 1. unfold bind at 1.
  destruct (F (TournamentFindById id)); [reflexivity|].
  unfold bind at 1. unfold get_db at 1. unfold ret at 1.
  destruct (tournaments (db w) !! id) as [t|] eqn:Ht; [|reflexivity].
  unfold bind at 1. rewrite trimmed_field_eq.
  destruct (checked_trimmed (rd_roomId rq) _ _ _) as [m | l1]; [reflexivity|].
  unfold bind at 1. rewrite trimmed_field_eq.
  destruct (checked_trimmed (rd_roomPassword rq) _ _ _) as [m | l2]; [reflexivity|].
  unfold bind at 1. rewrite customUrl_field_eq.
  destruct (checked_customUrl _ _) as [m | l3]; [reflexivity|].
  unfold bind at 1. rewrite roomNotes_field_eq.
  unfold bind at 1.
  destruct (G (TournamentSaveRoom id)); [reflexivity|].
  unmonad. rewrite Ht. reflexivity.
Qed.

Lemma registered_guards F w rq t u :
  accepts F w rq t u ->
  status t = upcoming /\ member (rq_userId rq) (registeredUsers t) = false.
Proof.
  intros (_ & _ & _ & _ & Hguards). unfold guards_pass in Hguards.
  apply andb_prop in Hguards as [Hguards _].
  apply andb_prop in Hguards as [Hguards Hmember].
  apply andb_prop in Hguards as [Hup _].
  apply is_upcoming_spec in Hup. apply negb_true_iff in Hmember. tauto.
Qed.

(** X23. Registering does not open the room: right after a successful
    registration the user is refused the room details of that tournament
    with the answer that they are not available yet. *)
Theorem room_closed_after_registration F F' L rq w r w' :
  register F rq w = (r, w') ->
  statusCode r = 200 ->
  F' (TournamentFindById (rq_id rq)) = false ->
  roomAccess F' L (rq_userId rq) (rq_id rq) w'
  = (Refused (mkResponse 400 (Message "Room details are not available yet")), w').
Proof.
  intros Hreg Hcode HF'.
  destruct (register_success_inv _ _ _ _ _ Hreg Hcode)
    as (t & u & s & rid & Hadm & _ & _ & _ & Hts & _).
  destruct (registered_guards _ _ _ _ _ Hadm) as [Hup _].
  rewrite roomAccess_eq, HF', Hts, lookup_insert_eq.
  cbn [registeredUsers tournament_after_registration status].
  rewrite member_snoc, Hup. reflexivity.
Qed.

Lemma room_closed_after_registration_witness :
  roomAccess no_faults ∅ Scenario.alice_id Scenario.solo_id
    (snd (register no_faults Scenario.alice_request Scenario.world0))
  = (Refused (mkResponse 400 (Message "Room details are not available yet")),
     snd (register no_faults Scenario.alice_request Scenario.world0)).
Proof.
  apply (room_closed_after_registration no_faults no_faults ∅ Scenario.alice_request
           Scenario.world0 _ _ (surjective_pairing _)).
  - vm_compute. reflexivity.
  - reflexivity.
Defined.

(** X24. A call that stores a registration record without succeeding leaves
    the user outside: the record can be read back as registered and the
    entry fee has been taken, but the tournament does not list the user, so
    the room details are refused as to somebody who is not registered. *)
Theorem recorded_but_locked_out F F' G L rq w :
  statusCode (fst (register F rq w)) <> 200 ->
  registrations (db (snd (register F rq w))) <> registrations (db w) ->
  G (RegistrationFindOne (rq_userId rq) (rq_id rq)) = false ->
  F' (TournamentFindById (rq_id rq)) = false ->
  let w' := snd (register F rq w) in
  (exists view,
     userRegistration G (rq_userId rq) (rq_id rq) w' = (Ok view, w')
     /\ rv_status view = "registered")
  /\ roomAccess F' L (rq_userId rq) (rq_id rq) w'
     = (Refused (mkResponse 403
                   (Message "You are not registered for this tournament")), w')
  /\ exists t u s,
       tournaments (db w) !! rq_id rq = Some t
       /\ users (db w) !! rq_userId rq = Some u
       /\ computeSplit (depositAmount u) (winningAmount u) (entryFee t) = SplitOk s
       /\ users (db w') !! rq_userId rq
          = Some (with_balances u (newDeposit s) (newWinning s)).
Proof.
  intros Hcode Hregs HG HF' w'. subst w'.
  destruct (register_outcome F rq w) as [[_ Hdb] | Hacc].
  { exfalso. apply Hregs. rewrite Hdb. reflexivity. }
  destruct Hacc as (t & u & s & w2 & Hadm & Hs & _ & _ & Hus & _ & Hcase).
  cbv zeta in Hcase.
  destruct Hcase as [(e & _ & _ & Hrs & _) | [(Hnone & _ & _ & Hrs & Hts) | (_ & _ & Hr & _)]].
  { exfalso. apply Hregs. exact Hrs. }
  2: { exfalso. apply Hcode. rewrite Hr. reflexivity. }
  destruct (registered_guards _ _ _ _ _ Hadm) as [_ Hmember].
  destruct Hadm as (_ & _ & Ht & Hu & _).
  split; [|split].
  - eexists. unfold userRegistration, answer, query_call. rewrite HG. unmonad.
    rewrite Hrs. apply registration_save_error_none in Hnone.
    rewrite find_snoc_none.
    + split; reflexivity.
    + intros y Hin. destruct (registration_of _ _ y) eqn:E; [|reflexivity].
      unfold registration_of in E. apply andb_prop in E as [E1 E2].
      assert (Hconf : existsb (reg_conflict
                         (new_registration (nextId w2) rq t u (freeFireId_of rq)))
                        (registrations (db w)) = true).
      { apply existsb_exists. exists y. split; [exact Hin|].
        unfold reg_conflict. simpl. rewrite E1, E2. reflexivity. }
      congruence.
    + unfold registration_of. simpl. rewrite !String.eqb_refl. reflexivity.
  - rewrite roomAccess_eq, HF', Hts, Ht, Hmember. reflexivity.
  - exists t, u, s. split; [exact Ht|]. split; [exact Hu|]. split; [exact Hs|].
    rewrite Hus. apply lookup_insert_eq.
Qed.

Lemma recorded_but_locked_out_witness :
  let w' := snd (register RoomScenario.tournament_save_faults Scenario.alice_request
                   Scenario.world0) in
  (exists view,
     userRegistration no_query_faults Scenario.alice_id Scenario.solo_id w'
     = (Ok view, w')
     /\ rv_status view = "registered")
  /\ roomAccess no_faults ∅ Scenario.alice_id Scenario.solo_id w'
     = (Refused (mkResponse 403
                   (Message "You are not registered for this tournament")), w')
  /\ exists t u s,
       tournaments (db Scenario.world0) !! Scenario.solo_id = Some t
       /\ users (db Scenario.world0) !! Scenario.alice_id = Some u
       /\ computeSplit (depositAmount u) (winningAmount u) (entryFee t) = SplitOk s
       /\ users (db w') !! Scenario.alice_id
          = Some (with_balances u (newDeposit s) (newWinning s)).
Proof.
  apply (recorded_but_locked_out RoomScenario.tournament_save_faults no_faults
           no_query_faults ∅ Scenario.alice_request Scenario.world0).
  - vm_compute. discriminate.
  - vm_compute. discriminate.
  - reflexivity.
  - reflexivity.
Defined.

(** Checking the fields of a request against room fields that already hold
    them gives these room fields back. *)
Lemma room_fields_idempotent rq l l' :
  room_fields rq l = inr l' -> room_fields rq l' = inr l'.
Proof.
  unfold room_fields, checked_trimmed, checked_customUrl, checked_roomNotes.
  destruct l as [s p c n pr]. unfold set_roomId, set_roomPassword, set_customUrl,
    set_roomNotes. cbn [roomId roomPassword customUrl roomNotes prizes].
  destruct (rd_roomId rq) as [| | b1 | k1 | x1]; try discriminate;
    [|destruct (Nat.eqb (String.length (trim x1)) 0) eqn:E1; [discriminate|]];
    (destruct (rd_roomPassword rq) as [| | b2 | k2 | x2]; try discriminate;
     [|destruct (Nat.eqb (String.length (trim x2)) 0) eqn:E2; [discriminate|]];
     cbn [roomId roomPassword customUrl roomNotes prizes];
     (destruct (rd_customUrl rq) as [| | b3 | k3 | x3];
      [|destruct (truthy JNull && not_a_url JNull) eqn:E3; [discriminate|]
       |destruct (truthy (JBool b3) && not_a_url (JBool b3)) eqn:E3; [discriminate|]
       |destruct (truthy (JNum k3) && not_a_url (JNum k3)) eqn:E3; [discriminate|]
       |destruct (truthy (JStr x3) && not_a_url (JStr x3)) eqn:E3; [discriminate|]];
      cbn [roomId roomPassword customUrl roomNotes prizes];
      destruct (rd_roomNotes rq) as [| | b4 | k4 | x4];
      intros [= <-]; cbn [roomId roomPassword customUrl roomNotes prizes];
      rewrite ?E1, ?E2; reflexivity)).
Qed.

(** X25. The room details an admin sets reach the players: when the room id
    and the room password of a request hold more than white space and the
    other fields are left out, the update is answered with the trimmed
    values, changes no user, tournament, ledger entry or registration and no
    room of another tournament, and a registered user of the tournament,
    once it is active or completed, reads the trimmed values. *)
Theorem room_update_round_trip F G L id rq w t s p userId :
  F (TournamentFindById id) = false ->
  G (TournamentSaveRoom id) = false ->
  tournaments (db w) !! id = Some t ->
  rd_roomId rq = JStr s -> trim s <> "" ->
  rd_roomPassword rq = JStr p -> trim p <> "" ->
  rd_customUrl rq = JUndefined ->
  rd_roomNotes rq = JUndefined ->
  member userId (registeredUsers t) = true ->
  room_open (status t) = true ->
  let updated := updateRoomDetails F G "admin" id rq L w in
  fst updated
  = Ok (mkRoomDetails (tournamentId t) (trim s) (trim p) (customUrl (lobby_of L id))
          (roomNotes (lobby_of L id)))
  /\ fst (snd updated) = w
  /\ (forall other, other <> id ->
        lobby_of (snd (snd updated)) other = lobby_of L other)
  /\ roomAccess F (snd (snd updated)) userId id w
     = (Ok (mkRoomView (tournamentId t) (trim s) (trim p) (prizes (lobby_of L id))
              (status t) (startTime t)), w).
Proof.
  intros HF HG Ht Hs Hs' Hp Hp' Hc Hn Hmember Hopen updated.
  assert (Hlen : forall x, x <> "" -> Nat.eqb (String.length x) 0 = false).
  { intros x Hx. destruct x; [contradiction|reflexivity]. }
  assert (Hupd : updated
                 = (Ok (room_details t
                          (set_roomPassword (set_roomId (lobby_of L id) (trim s)) (trim p))),
                    (w, <[id := set_roomPassword (set_roomId (lobby_of L id) (trim s))
                                  (trim p)]> L))).
  { unfold updated. rewrite updateRoomDetails_eq. cbv zeta.
    rewrite String.eqb_refl. cbn [negb]. rewrite HF, Ht.
    unfold room_fields, checked_trimmed, checked_customUrl, checked_roomNotes.
    rewrite Hs, Hp, Hc, Hn, (Hlen _ Hs'), (Hlen _ Hp'), HG. reflexivity. }
  rewrite Hupd. cbn [fst snd]. split; [reflexivity|]. split; [reflexivity|]. split.
  - intros other Hother. unfold lobby_of. rewrite lookup_insert_ne by congruence.
    reflexivity.
  - rewrite roomAccess_eq, HF, Ht, Hmember, Hopen. cbn [negb].
    unfold lobby_of. rewrite !lookup_insert_eq. reflexivity.
Qed.

Lemma room_update_round_trip_witness :
  let updated := updateRoomDetails no_faults no_query_faults "admin"
                   RoomScenario.live_id RoomScenario.room_request ∅
                   RoomScenario.live_world in
  fst updated = Ok (mkRoomDetails "FF-LIVE-1" "4711" "pw" "" "")
  /\ fst (snd updated) = RoomScenario.live_world
  /\ (forall other, other <> RoomScenario.live_id ->
        lobby_of (snd (snd updated)) other = lobby_of ∅ other)
  /\ roomAccess no_faults (snd (snd updated)) Scenario.alice_id RoomScenario.live_id
       RoomScenario.live_world
     = (Ok (mkRoomView "FF-LIVE-1" "4711" "pw" (mkPrizes [] [] None) active 0),
        RoomScenario.live_world).
Proof.
  refine (room_update_round_trip no_faults no_query_faults ∅ RoomScenario.live_id
            RoomScenario.room_request RoomScenario.live_world RoomScenario.live
            " 4711 " "pw " Scenario.alice_id _ _ _ _ _ _ _ _ _ _ _);
    try reflexivity; discriminate.
Defined.

(** X26. An update of the room details that went through can be sent again:
    the second call gets the same answer and leaves the rooms as the first
    call left them.  Neither call changes anything else. *)
Theorem room_update_is_idempotent F G role id rq L w details w' L' :
  updateRoomDetails F G role id rq L w = (Ok details, (w', L')) ->
  w' = w
  /\ updateRoomDetails F G role id rq L' w' = (Ok details, (w', L')).
Proof.
  rewrite !updateRoomDetails_eq. cbv zeta.
  destruct (negb (String.eqb role "admin")); [discriminate|].
  destruct (F (TournamentFindById id)); [discriminate|].
  destruct (tournaments (db w) !! id) as [t|] eqn:Ht; [|discriminate].
  destruct (room_fields rq (lobby_of L id)) as [m | l] eqn:Hfields; [discriminate|].
  destruct (G (TournamentSaveRoom id)) eqn:HG; [discriminate|].
  intros [= <- <- <-]. split; [reflexivity|].
  rewrite Ht. unfold lobby_of at 1. rewrite lookup_insert_eq.
  change (default default_lobby (Some l)) with l.
  rewrite (room_fields_idempotent _ _ _ Hfields), insert_insert_eq. reflexivity.
Qed.

Lemma room_update_is_idempotent_witness :
  RoomScenario.live_world = RoomScenario.live_world
  /\ updateRoomDetails no_faults no_query_faults "admin" RoomScenario.live_id
       RoomScenario.room_request
       (<[RoomScenario.live_id := mkLobby "4711" "pw" "" "" (mkPrizes [] [] None)]> ∅)
       RoomScenario.live_world
     = (Ok (mkRoomDetails "FF-LIVE-1" "4711" "pw" "" ""),
        (RoomScenario.live_world,
         <[RoomScenario.live_id := mkLobby "4711" "pw" "" "" (mkPrizes [] [] None)]> ∅)).
Proof.
  apply (room_update_is_idempotent no_faults no_query_faults "admin"
           RoomScenario.live_id RoomScenario.room_request ∅ RoomScenario.live_world).
  vm_compute. reflexivity.
Defined.
